(** * batchit: block-storage provisioning, local aggregation and teardown

    A shallow embedding of the Go packages [exsmount] (volume creation,
    attachment, RAID-0 aggregation, mkfs and mount) and [ddv] (detach and
    delete), together with the properties of these packages that the
    specification states.

    Conventions.
    - Go [string] is a byte sequence: [string] of the standard library.
    - Go [int], [int64] are [Z]; arithmetic that can leave the 64-bit range
      is wrapped explicitly with [wrap64].
    - Go [map[string]bool] is [gmap string bool].
    - A Go [error] result is [option error]; [None] is Go's [nil].
    - A nil slice and an empty slice are both [[]].
    - Everything outside the process (file system, child processes, the EC2
      API, the clock, the random source) is reached through [Call]s that a
      [Host] answers; the calls made are recorded, in order, in a trace.
      Log output is not modelled. *)

From Stdlib Require Import ZArith List String Ascii Bool Lia.
From Stdlib Require Import Floats.SpecFloat.
From stdpp Require Import base option list gmap strings pretty.

Import ListNotations.
Local Open Scope string_scope.
Local Open Scope list_scope.
Local Open Scope Z_scope.

(** ** Strings *)

Module Strings.

(** [s[:len(s)-1]]; Go panics when [s] is empty. *)
Fixpoint init (s : string) : string :=
  match s with
  | EmptyString => EmptyString
  | String c EmptyString => EmptyString
  | String c s' => String c (init s')
  end.

Definition slice_to_last (s : string) : option string :=
  match s with
  | EmptyString => None
  | _ => Some (init s)
  end.

(** [strings.Contains(s, substr)] *)
Fixpoint Contains (s substr : string) : bool :=
  if String.prefix substr s then true
  else match s with
       | EmptyString => false
       | String _ s' => Contains s' substr
       end.

(** A byte of a string, as a number. *)
Definition byte (c : ascii) : Z := Z.of_N (N_of_ascii c).

(** [utf8.RuneError], the rune U+FFFD. *)
Definition RuneError : Z := 65533.

(** [utf8.DecodeRuneInString(s)], which is also what [for _, r := range s]
    reads: the first rune of [s] and its width in bytes. Bytes that do not
    begin a valid UTF-8 encoding (a stray continuation byte, an overlong
    form, a surrogate, a value above U+10FFFF, a truncated sequence) give
    [RuneError] and the width 1. The second byte must lie in the range that
    the first one accepts: [0xA0..0xBF] after [0xE0], [0x80..0x9F] after
    [0xED], [0x90..0xBF] after [0xF0], [0x80..0x8F] after [0xF4], and
    [0x80..0xBF] otherwise. *)
Definition DecodeRuneInString (s : string) : Z * nat :=
  match s with
  | EmptyString => (RuneError, O)
  | String c0 rest0 =>
      let s0 := byte c0 in
      if s0 <? 128 then (s0, 1%nat)
      else if (s0 <? 194) || (244 <? s0) then (RuneError, 1%nat)
      else
        let lo := if s0 =? 224 then 160 else if s0 =? 240 then 144 else 128 in
        let hi := if s0 =? 237 then 159 else if s0 =? 244 then 143 else 191 in
        match rest0 with
        | EmptyString => (RuneError, 1%nat)
        | String c1 rest1 =>
            let s1 := byte c1 in
            if (s1 <? lo) || (hi <? s1) then (RuneError, 1%nat)
            else if s0 <? 224 then
              (Z.lor (Z.shiftl (Z.land s0 31) 6) (Z.land s1 63), 2%nat)
            else
              match rest1 with
              | EmptyString => (RuneError, 1%nat)
              | String c2 rest2 =>
                  let s2 := byte c2 in
                  if (s2 <? 128) || (191 <? s2) then (RuneError, 1%nat)
                  else if s0 <? 240 then
                    (Z.lor (Z.lor (Z.shiftl (Z.land s0 15) 12)
                                  (Z.shiftl (Z.land s1 63) 6))
                           (Z.land s2 63), 3%nat)
                  else
                    match rest2 with
                    | EmptyString => (RuneError, 1%nat)
                    | String c3 _ =>
                        let s3 := byte c3 in
                        if (s3 <? 128) || (191 <? s3) then (RuneError, 1%nat)
                        else
                          (Z.lor (Z.lor (Z.lor (Z.shiftl (Z.land s0 7) 18)
                                               (Z.shiftl (Z.land s1 63) 12))
                                        (Z.shiftl (Z.land s2 63) 6))
                                 (Z.land s3 63), 4%nat)
                    end
              end
        end
  end.

(** [unicode.IsSpace(r)]: in Latin-1 the characters tab, line feed,
    vertical tab, form feed, carriage return, space, U+0085 and U+00A0;
    beyond it the characters of the Unicode property White_Space: U+1680,
    U+2000 to U+200A, U+2028, U+2029, U+202F, U+205F and U+3000. *)
Definition IsSpace (r : Z) : bool :=
  if r <=? 255 then
    ((9 <=? r) && (r <=? 13)) || (r =? 32) || (r =? 133) || (r =? 160)
  else
    (r =? 5760) || ((8192 <=? r) && (r <=? 8202)) || (r =? 8232)
    || (r =? 8233) || (r =? 8239) || (r =? 8287) || (r =? 12288).

(** The loop of [strings.FieldsFunc(s, unicode.IsSpace)] over the runes of
    [s]; [field] is the field being read, when one is begun. [fuel] bounds
    the number of runes left, of at least one byte each. *)
Fixpoint fields_from (fuel : nat) (s : string) (field : option string)
    : list string :=
  match fuel with
  | O => match field with Some f => [f] | None => [] end
  | S fuel' =>
      match s with
      | EmptyString => match field with Some f => [f] | None => [] end
      | _ =>
          let '(r, w) := DecodeRuneInString s in
          let bytes := String.substring 0 w s in
          let rest := String.substring w (String.length s - w) s in
          if IsSpace r then
            match field with
            | Some f => f :: fields_from fuel' rest None
            | None => fields_from fuel' rest None
            end
          else
            fields_from fuel' rest
              (Some (match field with
                     | Some f => f +:+ bytes
                     | None => bytes
                     end))
      end
  end.

(** [strings.Fields(s)]: [s] split around each run of white space, as
    [unicode.IsSpace] defines it. *)
Definition Fields (s : string) : list string :=
  fields_from (String.length s) s None.

(** [strings.Fields(line)[0]]; [None] where Go panics (no field). *)
Definition first_field (line : string) : option string :=
  match Fields line with
  | [] => None
  | dev :: _ => Some dev
  end.

(** ['0' <= v && v <= '9'] *)
Definition is_digit (v : ascii) : bool :=
  let n := nat_of_ascii v in (Nat.leb 48 n && Nat.leb n 57)%bool.

Definition len (s : string) : Z := Z.of_nat (String.length s).

(** [fmt.Sprintf("%d", i)] *)
Definition itoa (i : Z) : string := pretty i.

(** [strings.Join(l, sep)] *)
Fixpoint Join (l : list string) (sep : string) : string :=
  match l with
  | [] => ""
  | [x] => x
  | x :: l' => x +:+ sep +:+ Join l' sep
  end.

End Strings.

(** ** Errors *)

(** Errors that come from outside the program: the operating system, a
    child process, the AWS SDK. [os.IsNotExist] holds of those with
    [not_exist]. *)
Record foreign_error : Type := ForeignError {
  not_exist : bool;
  message : string
}.

(** The error values the program handles. [MountedError] is the package
    level sentinel, compared by identity in [MountLocal]; [Errorf] are the
    errors made on the spot with [fmt.Errorf]; [Wrap] is [errors.Wrap]. *)
Inductive error : Type :=
| MountedError
| Errorf (msg : string)
| Foreign (e : foreign_error)
| Wrap (cause : error) (msg : string).

Fixpoint Error (e : error) : string :=
  match e with
  | MountedError => "drive is already mounted"
  | Errorf msg => msg
  | Foreign f => message f
  | Wrap c msg => msg +:+ ": " +:+ Error c
  end.

Definition os_IsNotExist (e : foreign_error) : bool := not_exist e.

Definition error_is_MountedError (e : error) : bool :=
  match e with MountedError => true | _ => false end.

(** ** The host: calls, answers and traces *)

(** What a finished child process leaves behind: the error of [cmd.Run]
    and what it wrote to standard error. *)
Record CmdResult : Type := {
  run_err : option foreign_error;
  stderr : string
}.

(** The content of [/proc/mounts] as [mountedDevices] reads it. *)
Inductive ProcMounts : Type :=
| OpenFails
| Lines (lines : list string) (read_error : bool).

(** The instance identity document. *)
Record IID : Type := {
  AvailabilityZone : string;
  InstanceId : string;
  InstanceType : string;
  ImageId : string;
  Region : string
}.

(** The answer of [DescribeVolumes]: the output, when there is one, is the
    list of the states of the volumes described. *)
Record DescribeAnswer : Type := {
  drsp : option (list string);
  derr : option foreign_error
}.

(** The answer of [DetachVolume]: the attachment [v], when it is not nil,
    with its [State], when that is not nil, and the error. *)
Record DetachAnswer : Type := {
  attachment : option (option string);
  detach_err : option foreign_error
}.

Inductive Call : Type :=
| os_Stat (path : string)
| os_MkdirAll (path : string)
| read_proc_mounts
| exec_LookPath (file : string)
| cmd_Run (name : string) (args : list string)
| time_Sleep (seconds : Z)
| rand_Intn (n : Z)
| rand_Int63n (n : Z)
| http_Get_identity
| session_NewSession
| fmt_Println (line : string)
| ec2_CreateVolume (region az : string) (size : Z) (typ : string)
    (iops : option Z) (name : string)
| ec2_DescribeVolumes (region vid : string)
| ec2_AttachVolume (region instance vid device : string)
| ec2_DetachVolume (region vid : string) (force : bool)
| ec2_DeleteVolume (region vid : string)
| ec2_ModifyInstanceAttribute (region instance device vid : string)
    (deleteOnTermination : bool).

Definition Resp (c : Call) : Type :=
  match c with
  | os_Stat _ => option foreign_error
  | os_MkdirAll _ => option foreign_error
  | read_proc_mounts => ProcMounts
  | exec_LookPath _ => option foreign_error
  | cmd_Run _ _ => CmdResult
  | time_Sleep _ => unit
  | rand_Intn _ => Z
  | rand_Int63n _ => Z
  | http_Get_identity => (IID * option foreign_error)%type
  | session_NewSession => option foreign_error
  | fmt_Println _ => unit
  | ec2_CreateVolume _ _ _ _ _ _ => (string * option foreign_error)%type
  | ec2_DescribeVolumes _ _ => DescribeAnswer
  | ec2_AttachVolume _ _ _ _ => option foreign_error
  | ec2_DetachVolume _ _ _ => DetachAnswer
  | ec2_DeleteVolume _ _ => option foreign_error
  | ec2_ModifyInstanceAttribute _ _ _ _ _ => option foreign_error
  end.

(** A host answers a call knowing every call made before it. *)
Definition Host : Type := list Call -> forall c : Call, Resp c.

(** A call of a Go function returns, panics, or ends the process
    ([os.Exit], as the argument parser's [Fail] does). *)
Inductive Outcome (A : Type) : Type :=
| Returns (a : A)
| Panics (msg : string)
| Exits (msg : string).
Arguments Returns {A} a.
Arguments Panics {A} msg.
Arguments Exits {A} msg.

(** A computation runs on a host from the trace so far and gives an outcome
    and the trace extended by its own calls. *)
Definition Eff (A : Type) : Type := Host -> list Call -> Outcome A * list Call.

Definition eff_ret {A} (a : A) : Eff A := fun _ tr => (Returns a, tr).

Definition eff_bind {A B} (m : Eff A) (k : A -> Eff B) : Eff B :=
  fun h tr =>
    match m h tr with
    | (Returns a, tr') => k a h tr'
    | (Panics msg, tr') => (Panics msg, tr')
    | (Exits msg, tr') => (Exits msg, tr')
    end.

Definition panic {A} (msg : string) : Eff A := fun _ tr => (Panics msg, tr).

Definition exit {A} (msg : string) : Eff A := fun _ tr => (Exits msg, tr).

Definition call (c : Call) : Eff (Resp c) :=
  fun h tr => (Returns (h tr c), tr ++ [c]).

Declare Scope eff_scope.
Delimit Scope eff_scope with eff.
Notation "x <- m ;; k" := (eff_bind m (fun x => k))
  (at level 100, m at next level, right associativity) : eff_scope.
Notation "m ;;; k" := (eff_bind m (fun _ => k))
  (at level 100, right associativity) : eff_scope.

(** Runs a computation from the empty trace. *)
Definition run {A} (m : Eff A) (h : Host) : Outcome A * list Call := m h [].

(** ** Trace predicates *)

Definition is_mkfs (c : Call) : bool :=
  match c with cmd_Run name _ => String.eqb name "mkfs" | _ => false end.
Definition is_mount (c : Call) : bool :=
  match c with cmd_Run name _ => String.eqb name "mount" | _ => false end.
Definition is_mdadm (c : Call) : bool :=
  match c with cmd_Run name _ => String.eqb name "mdadm" | _ => false end.
Definition is_detach (c : Call) : bool :=
  match c with ec2_DetachVolume _ _ _ => true | _ => false end.
Definition is_delete (c : Call) : bool :=
  match c with ec2_DeleteVolume _ _ => true | _ => false end.
Definition is_ec2 (c : Call) : bool :=
  match c with
  | ec2_CreateVolume _ _ _ _ _ _ | ec2_DescribeVolumes _ _
  | ec2_AttachVolume _ _ _ _ | ec2_DetachVolume _ _ _
  | ec2_DeleteVolume _ _ | ec2_ModifyInstanceAttribute _ _ _ _ _ => true
  | _ => false
  end.

(** The calls of a trace that satisfy [p], in order. *)
Definition calls (p : Call -> bool) (tr : list Call) : list Call :=
  List.filter p tr.

(** ** Machine arithmetic *)

Definition wrap64 (z : Z) : Z := (z + 2^63) mod 2^64 - 2^63.

(** Go's [float64], on the standard library's specification of IEEE 754
    binary64 (53 bits of precision, round to nearest even). *)
Module Float64.

Definition prec : Z := 53.
Definition emax : Z := 1024.

(** [float64(z)] for an integer [z] *)
Definition of_int (z : Z) : spec_float := binary_normalize prec emax z 0 false.

Definition div : spec_float -> spec_float -> spec_float := SFdiv prec emax.
Definition add : spec_float -> spec_float -> spec_float := SFadd prec emax.

(** The constant [0.5] *)
Definition half : spec_float := S754_finite false (2 ^ 52) (-53).

(** [int64(f)]: the fraction is discarded (truncation towards zero). For
    a value that [int64] cannot hold, and for NaN, Go leaves the result
    to the implementation; on amd64 it is the least [int64]. *)
Definition to_int64 (f : spec_float) : Z :=
  match f with
  | S754_zero _ => 0
  | S754_finite s m e =>
      let mag := if 0 <=? e then Z.pos m * 2 ^ e else Z.pos m / 2 ^ (- e) in
      let v := if s then - mag else mag in
      if (- 2 ^ 63 <=? v) && (v <? 2 ^ 63) then v else - 2 ^ 63
  | S754_infinity _ | S754_nan => - 2 ^ 63
  end.

End Float64.

(** ** Package exsmount *)

Module exsmount.

Local Open Scope eff_scope.

(** The loop of [mountedDevices] that strips trailing digits: [i] runs
    down from [len(dev) - 1] while [i > 1] and [dev[i]] is a digit. *)
Fixpoint strip_digits (fuel : nat) (i : Z) (dev : string) : string :=
  match fuel with
  | O => dev
  | S fuel' =>
      if 1 <? i then
        match String.get (Z.to_nat i) dev with
        | Some v =>
            if Strings.is_digit v
            then strip_digits fuel' (i - 1) (Strings.init dev)
            else dev
        | None => dev
        end
      else dev
  end.

Fixpoint mountedDevices_lines (lines : list string)
    (devices : gmap string bool) : Outcome (gmap string bool) :=
  match lines with
  | [] => Returns devices
  | line :: lines' =>
      match Strings.first_field line with
      | None => Panics "index out of range [0] with length 0"
      | Some dev =>
          let devices := <[dev := true]> devices in
          let dev' :=
            strip_digits (String.length dev) (Strings.len dev - 1) dev in
          mountedDevices_lines lines' (<[dev' := true]> devices)
      end
  end.

Definition mountedDevices : Eff (gmap string bool) :=
  f <- call read_proc_mounts ;;
  match f with
  | OpenFails => eff_ret ∅
  | Lines lines read_error =>
      match mountedDevices_lines lines ∅ with
      | Panics msg | Exits msg => panic msg
      | Returns devices =>
          if read_error then panic "read /proc/mounts" else eff_ret devices
      end
  end.

Fixpoint contains (haystack : list string) (needle : string) : bool :=
  match haystack with
  | [] => false
  | h :: haystack' =>
      if String.eqb h needle then true else contains haystack' needle
  end.

Definition mkfs (fstype attachDevice : string) : Eff (option error) :=
  r <- call (cmd_Run "mkfs" ["-t"; fstype; attachDevice]) ;;
  match run_err r with
  | Some err =>
      if Strings.Contains (stderr r) "is mounted"
      then eff_ret (Some MountedError)
      else eff_ret (Some (Foreign err))
  | None => eff_ret None
  end.

Definition makeDir (path : string) : Eff (option error) :=
  st <- call (os_Stat path) ;;
  match st with
  | Some err =>
      if os_IsNotExist err then
        mk <- call (os_MkdirAll path) ;;
        match mk with
        | Some err => eff_ret (Some (Foreign err))
        | None => eff_ret None
        end
      else eff_ret (Some (Foreign err))
  | None => eff_ret None
  end.

Definition makeAndMount (attachDevice mountPoint : string)
    : Eff (option error) :=
  e <- makeDir mountPoint ;;
  match e with
  | Some err => eff_ret (Some err)
  | None =>
      r <- call (cmd_Run "mount" ["-o"; "noatime"; attachDevice; mountPoint]) ;;
      match run_err r with
      | Some err => eff_ret (Some (Foreign err))
      | None => eff_ret None
      end
  end.

(** The first loop of [MountLocal]: [inl err] is the early
    [return nil, err], [inr devices] the list when the loop ends, by
    running out of candidates or by [break]. *)
Fixpoint selectDevices (deviceCandidates : list string)
    (inUse : gmap string bool) (rest devices : list string)
    : Eff (error + list string) :=
  match rest with
  | [] => eff_ret (inr devices)
  | dev :: rest' =>
      match Strings.slice_to_last dev with
      | None => panic "slice bounds out of range [:-1]"
      | Some sub =>
          if contains deviceCandidates sub
          then selectDevices deviceCandidates inUse rest' devices
          else
            st <- call (os_Stat dev) ;;
            match st with
            | Some err =>
                if os_IsNotExist err then eff_ret (inr devices)
                else eff_ret (inl (Foreign err))
            | None =>
                match inUse !! dev with
                | Some _ =>
                    selectDevices deviceCandidates inUse rest' devices
                | None =>
                    selectDevices deviceCandidates inUse rest'
                      (devices ++ [dev])
                end
            end
      end
  end.

(** The loop of the branch without RAID: [for i, dev := range devices]
    from index [i] on. [Some err] is the early [return nil, err]. *)
Fixpoint mountEach (mountBase : string) (i : Z) (devices : list string)
    : Eff (option error) :=
  match devices with
  | [] => eff_ret None
  | dev :: devices' =>
      e <- mkfs "ext4" dev ;;
      match e with
      | Some err =>
          if error_is_MountedError err
          then mountEach mountBase (i + 1) devices'
          else eff_ret (Some err)
      | None =>
          let base :=
            if 0 <? i then mountBase +:+ "_" +:+ Strings.itoa i
            else mountBase in
          e <- makeAndMount dev base ;;
          match e with
          | Some err => eff_ret (Some err)
          | None => mountEach mountBase (i + 1) devices'
          end
      end
  end.

(** [fmt.Sprintf("/dev/md%d", i)] *)
Definition raidPath (i : Z) : string := "/dev/md" +:+ Strings.itoa i.

(** The scan for a free [/dev/md%d], [i] from [20 - fuel] up to 19;
    [""] when none is free. *)
Fixpoint findRaidDev (fuel : nat) (i : Z) : Eff string :=
  match fuel with
  | O => eff_ret ""
  | S fuel' =>
      let rd := raidPath i in
      st <- call (os_Stat rd) ;;
      match st with
      | Some err =>
          if os_IsNotExist err then eff_ret rd
          else findRaidDev fuel' (i + 1)
      | None => findRaidDev fuel' (i + 1)
      end
  end.

Definition mdadm_args (raidDev : string) (devices : list string)
    : list string :=
  ["--create"; "--verbose"; raidDev; "-R"; "--level=stripe";
   "--raid-devices=" +:+ Strings.itoa (Z.of_nat (List.length devices))]
  ++ devices.

(** [MountLocal] RAID-0's all devices onto a single mount-point. *)
Definition MountLocal (deviceCandidates : list string) (mountBase : string)
    : Eff (list string * option error) :=
  inUse <- mountedDevices ;;
  sel <- selectDevices deviceCandidates inUse deviceCandidates [] ;;
  match sel with
  | inl err => eff_ret ([], Some err)
  | inr devices =>
      if Nat.eqb (List.length devices) 0 then
        eff_ret ([], Some (Errorf "exsmount: no unused local storage found"))
      else
        lp <- call (exec_LookPath "mdadm") ;;
        if (match lp with Some _ => true | None => false end
            || Nat.eqb (List.length devices) 1)%bool
        then
          e <- mountEach mountBase 0 devices ;;
          match e with
          | Some err => eff_ret ([], Some err)
          | None => eff_ret (devices, None)
          end
        else
          raidDev <- findRaidDev 20 0 ;;
          if String.eqb raidDev "" then
            eff_ret ([], Some (Errorf "no available /dev/md path found"))
          else
            r <- call (cmd_Run "mdadm" (mdadm_args raidDev devices)) ;;
            match run_err r with
            | Some err => eff_ret ([], Some (Foreign err))
            | None =>
                e <- mkfs "ext4" raidDev ;;
                match e with
                | Some err => eff_ret ([raidDev], Some err)
                | None =>
                    e <- makeAndMount raidDev mountBase ;;
                    eff_ret ([raidDev], e)
                end
            end
  end.

(** *** Volumes *)

Record Args : Type := {
  Size : Z;
  MountPoint : string;
  VolumeType : string;
  FSType : string;
  Iops : Z;
  N : Z;
  Keep : bool
}.

Definition set_Iops (cli : Args) (iops : Z) : Args :=
  {| Size := Size cli; MountPoint := MountPoint cli;
     VolumeType := VolumeType cli; FSType := FSType cli;
     Iops := iops; N := N cli; Keep := Keep cli |}.

Definition set_Size (cli : Args) (size : Z) : Args :=
  {| Size := size; MountPoint := MountPoint cli;
     VolumeType := VolumeType cli; FSType := FSType cli;
     Iops := Iops cli; N := N cli; Keep := Keep cli |}.

(** The loop of [WaitForVolumeStatus], [i] from [30 - fuel];
    [xstatus] is the last state seen. *)
Fixpoint waitLoop (region volumeId status : string) (fuel : nat) (i : Z)
    (xstatus : string) : Eff (option error) :=
  match fuel with
  | O =>
      eff_ret (Some (Errorf ("never found volume: " +:+ volumeId
                             +:+ " with status: " +:+ status
                             +:+ ". last was: " +:+ xstatus)))
  | S fuel' =>
      d <- call (ec2_DescribeVolumes region volumeId) ;;
      match derr d with
      | Some err =>
          eff_ret (Some (Wrap (Foreign err)
                           ("error waiting for volume: " +:+ volumeId
                            +:+ " status: " +:+ status)))
      | None =>
          match drsp d with
          | None => panic "invalid memory address or nil pointer dereference"
          | Some [] => panic ("volume: " +:+ volumeId +:+ " not found")
          | Some (xstatus :: _) =>
              if String.eqb xstatus status then eff_ret None
              else
                call (time_Sleep 4) ;;;
                (if 10 <? i then call (time_Sleep i) else eff_ret tt) ;;;
                waitLoop region volumeId status fuel' (i + 1) xstatus
          end
      end
  end.

Definition WaitForVolumeStatus (region volumeId status : string)
    : Eff (option error) :=
  call (time_Sleep 5) ;;;
  waitLoop region volumeId status 30 0 "".

(** [Create]; [is_] is the variadic [is], the optional numeric suffix of the name tag. The
    result is the id of the volume and the error. *)
Definition Create (region : string) (iid : IID) (size : Z) (typ : string)
    (iops : Z) (is_ : list Z) : Eff (string * option error) :=
  let suf := match is_ with i :: _ => "-" +:+ Strings.itoa i | [] => "" end in
  let cvi_Iops := if String.eqb typ "io1" then Some iops else None in
  p <- call (ec2_CreateVolume region (AvailabilityZone iid) size
                           typ cvi_Iops
                           ("batchit-" +:+ InstanceId iid +:+ suf)) ;;
  let '(volumeId, e) := p in
  match e with
  | Some err => eff_ret ("", Some (Foreign err))
  | None =>
      e <- WaitForVolumeStatus region volumeId "available" ;;
      match e with
      | Some err => eff_ret ("", Some err)
      | None => eff_ret (volumeId, None)
      end
  end.

Definition letters : string := "abcdefghijklmnopqrstuvwxyz".

(** [s[k:len(s)]] *)
Definition slice_from (s : string) (k : Z) : string :=
  String.substring (Z.to_nat k) (String.length s - Z.to_nat k) s.

Fixpoint findNextDevNode (prefix suffixChars : string) : Eff string :=
  match suffixChars with
  | EmptyString => panic ("no device found with prefix: " +:+ prefix)
  | String s suffixChars' =>
      let node := prefix +:+ String s EmptyString in
      st <- call (os_Stat node) ;;
      match st with
      | None => findNextDevNode prefix suffixChars'
      | Some err =>
          if os_IsNotExist err then eff_ret node
          else findNextDevNode prefix suffixChars'
      end
  end.

Fixpoint waitForDevice_loop (device : string) (fuel : nat) : Eff bool :=
  match fuel with
  | O => eff_ret false
  | S fuel' =>
      st <- call (os_Stat device) ;;
      match st with
      | Some _ => call (time_Sleep 1) ;;; waitForDevice_loop device fuel'
      | None => eff_ret true
      end
  end.

Definition waitForDevice (device : string) : Eff bool :=
  waitForDevice_loop device 30.

Definition DeleteOnTermination (region instanceId volumeId attachDevice : string)
    : Eff (option error) :=
  e <- call (ec2_ModifyInstanceAttribute region instanceId attachDevice
               volumeId true) ;;
  match e with
  | Some err =>
      eff_ret (Some (Wrap (Foreign err) "error setting delete on termination"))
  | None => eff_ret None
  end.

(** Lines 292-306 of [CreateAttach]: the checks of [cli.Iops], with the
    arithmetic of [int64]. *)
Definition checkIops (cli : Args) : error + Args :=
  if String.eqb (VolumeType cli) "io1" then
    let cli := if Iops cli =? 0 then set_Iops cli (wrap64 (45 * Size cli))
               else cli in
    if (Iops cli <? 100) || (20000 <? Iops cli) then
      inl (Errorf "ebsmount: Iops must be between 100 and 20000")
    else if wrap64 (50 * Size cli) <? Iops cli then
      let cli := set_Iops cli (wrap64 (45 * Size cli)) in
      let cli := if 200000 <? Iops cli then set_Iops cli 20000 else cli in
      inr cli
    else inr cli
  else inr cli.

(** Line 312: [int64(float64(cli.Size)/float64(cli.N) + 0.5)] *)
Definition splitSize (size n : Z) : Z :=
  Float64.to_int64
    (Float64.add (Float64.div (Float64.of_int size) (Float64.of_int n))
                 Float64.half).

(** What one round of the attach loops leaves: an early [return], or the
    variables [attached], [attachDevice], [volumes], [devices]. *)
Record AttachState : Type := {
  st_attached : bool;
  st_attachDevice : string;
  st_volumes : list string;
  st_devices : list string
}.

(** The loop [for k := int64(1); k < 7; k++], from [k] on. [err] is the
    variable [err] of [CreateAttach], which at this point holds the
    error of the first [Create] of this volume. [inl] is an early
    [return] of [CreateAttach] with its two results. *)
Fixpoint attachLoop (region : string) (iid : IID) (volumeId prefix : string)
    (err : option error) (fuel : nat) (k : Z) (st : AttachState)
    : Eff (list string * option error + AttachState) :=
  match fuel with
  | O => eff_ret (inr st)
  | S fuel' =>
      attachDevice <- findNextDevNode prefix (slice_from letters k) ;;
      let st := {| st_attached := st_attached st; st_attachDevice := attachDevice;
                   st_volumes := st_volumes st; st_devices := st_devices st |} in
      e <- call (ec2_AttachVolume region (InstanceId iid) volumeId
                   attachDevice) ;;
      match e with
      | Some aerr =>
          if Strings.Contains (message aerr) "is already in use" then
            r <- call (rand_Int63n k) ;;
            call (time_Sleep (3 * (k + r))) ;;;
            attachLoop region iid volumeId prefix err fuel' (k + 1) st
          else
            eff_ret (inl ([], Some (Wrap (Foreign aerr)
                                      "error attaching device")))
      | None =>
          let st := {| st_attached := st_attached st; st_attachDevice := attachDevice;
                       st_volumes := st_volumes st ++ [volumeId];
                       st_devices := st_devices st |} in
          e <- WaitForVolumeStatus region volumeId "in-use" ;;
          match e with
          | Some werr => eff_ret (inl ([], Some werr))
          | None =>
              ok <- waitForDevice attachDevice ;;
              if negb ok then eff_ret (inl ([], err))
              else
                eff_ret (inr {| st_attached := true;
                                st_attachDevice := attachDevice;
                                st_volumes := st_volumes st;
                                st_devices := st_devices st ++ [attachDevice] |})
          end
      end
  end.

(** The loop over the prefixes [/dev/sd] and [/dev/xvd]. *)
Fixpoint prefixLoop (region : string) (iid : IID) (volumeId : string)
    (err : option error) (prefixes : list string) (st : AttachState)
    : Eff (list string * option error + AttachState) :=
  match prefixes with
  | [] => eff_ret (inr st)
  | prefix :: prefixes' =>
      if st_attached st then eff_ret (inr st)
      else
        r <- attachLoop region iid volumeId prefix err 6 1 st ;;
        match r with
        | inl early => eff_ret (inl early)
        | inr st => prefixLoop region iid volumeId err prefixes' st
        end
  end.

(** The loop [for i := 0; i < cli.N; i++], from [i] on; [inl] is an early
    [return], [inr] the lists [devices] and [volumes] at the end. *)
Fixpoint volumeLoop (region : string) (iid : IID) (cli : Args)
    (fuel : nat) (i : Z) (devices volumes : list string)
    : Eff (list string * option error + list string * list string) :=
  match fuel with
  | O => eff_ret (inr (devices, volumes))
  | S fuel' =>
      p <- Create region iid (Size cli) (VolumeType cli)
                       (Iops cli) [i] ;;
  let '(rsp, err) := p in
      created <-
        match err with
        | Some cerr =>
            if Strings.Contains (Error cerr) "RequestLimitExceeded" then
              r <- call (rand_Intn 90) ;;
              call (time_Sleep (10 + r)) ;;;
              p <- Create region iid (Size cli) (VolumeType cli)
                                (Iops cli) [i] ;;
  let '(rsp, err2) := p in
              match err2 with
              | Some _ => eff_ret (inl (Wrap cerr "error creating volume"))
              | None => eff_ret (inr rsp)
              end
            else eff_ret (inl (Wrap cerr "error creating volume"))
        | None => eff_ret (inr rsp)
        end ;;
      match created with
      | inl e => eff_ret (inl ([], Some e))
      | inr volumeId =>
          call (time_Sleep 3) ;;;
          r <- prefixLoop region iid volumeId err ["/dev/sd"; "/dev/xvd"]
                 {| st_attached := false; st_attachDevice := "";
                    st_volumes := volumes; st_devices := devices |} ;;
          match r with
          | inl early => eff_ret (inl early)
          | inr st =>
              if negb (st_attached st) then
                eff_ret (inl ([], Some (Errorf
                                 "ebsmount: unable to attach device")))
              else
                e <- (if negb (Keep cli) then
                        e <- DeleteOnTermination region (InstanceId iid)
                               volumeId (st_attachDevice st) ;;
                        match e with
                        | Some derr =>
                            eff_ret (Some (Wrap derr
                               "error setting delete on termination"))
                        | None => eff_ret None
                        end
                      else eff_ret None) ;;
                match e with
                | Some derr => eff_ret (inl ([], Some derr))
                | None =>
                    volumeLoop region iid cli fuel' (i + 1)
                      (st_devices st) (st_volumes st)
                end
          end
      end
  end.

Definition CreateAttach (cli : Args) : Eff (list string * option error) :=
  p <- call http_Get_identity ;;
  let '(iid, e) := p in
  match e with
  | Some err => eff_ret ([], Some (Foreign err))
  | None =>
      e <- call session_NewSession ;;
      match e with
      | Some err => eff_ret ([], Some (Wrap (Foreign err)
                                         "error creating session"))
      | None =>
          match checkIops cli with
          | inl err => eff_ret ([], Some err)
          | inr cli =>
              let cli := set_Size cli (splitSize (Size cli) (N cli)) in
              r <- volumeLoop (Region iid) iid cli (Z.to_nat (N cli)) 0 [] [] ;;
              match r with
              | inl early => eff_ret early
              | inr (devices, volumes) =>
                  call (fmt_Println (Strings.Join volumes " ")) ;;;
                  e <- makeDir (MountPoint cli) ;;
                  match e with
                  | Some err => eff_ret ([], Some err)
                  | None => eff_ret (devices, None)
                  end
              end
          end
      end
  end.

(** The loop of [Main] that sets the read-ahead of each device; its
    failures are only logged. *)
Fixpoint setReadAhead (devices : list string) : Eff unit :=
  match devices with
  | [] => eff_ret tt
  | d :: devices' =>
      call (cmd_Run "blockdev" ["--setra"; "2048"; d]) ;;;
      setReadAhead devices'
  end.

(** [Main], from the parsed arguments on. *)
Definition Main (cli : Args) : Eff unit :=
  let typ := VolumeType cli in
  if negb (String.eqb typ "st1") && negb (String.eqb typ "gp2")
     && negb (String.eqb typ "sc1") && negb (String.eqb typ "io1")
     && negb (String.eqb typ "standard")
  then exit "volume type must be one of st1/gp2/sc1/io1"
  else if (16 <? N cli) || (N cli <? 1)
  then exit "number of volumes should be between 1 and 16"
  else
    p <- CreateAttach cli ;;
  let '(devices, err) := p in
    match err with
    | Some e => panic (Error e)
    | None =>
        p <- MountLocal devices (MountPoint cli) ;;
  let '(devices, err) := p in
        match err with
        | Some e => panic (Error e)
        | None =>
            if String.eqb typ "st1" || String.eqb typ "sc1"
            then setReadAhead devices
            else eff_ret tt
        end
    end.

(** *** EFS *)

Definition efs_opts : string :=
  "rsize=1048576,wsize=1048576,hard,timeo=600,retrans=2".

(** [EFSMount] mounts the EFS drive on the requested mount point. *)
Definition EFSMount (efs mountPoint mountOpts : string) : Eff (option error) :=
  e <- makeDir mountPoint ;;
  match e with
  | Some err => eff_ret (Some err)
  | None =>
      let opts := efs_opts in
      let opts := if String.eqb mountOpts "" then opts
                  else opts +:+ "," +:+ mountOpts in
      if negb (Strings.Contains efs ":") then
        eff_ret (Some (Errorf
          "EFS string must end with path within the mount e.g. :/"))
      else
        r <- call (cmd_Run "mount" ["-t"; "nfs4"; "-o"; opts; efs; mountPoint]) ;;
        match run_err r with
        | Some err => eff_ret (Some (Foreign err))
        | None => eff_ret None
        end
  end.

End exsmount.

(** ** Package ddv: detach and delete *)

Module ddv.

Local Open Scope eff_scope.

Definition regions : list string :=
  ["us-east-1"; "us-east-2"; "us-west-1"; "us-west-2"; "ap-south-1";
   "ap-northeast-2"; "ap-northeast-1"; "ca-central-1"; "cn-north-1";
   "eu-west-1"; "eu-west-2"; "sa-east-1"; "us-gov-west-1";
   "ap-southeast-1"; "ap-southeast-2"].

(** The variables [svc], [drsp] and [err] of [DetachAndDelete]; of [svc]
    only the region matters. *)
Record Probe : Type := {
  svc : option string;
  probe_drsp : option (list string);
  probe_err : option foreign_error
}.

(** The loop over the regions: each round makes a client for the region
    and describes the volume there; an error moves on to the next region,
    a success ends the loop. *)
Fixpoint probeRegions (vid : string) (rs : list string) (p : Probe)
    : Eff Probe :=
  match rs with
  | [] => eff_ret p
  | region :: rs' =>
      s <- call session_NewSession ;;
      match s with
      | Some err => panic (message err)
      | None =>
          d <- call (ec2_DescribeVolumes region vid) ;;
          let p := {| svc := Some region; probe_drsp := drsp d;
                      probe_err := derr d |} in
          match derr d with
          | Some _ => probeRegions vid rs' p
          | None => eff_ret p
          end
      end
  end.

(** The loop [for i := 0; i < 10; i++] around [DetachVolume]: [Some err]
    is an early [return err], [None] is the end of the loop, by [break]
    or by count. *)
Fixpoint detachLoop (region vid : string) (fuel : nat) : Eff (option error) :=
  match fuel with
  | O => eff_ret None
  | S fuel' =>
      a <- call (ec2_DetachVolume region vid true) ;;
      let v := attachment a in
      let err := detach_err a in
      match err with
      | None =>
          e <- exsmount.WaitForVolumeStatus region vid "available" ;;
          match e with
          | Some err => eff_ret (Some err)
          | None => eff_ret None
          end
      | Some derr =>
          if Strings.Contains (message derr) "is in the 'available' state"
          then eff_ret None
          else
            available <-
              match v with
              | None => eff_ret false
              | Some None =>
                  panic "invalid memory address or nil pointer dereference"
              | Some (Some state) => eff_ret (String.eqb state "available")
              end ;;
            if (available : bool) then eff_ret None
            else
              match err with
              | Some err => eff_ret (Some (Foreign err))
              | None =>
                  call (time_Sleep 1) ;;;
                  detachLoop region vid fuel'
              end
      end
  end.

Definition DetachAndDelete (vid : string) : Eff (option error) :=
  p <- probeRegions vid regions
         {| svc := None; probe_drsp := None; probe_err := None |} ;;
  match probe_drsp p with
  | None => eff_ret (Some (Errorf ("ddv: volume: " +:+ vid +:+ " not found")))
  | Some _ =>
      match probe_err p with
      | Some err => eff_ret (Some (Foreign err))
      | None =>
          match svc p with
          | None => panic "invalid memory address or nil pointer dereference"
          | Some region =>
              e <- detachLoop region vid 10 ;;
              match e with
              | Some err => eff_ret (Some err)
              | None =>
                  e <- call (ec2_DeleteVolume region vid) ;;
                  match e with
                  | Some err => eff_ret (Some (Foreign err))
                  | None => eff_ret None
                  end
              end
          end
      end
  end.

End ddv.

(** ** Concrete hosts

    Hosts to run the programs on: the file system, the child processes and
    the volume service answer from the functions given; every other call
    succeeds. *)

Module Hosts.

Definition ENOENT : foreign_error :=
  ForeignError true "no such file or directory".
Definition EACCES : foreign_error :=
  ForeignError false "permission denied".

Definition done : CmdResult := {| run_err := None; stderr := "" |}.
Definition failed (status err : string) : CmdResult :=
  {| run_err := Some (ForeignError false status); stderr := err |}.

Definition identity : IID :=
  {| AvailabilityZone := "us-east-1a"; InstanceId := "i-0abc";
     InstanceType := "m4.large"; ImageId := "ami-1"; Region := "us-east-1" |}.

Definition host
    (stat : list Call -> string -> option foreign_error)
    (mounts : ProcMounts)
    (lookPath : string -> option foreign_error)
    (cmd : string -> list string -> CmdResult)
    (describe : list Call -> string -> string -> DescribeAnswer)
    : Host :=
  fun tr c =>
    match c return Resp c with
    | os_Stat path => stat tr path
    | os_MkdirAll _ => None
    | read_proc_mounts => mounts
    | exec_LookPath file => lookPath file
    | cmd_Run name args => cmd name args
    | time_Sleep _ => tt
    | rand_Intn _ => 0
    | rand_Int63n _ => 0
    | http_Get_identity => (identity, None)
    | session_NewSession => None
    | fmt_Println _ => tt
    | ec2_CreateVolume _ _ _ _ _ name => ("vol-" +:+ name, None)
    | ec2_DescribeVolumes region vid => describe tr region vid
    | ec2_AttachVolume _ _ _ _ => None
    | ec2_DetachVolume _ _ _ =>
        {| attachment := Some (Some "detaching"); detach_err := None |}
    | ec2_DeleteVolume _ _ => None
    | ec2_ModifyInstanceAttribute _ _ _ _ _ => None
    end.

(** The paths of [present] exist, no other path does. *)
Definition only (present : list string) : list Call -> string -> option foreign_error :=
  fun _ path => if exsmount.contains present path then None else Some ENOENT.

Definition found : string -> option foreign_error := fun _ => None.
Definition missing : string -> option foreign_error :=
  fun _ => Some (ForeignError false "executable file not found in $PATH").

Definition succeed : string -> list string -> CmdResult := fun _ _ => done.

(** A volume is [in-use] once an attach call was made, [available]
    before. *)
Definition attaches (tr : list Call) : bool :=
  existsb (fun c => match c with ec2_AttachVolume _ _ _ _ => true | _ => false end) tr.
Definition volumes_follow : list Call -> string -> string -> DescribeAnswer :=
  fun tr _ _ =>
    {| drsp := Some [if attaches tr then "in-use" else "available"];
       derr := None |}.

(** No region knows the volume; the client returns its output struct
    along with the error, as the AWS SDK does. *)
Definition nowhere : list Call -> string -> string -> DescribeAnswer :=
  fun _ _ vid =>
    {| drsp := Some [];
       derr := Some (ForeignError false
                 ("InvalidVolume.NotFound: The volume '" +:+ vid
                  +:+ "' does not exist.")) |}.

End Hosts.

(** ** Example hosts *)

Module Examples_selection.
Import Hosts.

(** A disk and its first partition are both offered; nothing is
    mounted. *)
Definition disk_and_partition : Host :=
  host (only ["/dev/xvdb"; "/dev/xvdb1"]) (Lines [] false) found succeed
    volumes_follow.

(** A disk and its twelfth partition are both offered; nothing is
    mounted; [/dev/md0] is free. *)
Definition disk_and_partition_12 : Host :=
  host (only ["/dev/xvdb"; "/dev/xvdb12"]) (Lines [] false) found succeed
    volumes_follow.

(** A disk and its first partition are both offered; the partition is
    mounted, so that the mount table counts the disk as in use too. *)
Definition partition_mounted : Host :=
  host (only ["/dev/xvdb"; "/dev/xvdb1"])
    (Lines ["/dev/xvdb1 /data ext4 rw,relatime 0 0"] false) found succeed
    volumes_follow.

(** [os.Stat] of the only candidate fails with an error other than
    "does not exist"; the candidate is in the mount table. *)
Definition stat_denied : Host :=
  host (fun _ _ => Some EACCES)
    (Lines ["/dev/xvdb /data ext4 rw,relatime 0 0"] false) found succeed
    volumes_follow.

(** Both candidates exist and both are mounted. *)
Definition both_mounted : Host :=
  host (only ["/dev/xvdb"; "/dev/xvdc"])
    (Lines ["/dev/xvdb /data ext4 rw,relatime 0 0";
            "/dev/xvdc /scratch ext4 rw,relatime 0 0"] false)
    found succeed volumes_follow.
End Examples_selection.

Module Examples_striping.
Import Hosts.

(** Three devices exist, nothing is mounted, [mdadm] is installed,
    [/dev/md0] is taken and [/dev/md1] is free; the mount point exists. *)
Definition three_devices : Host :=
  host (only ["/dev/xvdb"; "/dev/xvdc"; "/dev/xvdd"; "/dev/md0"; "/mnt/x"])
    (Lines [] false) found succeed volumes_follow.

(** As above with [/dev/md0] free, but [mdadm] fails: the devices are
    busy. *)
Definition busy_devices : Host :=
  host (only ["/dev/xvdb"; "/dev/xvdc"; "/dev/xvdd"; "/mnt/x"])
    (Lines [] false) found
    (fun name _ =>
       if String.eqb name "mdadm"
       then failed "exit status 1"
              "mdadm: cannot open /dev/xvdb: Device or resource busy"
       else done)
    volumes_follow.

(** Two devices exist and [mdadm] assembles them, but [mkfs] finds the
    array mounted. *)
Definition array_mounted : Host :=
  host (only ["/dev/xvdb"; "/dev/xvdc"; "/mnt/x"])
    (Lines [] false) found
    (fun name _ =>
       if String.eqb name "mkfs"
       then failed "exit status 1"
              "/dev/md0 is mounted; will not make a filesystem here!"
       else done)
    volumes_follow.

(** An earlier run formatted [/dev/xvdb] and mounted it on [/mnt/x]. *)
Definition mounted_by_earlier_run : Host :=
  host (only ["/dev/xvdb"; "/mnt/x"])
    (Lines ["/dev/xvdb /mnt/x ext4 rw,noatime 0 0"] false) found succeed
    volumes_follow.

(** Two devices exist, [mdadm] is not installed, the mount table cannot
    be read, and [mkfs] finds each device mounted. *)
Definition devices_mounted : Host :=
  host (only ["/dev/xvdb"; "/dev/xvdc"; "/mnt/x"])
    OpenFails missing
    (fun name _ =>
       if String.eqb name "mkfs"
       then failed "exit status 1"
              "device is mounted; will not make a filesystem here!"
       else done)
    volumes_follow.
End Examples_striping.

Module Examples_teardown.
Import Hosts.

(** The describe call fails in every region for want of credentials;
    the client returns its output struct along with the error. *)
Definition no_credentials : Host :=
  host (only []) (Lines [] false) found succeed
    (fun _ _ _ =>
       {| drsp := Some [];
          derr := Some (ForeignError false
                    "NoCredentialProviders: no valid providers in chain") |}).

(** The describe call fails in every region and the client returns no
    output. *)
Definition no_output : Host :=
  host (only []) (Lines [] false) found succeed
    (fun _ _ vid =>
       {| drsp := None;
          derr := Some (ForeignError false
                    ("InvalidVolume.NotFound: The volume '" +:+ vid
                     +:+ "' does not exist.")) |}).

(** The describe call fails in every region; the client returns an output
    along with the error in the first region only. *)
Definition output_in_first_region : Host :=
  host (only []) (Lines [] false) found succeed
    (fun _ region vid =>
       {| drsp := if String.eqb region "us-east-1" then Some [] else None;
          derr := Some (ForeignError false
                    ("InvalidVolume.NotFound: The volume '" +:+ vid
                     +:+ "' does not exist.")) |}).
End Examples_teardown.

Module Examples_provisioning.
Import Hosts.

(** A device node exists once a volume was attached at it. *)
Definition attached_device (tr : list Call) (path : string) : bool :=
  existsb (fun c => match c with
                    | ec2_AttachVolume _ _ _ device => String.eqb device path
                    | _ => false
                    end) tr.
Definition devices_appear : list Call -> string -> option foreign_error :=
  fun tr path => if attached_device tr path then None else Some ENOENT.

(** A volume is [in-use] once it was attached, [available] before. *)
Definition attached_volume (tr : list Call) (vid : string) : bool :=
  existsb (fun c => match c with
                    | ec2_AttachVolume _ _ v _ => String.eqb v vid
                    | _ => false
                    end) tr.
Definition volumes_attach : list Call -> string -> string -> DescribeAnswer :=
  fun tr _ vid =>
    {| drsp := Some [if attached_volume tr vid then "in-use" else "available"];
       derr := None |}.

(** Every call succeeds, and the device of a volume appears as soon as the
    volume is attached; [mdadm] is not installed. *)
Definition obliging : Host :=
  host devices_appear (Lines [] false) missing succeed volumes_attach.

(** Every call to the volume service succeeds, but no device node ever
    appears. *)
Definition never_appears : Host :=
  host (only []) (Lines [] false) found succeed volumes_attach.

Definition request (typ fstype : string) (size iops n : Z) : exsmount.Args :=
  {| exsmount.Size := size; exsmount.MountPoint := "/mnt/x";
     exsmount.VolumeType := typ; exsmount.FSType := fstype;
     exsmount.Iops := iops; exsmount.N := n; exsmount.Keep := false |}.
End Examples_provisioning.

(** ** Vocabulary of the properties *)

(** The candidates [deviceCandidates] yield the usable devices [devices]:
    the mount table is read and the selection loop ends with [devices],
    leaving the trace [tr]. *)
Definition selects (h : Host) (deviceCandidates devices : list string)
    (tr : list Call) : Prop :=
  exists inUse tr0,
    exsmount.mountedDevices h [] = (Returns inUse, tr0) /\
    exsmount.selectDevices deviceCandidates inUse deviceCandidates [] h tr0
    = (Returns (inr devices), tr).

(** [os.Stat] of [path] reports that it does not exist. *)
Definition absent (h : Host) (path : string) : Prop :=
  forall t, exists err,
    h t (os_Stat path) = Some err /\ os_IsNotExist err = true.

(** [os.Stat] of [path] succeeds or fails otherwise than by "does not
    exist". *)
Definition taken (h : Host) (path : string) : Prop :=
  forall t, match h t (os_Stat path) with
            | Some err => os_IsNotExist err = false
            | None => True
            end.

(** [mkfs] of [dev] fails, with "is mounted" in its standard error,
    whenever it is run. *)
Definition already_mounted (h : Host) (dev : string) : Prop :=
  forall t, run_err (h t (cmd_Run "mkfs" ["-t"; "ext4"; dev])) <> None /\
            Strings.Contains (stderr (h t (cmd_Run "mkfs" ["-t"; "ext4"; dev])))
              "is mounted" = true.

(** The same, of one call: [os.Stat] of [path], made after the calls [t],
    reports that the path does not exist. *)
Definition absent_at (h : Host) (t : list Call) (path : string) : Prop :=
  exists err, h t (os_Stat path) = Some err /\ os_IsNotExist err = true.

(** [os.Stat] of [path], made after the calls [t], succeeds or fails
    otherwise than by "does not exist". *)
Definition taken_at (h : Host) (t : list Call) (path : string) : Prop :=
  match h t (os_Stat path) with
  | Some err => os_IsNotExist err = false
  | None => True
  end.

(** After the calls [t], the directory [path] exists or can be made. *)
Definition dir_available_at (h : Host) (t : list Call) (path : string)
    : Prop :=
  match h t (os_Stat path) with
  | None => True
  | Some err =>
      os_IsNotExist err = true /\
      h (t ++ [os_Stat path]) (os_MkdirAll path) = None
  end.

(** The looks at [/dev/md<i>], [/dev/md<i+1>], ..., [n] of them. *)
Definition raid_scan_from (i n : nat) : list Call :=
  map (fun j => os_Stat (exsmount.raidPath (Z.of_nat j))) (seq i n).

Definition raid_scan (n : nat) : list Call := raid_scan_from 0 n.

(** In the scan for an array device that begins after the calls [t],
    [/dev/md<n>] is the first path reported not to exist: each answer is
    the one given when the scan looks at the path. *)
Definition first_free_array (h : Host) (t : list Call) (n : nat) : Prop :=
  (n < 20)%nat /\
  (forall j, (j < n)%nat ->
     taken_at h (t ++ raid_scan j) (exsmount.raidPath (Z.of_nat j))) /\
  absent_at h (t ++ raid_scan n) (exsmount.raidPath (Z.of_nat n)).

(** The call [c], made after the calls [t], fails: a command ends with an
    error, [os.Stat] gives an error other than "does not exist", or
    [os.MkdirAll] gives an error. *)
Definition fails (h : Host) (t : list Call) (c : Call) : Prop :=
  match c return Resp c -> Prop with
  | cmd_Run _ _ => fun r => run_err r <> None
  | os_Stat _ => fun r => exists err, r = Some err /\ os_IsNotExist err = false
  | os_MkdirAll _ => fun r => r <> None
  | _ => fun _ => False
  end (h t c).

Definition is_probe (c : Call) : bool :=
  match c with
  | session_NewSession | ec2_DescribeVolumes _ _ => true
  | _ => false
  end.

(** The calls of the loop over the regions [rs] when no description
    succeeds: a session and a description of the volume, region after
    region. *)
Definition probes_of (vid : string) (rs : list string) : list Call :=
  concat (map (fun region =>
                 [session_NewSession; ec2_DescribeVolumes region vid]) rs).


Definition is_poll_sleep (c : Call) : bool :=
  match c with time_Sleep s => s =? 1 | _ => false end.
Definition is_attach (c : Call) : bool :=
  match c with ec2_AttachVolume _ _ _ _ => true | _ => false end.

Definition shr_exact (mrs : shr_record) : Prop :=
  shr_r mrs = false /\ shr_s mrs = false.

(** [b] is [a] shifted right by [n] bits. *)
Definition shifted (n : Z) (a b : shr_record) : Prop :=
  0 <= shr_m b /\
  shr_m b = shr_m a / 2 ^ n /\
  (shr_exact a -> shr_m a mod 2 ^ n = 0 -> shr_exact b).

(** Every call that the computation makes satisfies [P]. *)
Definition emits (P : Call -> Prop) {A} (m : Eff A) : Prop :=
  forall h tr, exists ext, snd (m h tr) = tr ++ ext /\ Forall P ext.

(** A call that creates a volume asks for the size [size]. *)
Definition sized (size : Z) (c : Call) : Prop :=
  match c with
  | ec2_CreateVolume _ _ s _ _ _ => s = size
  | _ => True
  end.

(** ** Vocabulary of the further properties *)

(** The name that [mountedDevices] adds for a mounted device [dev]: [dev]
    without its trailing digits (lines 92-100). *)
Definition strippedName (dev : string) : string :=
  exsmount.strip_digits (String.length dev) (Strings.len dev - 1) dev.

(** Every character of [s] is a decimal digit. *)
Fixpoint all_digits (s : string) : bool :=
  match s with
  | EmptyString => true
  | String c s' => Strings.is_digit c && all_digits s'
  end.

(** The last character of [s], when it has one. *)
Fixpoint last_char (s : string) : option ascii :=
  match s with
  | EmptyString => None
  | String c EmptyString => Some c
  | String _ s' => last_char s'
  end.

(** The mount table [lines] names [k]: [k] is the device of a line (its
    first field) or that device without its trailing digits. *)
Definition named_in (lines : list string) (k : string) : Prop :=
  exists line dev,
    In line lines /\ Strings.first_field line = Some dev /\
    (k = dev \/ k = strippedName dev).

(** Every call that the computation makes satisfies [P], and a value that
    it returns satisfies [Q]. *)
Definition yields (P : Call -> Prop) {A} (Q : A -> Prop) (m : Eff A) : Prop :=
  forall h tr, exists ext,
    snd (m h tr) = tr ++ ext /\ Forall P ext /\
    forall a, fst (m h tr) = Returns a -> Q a.

(** One of [/dev/md0] to [/dev/md19]. *)
Definition is_raidPath (dev : string) : Prop :=
  exists i, 0 <= i < 20 /\ dev = exsmount.raidPath i.

(** The calls of [MountLocal] when [ok] holds of the devices it may use:
    it reads the mount table, looks at paths, makes directories and looks
    for [mdadm]; it formats, as ext4, and mounts only a device that is [ok]
    or an array; it assembles an array only of devices that are [ok]. *)
Definition local_call (ok : string -> Prop) (c : Call) : Prop :=
  match c with
  | cmd_Run name args =>
      (name = "mkfs" /\
       exists dev, args = ["-t"; "ext4"; dev] /\ (ok dev \/ is_raidPath dev))
      \/
      (name = "mount" /\
       exists dev dir,
         args = ["-o"; "noatime"; dev; dir] /\ (ok dev \/ is_raidPath dev))
      \/
      (name = "mdadm" /\
       exists raidDev devices,
         args = exsmount.mdadm_args raidDev devices /\
         is_raidPath raidDev /\ Forall ok devices)
  | os_Stat _ | os_MkdirAll _ | read_proc_mounts | exec_LookPath _ => True
  | _ => False
  end.

(** The mount point of the device of index [i] on the branch of
    [MountLocal] without an array: the base for the first device, the base
    with [_i] appended for each later one. *)
Definition mount_point (mountBase : string) (i : nat) : string :=
  match i with
  | O => mountBase
  | S _ => mountBase +:+ "_" +:+ Strings.itoa (Z.of_nat i)
  end.

Definition mkfs_call (dev : string) : Call :=
  cmd_Run "mkfs" ["-t"; "ext4"; dev].
Definition mount_call (dev dir : string) : Call :=
  cmd_Run "mount" ["-o"; "noatime"; dev; dir].

Definition is_describe (c : Call) : bool :=
  match c with ec2_DescribeVolumes _ _ => true | _ => false end.

(** The seconds that the calls of a trace sleep, in all. *)
Fixpoint slept (tr : list Call) : Z :=
  match tr with
  | [] => 0
  | time_Sleep s :: tr' => s + slept tr'
  | _ :: tr' => slept tr'
  end.

(** The calls of a wait for the volume [vid] in [region]: describing that
    volume, and sleeping. *)
Definition wait_call (region vid : string) (c : Call) : Prop :=
  match c with
  | ec2_DescribeVolumes r v => r = region /\ v = vid
  | time_Sleep _ => True
  | _ => False
  end.

(** The seconds slept by [fuel] rounds of the loop of
    [WaitForVolumeStatus] from round [i] on that do not find the status. *)
Fixpoint wait_budget (fuel : nat) (i : Z) : Z :=
  match fuel with
  | O => 0
  | S fuel' => 4 + (if 10 <? i then i else 0) + wait_budget fuel' (i + 1)
  end.

(** The volume [vid] in [region] is described without error, in a state
    other than [status], whenever it is described. *)
Definition stuck (h : Host) (region vid status : string) : Prop :=
  forall t, exists x more,
    h t (ec2_DescribeVolumes region vid)
    = {| drsp := Some (x :: more); derr := None |} /\
    x <> status.

(** A device name at which a volume is attached: [/dev/sd] or [/dev/xvd]
    and one of the letters b to z. *)
Definition is_attach_device (dev : string) : Prop :=
  exists prefix c,
    (prefix = "/dev/sd" \/ prefix = "/dev/xvd") /\
    In c (list_ascii_of_string "bcdefghijklmnopqrstuvwxyz") /\
    dev = prefix +:+ String c EmptyString.

(** The calls of [CreateAttach] for the request [cli]. *)
Definition attach_call (cli : exsmount.Args) (c : Call) : Prop :=
  match c with
  | http_Get_identity | session_NewSession | fmt_Println _ | time_Sleep _
  | rand_Intn _ | rand_Int63n _ | ec2_DescribeVolumes _ _ => True
  | os_Stat path => path = exsmount.MountPoint cli \/ is_attach_device path
  | os_MkdirAll path => path = exsmount.MountPoint cli
  | ec2_CreateVolume _ _ _ typ iops _ =>
      typ = exsmount.VolumeType cli /\
      match iops with Some _ => typ = "io1" | None => typ <> "io1" end
  | ec2_AttachVolume _ _ _ dev => is_attach_device dev
  | ec2_ModifyInstanceAttribute _ _ dev _ deleteOnTermination =>
      exsmount.Keep cli = false /\ deleteOnTermination = true /\
      is_attach_device dev
  | _ => False
  end.

(** The state of the attach loops: when a volume is attached, it is at
    an attach device. *)
Definition attached_at_device (st : exsmount.AttachState) : Prop :=
  (exsmount.st_attached st = true ->
   is_attach_device (exsmount.st_attachDevice st)) /\
  Forall is_attach_device (exsmount.st_devices st).

(** What a round of the attach loops leaves: an early return without
    devices, or a state as above. *)
Definition round_ok (r : list string * option error + exsmount.AttachState)
    : Prop :=
  match r with
  | inl early => fst early = []
  | inr st => attached_at_device st
  end.

(** What the loop over the volumes leaves: an early return without
    devices, or attach devices. *)
Definition volumes_ok
    (r : list string * option error + list string * list string) : Prop :=
  match r with
  | inl early => fst early = []
  | inr p => Forall is_attach_device (fst p)
  end.

(** The calls of [Main] for the request [cli]: those of [CreateAttach],
    those of [MountLocal] on attach devices, and setting the read-ahead of
    a device, for the volume types st1 and sc1 only. *)
Definition main_call (cli : exsmount.Args) (c : Call) : Prop :=
  attach_call cli c \/
  local_call is_attach_device c \/
  ((exsmount.VolumeType cli = "st1" \/ exsmount.VolumeType cli = "sc1") /\
   exists d, c = cmd_Run "blockdev" ["--setra"; "2048"; d]).

(** The calls with which [DetachAndDelete] looks for the volume [vid]:
    making a session, and describing the volume in one of the regions. *)
Definition probe_call (vid : string) (c : Call) : Prop :=
  match c with
  | session_NewSession => True
  | ec2_DescribeVolumes region v => In region ddv.regions /\ v = vid
  | _ => False
  end.

(** ** Further example hosts *)

Module Examples_further.
Import Hosts.

(** Two devices exist, [mdadm] is installed, and every one of [/dev/md0]
    to [/dev/md19] exists already. *)
Definition arrays_exhausted : Host :=
  host (fun _ path =>
          if exsmount.contains ["/dev/xvdb"; "/dev/xvdc"] path then None
          else if Strings.Contains path "/dev/md" then None
          else Some ENOENT)
    (Lines [] false) found succeed volumes_follow.

(** A volume that stays in the state [creating]. *)
Definition never_available : Host :=
  host (only []) (Lines [] false) found succeed
    (fun _ _ _ => {| drsp := Some ["creating"]; derr := None |}).

(** [/dev/xvdb] and [/dev/xvdd] exist, [/dev/xvdc] does not. *)
Definition gap : Host :=
  host (only ["/dev/xvdb"; "/dev/xvdd"]) (Lines [] false) found succeed
    volumes_follow.

(** [dev] is among the arguments of a [mount] command of the trace. *)
Definition mounted_in (tr : list Call) (dev : string) : bool :=
  existsb (fun c => match c with
                    | cmd_Run name args =>
                        String.eqb name "mount" && existsb (String.eqb dev) args
                    | _ => false
                    end) tr.

(** A host that changes with the calls made. Three devices exist and
    [/dev/md0] is taken; once [mdadm] has run, the array [/dev/md1] exists;
    once a device has been mounted, [mkfs] refuses it. *)
Definition live (lookPath : string -> option foreign_error) : Host :=
  fun tr c =>
    match c as c0 return Resp c0 with
    | cmd_Run name args =>
        if String.eqb name "mkfs" && existsb (mounted_in tr) args
        then failed "exit status 1"
               "device is mounted; will not make a filesystem here!"
        else done
    | c0 =>
        host (fun tr path =>
                if exsmount.contains
                     ["/dev/xvdb"; "/dev/xvdc"; "/dev/xvdd"; "/dev/md0"]
                     path
                then None
                else if String.eqb path "/dev/md1" && existsb is_mdadm tr
                then None
                else Some ENOENT)
          (Lines [] false) lookPath succeed volumes_follow tr c0
    end.

(** As [live] with [mdadm] installed, but [mkfs] fails on the array: it is
    write-protected. The array [/dev/md1] exists once [mdadm] has run. *)
Definition array_refused : Host :=
  fun tr c =>
    match c as c0 return Resp c0 with
    | cmd_Run name args =>
        if String.eqb name "mkfs"
        then failed "exit status 1" "mkfs.ext4: Read-only file system"
        else done
    | c0 => live found tr c0
    end.

End Examples_further.

(** * Properties *)

(** ** Strings and lists *)

Lemma contains_In (haystack : list string) (needle : string) :
  exsmount.contains haystack needle = true <-> In needle haystack.
Proof.
  induction haystack as [|h t IH]; simpl.
  - split; [discriminate | tauto].
  - destruct (String.eqb_spec h needle) as [->|Hne].
    + split; auto.
    + rewrite IH. split; [auto | intros [E|H]; [congruence | exact H]].
Qed.

Lemma contains_not_In (haystack : list string) (needle : string) :
  exsmount.contains haystack needle = false <-> ~ In needle haystack.
Proof.
  rewrite <- contains_In. destruct (exsmount.contains haystack needle); split;
    congruence.
Qed.

Lemma init_append_char (s : string) (c : ascii) :
  Strings.init (s +:+ String c EmptyString) = s.
Proof.
  induction s as [|a s IH]; [reflexivity|].
  destruct s as [|b s]; [reflexivity|].
  simpl in *. now rewrite IH.
Qed.

Lemma slice_to_last_append_char (s : string) (c : ascii) :
  Strings.slice_to_last (s +:+ String c EmptyString) = Some s.
Proof.
  unfold Strings.slice_to_last.
  destruct s as [|a s]; [reflexivity|].
  cbn [String.append]. f_equal. exact (init_append_char (String a s) c).
Qed.

Lemma slice_to_last_nonempty (s : string) :
  s <> EmptyString -> Strings.slice_to_last s = Some (Strings.init s).
Proof. destruct s; [congruence | reflexivity]. Qed.

Lemma substring_length (s : string) :
  forall n m, (n + m <= String.length s)%nat ->
              String.length (String.substring n m s) = m.
Proof.
  induction s as [|c s IH]; intros [|n] [|m] Hlen; cbn in *; try lia.
  - rewrite IH; lia.
  - apply IH. lia.
  - apply IH. lia.
Qed.

(** A rune takes at least one byte and no more bytes than there are. *)
Lemma DecodeRuneInString_width (s : string) :
  s <> EmptyString ->
  (1 <= snd (Strings.DecodeRuneInString s) <= String.length s)%nat.
Proof.
  destruct s as [|c0 s]; [congruence|]. intros _.
  unfold Strings.DecodeRuneInString.
  repeat match goal with
         | |- context [if ?b then _ else _] => destruct b
         | |- context [match ?x with EmptyString => _ | String _ _ => _ end] =>
             destruct x
         end; cbn [snd String.length]; lia.
Qed.

(** The fuel of [Strings.Fields] is enough: with as much fuel as the string
    has bytes, the loop over the runes ends at the end of the string. *)
Lemma fields_from_fuel (fuel : nat) :
  forall fuel' s field,
    (String.length s <= fuel)%nat -> (String.length s <= fuel')%nat ->
    Strings.fields_from fuel s field = Strings.fields_from fuel' s field.
Proof.
  induction fuel as [|fuel IH]; intros fuel' s field Hfuel Hfuel'.
  - destruct s; [|cbn in Hfuel; lia]. now destruct fuel'.
  - destruct fuel' as [|fuel'].
    { destruct s; [reflexivity | cbn in Hfuel'; lia]. }
    destruct s as [|c s]; [reflexivity|].
    cbn [Strings.fields_from].
    pose proof (DecodeRuneInString_width (String c s) ltac:(discriminate))
      as Hw.
    destruct (Strings.DecodeRuneInString (String c s)) as [r w].
    cbn [snd] in Hw.
    assert (Hrest : String.length
                      (String.substring w (String.length (String c s) - w)
                         (String c s))
                    = (String.length (String c s) - w)%nat)
      by (apply substring_length; lia).
    destruct (Strings.IsSpace r); [destruct field; [f_equal|]|];
      apply IH; lia.
Qed.

Lemma calls_app (p : Call -> bool) (tr1 tr2 : list Call) :
  calls p (tr1 ++ tr2) = calls p tr1 ++ calls p tr2.
Proof. apply List.filter_app. Qed.

Lemma calls_stats (p : Call -> bool) (paths : list string) :
  (forall path, p (os_Stat path) = false) ->
  calls p (map os_Stat paths) = [].
Proof.
  intros Hp. induction paths as [|a l IH]; [reflexivity|].
  simpl. rewrite Hp. exact IH.
Qed.

(** ** The monad *)

Lemma bind_returns {A B} (m : Eff A) (k : A -> Eff B) h tr a tr' :
  m h tr = (Returns a, tr') -> eff_bind m k h tr = k a h tr'.
Proof. intros H. unfold eff_bind. rewrite H. reflexivity. Qed.

Lemma call_run (c : Call) h tr :
  call c h tr = (Returns (h tr c), tr ++ [c]).
Proof. reflexivity. Qed.

(** ** Selection of the devices *)

Section Selection.

Variable h : Host.
Variable deviceCandidates : list string.
Variable inUse : gmap string bool.

(** What the selection loop appends to [devices] are candidates still to
    be scanned that are not in use and are not one character longer than
    another candidate; and it makes no call but [os.Stat]. *)
Lemma selectDevices_inv (rest devices : list string) tr o tr' :
  exsmount.selectDevices deviceCandidates inUse rest devices h tr = (o, tr') ->
  (exists paths, tr' = tr ++ map os_Stat paths) /\
  (forall out, o = Returns (inr out) ->
     exists more, out = devices ++ more /\
       forall d, In d more ->
         In d rest /\ inUse !! d = None /\
         ~ In (Strings.init d) deviceCandidates).
Proof.
  revert devices tr. induction rest as [|dev rest' IH]; intros devices tr.
  - simpl. unfold eff_ret. intros [= <- <-]. split.
    + exists []. simpl. now rewrite app_nil_r.
    + intros out [= <-]. exists []. rewrite app_nil_r. split; [reflexivity|].
      intros d [].
  - cbn [exsmount.selectDevices].
    destruct (Strings.slice_to_last dev) as [sub|] eqn:Hsub.
    2:{ unfold panic. intros [= <- <-]. split.
        - exists []. simpl. now rewrite app_nil_r.
        - intros out [=]. }
    assert (Hinit : sub = Strings.init dev).
    { destruct dev; [discriminate|]. now injection Hsub as <-. }
    destruct (exsmount.contains deviceCandidates sub) eqn:Hc.
    { intros H. apply IH in H as [Htr Hout]. split; [exact Htr|].
      intros out Ho. destruct (Hout out Ho) as (more & -> & Hm).
      exists more. split; [reflexivity|]. intros d Hd.
      destruct (Hm d Hd) as (? & ? & ?). simpl. auto. }
    unfold eff_bind at 1. rewrite call_run.
    destruct (h tr (os_Stat dev)) as [err|] eqn:Hst.
    { destruct (os_IsNotExist err); unfold eff_ret; intros [= <- <-];
        (split; [exists [dev]; reflexivity|]).
      - intros out [= <-]. exists []. rewrite app_nil_r.
        split; [reflexivity|]. intros d [].
      - intros out [=]. }
    destruct (inUse !! dev) eqn:Hu.
    { intros H. apply IH in H as [[paths ->] Hout]. split.
      - exists (dev :: paths). now rewrite <- app_assoc.
      - intros out Ho. destruct (Hout out Ho) as (more & -> & Hm).
        exists more. split; [reflexivity|]. intros d Hd.
        destruct (Hm d Hd) as (? & ? & ?). simpl. auto. }
    intros H. apply IH in H as [[paths ->] Hout]. split.
    + exists (dev :: paths). now rewrite <- app_assoc.
    + intros out Ho. destruct (Hout out Ho) as (more & -> & Hm).
      exists (dev :: more). split; [now rewrite <- app_assoc|].
      intros d [<-|Hd].
      * split; [now left|]. split; [exact Hu|].
        rewrite <- Hinit. now apply contains_not_In.
      * destruct (Hm d Hd) as (? & ? & ?). simpl. auto.
Qed.

(** A candidate that the scan reaches, that exists, is not in use and is
    not one character longer than another candidate, is selected. *)
Lemma selectDevices_reaches (pre post devices : list string) (base : string)
    tr out tr' :
  (forall d, In d pre ->
     d <> EmptyString /\
     (In (Strings.init d) deviceCandidates \/
      forall t, h t (os_Stat d) = None)) ->
  base <> EmptyString ->
  ~ In (Strings.init base) deviceCandidates ->
  (forall t, h t (os_Stat base) = None) ->
  inUse !! base = None ->
  exsmount.selectDevices deviceCandidates inUse (pre ++ base :: post)
    devices h tr = (Returns (inr out), tr') ->
  In base out.
Proof.
  intros Hpre Hne Hnot Hst Hu. revert devices tr.
  induction pre as [|d pre' IH]; intros devices tr.
  - cbn [app exsmount.selectDevices].
    rewrite (slice_to_last_nonempty _ Hne).
    apply contains_not_In in Hnot. rewrite Hnot.
    unfold eff_bind at 1. rewrite call_run, Hst, Hu.
    intros H. apply selectDevices_inv in H as [_ Hout].
    destruct (Hout out eq_refl) as (more & -> & _).
    rewrite in_app_iff. left. rewrite in_app_iff. right. now left.
  - cbn [app exsmount.selectDevices].
    destruct (Hpre d (or_introl eq_refl)) as [Hd Hcase].
    rewrite (slice_to_last_nonempty _ Hd).
    assert (IH' := IH (fun x Hx => Hpre x (or_intror Hx))).
    destruct (exsmount.contains deviceCandidates (Strings.init d)) eqn:Hc.
    { apply IH'. }
    destruct Hcase as [Hin|Hex].
    { apply contains_In in Hin. congruence. }
    unfold eff_bind at 1. rewrite call_run, Hex.
    destruct (inUse !! d); apply IH'.
Qed.

End Selection.

(** ** Reading the mount table *)

Lemma mountedDevices_trace h tr o tr' :
  exsmount.mountedDevices h tr = (o, tr') -> tr' = tr ++ [read_proc_mounts].
Proof.
  unfold exsmount.mountedDevices, eff_bind. rewrite call_run.
  destruct (h tr read_proc_mounts) as [|lines read_error].
  - unfold eff_ret. now intros [= _ <-].
  - destruct (exsmount.mountedDevices_lines lines ∅) as [devices|msg|msg].
    + destruct read_error; unfold panic, eff_ret; now intros [= _ <-].
    + unfold panic. now intros [= _ <-].
    + unfold panic. now intros [= _ <-].
Qed.

(** ** C2: a candidate and its partition *)

(** The scan of the candidates ends with a list of devices when no
    candidate is the empty path and no [os.Stat] of a candidate that is not
    passed over fails otherwise than by "does not exist". *)
Lemma selectDevices_ends (h : Host) (deviceCandidates : list string)
    (inUse : gmap string bool) (rest : list string) :
  (forall d, In d rest ->
     d <> EmptyString /\
     (In (Strings.init d) deviceCandidates \/
      forall t, match h t (os_Stat d) with
                | Some err => os_IsNotExist err = true
                | None => True
                end)) ->
  forall devices tr, exists out tr',
    exsmount.selectDevices deviceCandidates inUse rest devices h tr
    = (Returns (inr out), tr').
Proof.
  induction rest as [|d rest IH]; intros Hall devices tr.
  - eexists _, _. reflexivity.
  - cbn [exsmount.selectDevices].
    destruct (Hall d (or_introl eq_refl)) as [Hd Hcase].
    rewrite (slice_to_last_nonempty _ Hd).
    assert (IH' := IH (fun x Hx => Hall x (or_intror Hx))).
    destruct (exsmount.contains deviceCandidates (Strings.init d)) eqn:Hc;
      [apply IH'|].
    destruct Hcase as [Hin|Hst].
    { apply contains_In in Hin. congruence. }
    unfold eff_bind at 1. rewrite call_run. specialize (Hst tr).
    destruct (h tr (os_Stat d)) as [err|].
    + rewrite Hst. eexists _, _. reflexivity.
    + destruct (inUse !! d); apply IH'.
Qed.

(** C2 (as amended). When the candidate list holds a path [base] and the
    path [base] followed by one more character, and the scan of the
    candidates ends with a list of devices, and not with an error: the
    longer path is not among the devices selected; and [base] is selected
    when the scan reaches it (every candidate before it is a non-empty path
    that is skipped as one character longer than another candidate, or
    exists) and it is usable (it is a non-empty path, exists, is not in
    use, and is not itself one character longer than another candidate).
    The scan does end with a list of devices when no candidate is the empty
    path and no [os.Stat] of a candidate fails otherwise than by "does not
    exist". *)
Theorem alias_skipped_base_selected (h : Host) (inUse : gmap string bool)
    (pre post : list string) (base : string) (c : ascii) (tr : list Call) :
  In (base +:+ String c EmptyString) (pre ++ base :: post) ->
  (forall out tr',
     exsmount.selectDevices (pre ++ base :: post) inUse (pre ++ base :: post)
       [] h tr = (Returns (inr out), tr') ->
     ~ In (base +:+ String c EmptyString) out /\
     ((forall d, In d pre ->
         d <> EmptyString /\
         (In (Strings.init d) (pre ++ base :: post) \/
          forall t, h t (os_Stat d) = None)) ->
      base <> EmptyString ->
      ~ In (Strings.init base) (pre ++ base :: post) ->
      (forall t, h t (os_Stat base) = None) ->
      inUse !! base = None ->
      In base out))
  /\
  ((forall d, In d (pre ++ base :: post) ->
      d <> EmptyString /\
      (In (Strings.init d) (pre ++ base :: post) \/
       forall t, match h t (os_Stat d) with
                 | Some err => os_IsNotExist err = true
                 | None => True
                 end)) ->
   exists out tr',
     exsmount.selectDevices (pre ++ base :: post) inUse (pre ++ base :: post)
       [] h tr = (Returns (inr out), tr')).
Proof.
  intros _. split.
  - intros out tr' Hsel. split.
    + destruct (selectDevices_inv _ _ _ _ _ _ _ _ Hsel) as [_ Hout].
      destruct (Hout out eq_refl) as (more & -> & Hm).
      intros Hin. simpl in Hin. destruct (Hm _ Hin) as (_ & _ & Hnot).
      apply Hnot. rewrite init_append_char.
      apply in_or_app. right. now left.
    + intros Hpre Hne Hnot Hst Hu.
      now apply (selectDevices_reaches h (pre ++ base :: post) inUse pre post
                   [] base tr out tr').
  - intros Hall. now apply selectDevices_ends.
Qed.

Lemma alias_skipped_base_selected_witness :
  exists out tr',
    exsmount.selectDevices ["/dev/xvdb"; "/dev/xvdb1"] ∅
      ["/dev/xvdb"; "/dev/xvdb1"] [] Examples_selection.disk_and_partition []
    = (Returns (inr out), tr') /\
    ~ In "/dev/xvdb1" out /\ In "/dev/xvdb" out.
Proof.
  destruct (alias_skipped_base_selected Examples_selection.disk_and_partition
              ∅ [] ["/dev/xvdb1"] "/dev/xvdb" "1" []) as [Hsel Hends].
  - simpl. right. left. reflexivity.
  - destruct Hends as (out & tr' & Hrun).
    + intros d [<-|[<-|[]]]; (split; [discriminate|]).
      * right. intros t. vm_compute. exact I.
      * left. simpl. now left.
    + exists out, tr'. split; [exact Hrun|].
      destruct (Hsel out tr' Hrun) as [Hno Hyes]. split; [exact Hno|].
      apply Hyes.
      * intros d [].
      * discriminate.
      * simpl. intros [H|[H|[]]]; discriminate H.
      * reflexivity.
      * reflexivity.
Defined.

(** C2 (as stated) fails on two inputs. With [/dev/xvdb] and [/dev/xvdb12]
    offered, the partition is selected and striped along with its disk.
    With [/dev/xvdb] and [/dev/xvdb1] offered while the partition is
    mounted, the disk is not selected. *)
Lemma alias_with_two_digits_selected_base_in_use_dropped :
  run (exsmount.MountLocal ["/dev/xvdb"; "/dev/xvdb12"] "/mnt/x")
      Examples_selection.disk_and_partition_12
  = (Returns (["/dev/md0"], None),
     [read_proc_mounts; os_Stat "/dev/xvdb"; os_Stat "/dev/xvdb12";
      exec_LookPath "mdadm"; os_Stat "/dev/md0";
      cmd_Run "mdadm" ["--create"; "--verbose"; "/dev/md0"; "-R";
                       "--level=stripe"; "--raid-devices=2";
                       "/dev/xvdb"; "/dev/xvdb12"];
      cmd_Run "mkfs" ["-t"; "ext4"; "/dev/md0"];
      os_Stat "/mnt/x"; os_MkdirAll "/mnt/x";
      cmd_Run "mount" ["-o"; "noatime"; "/dev/md0"; "/mnt/x"]])
  /\
  run (exsmount.MountLocal ["/dev/xvdb"; "/dev/xvdb1"] "/mnt/x")
      Examples_selection.partition_mounted
  = (Returns ([], Some (Errorf "exsmount: no unused local storage found")),
     [read_proc_mounts; os_Stat "/dev/xvdb"]).
Proof. split; vm_compute; reflexivity. Qed.

(** ** C3: every candidate is in use *)

Section AllInUse.

Variable h : Host.
Variable deviceCandidates : list string.
Variable inUse : gmap string bool.

Hypothesis paths_not_empty :
  forall d, In d deviceCandidates -> d <> EmptyString.
Hypothesis in_use_or_absent :
  forall d t, In d deviceCandidates ->
    match h t (os_Stat d) with
    | None => is_Some (inUse !! d)
    | Some err => os_IsNotExist err = true
    end.

Lemma selectDevices_all_in_use (rest : list string) tr :
  incl rest deviceCandidates ->
  exists paths,
    exsmount.selectDevices deviceCandidates inUse rest [] h tr
    = (Returns (inr []), tr ++ map os_Stat paths).
Proof.
  revert tr. induction rest as [|dev rest' IH]; intros tr Hincl.
  - exists []. simpl. unfold eff_ret. now rewrite app_nil_r.
  - assert (Hdev : In dev deviceCandidates) by (apply Hincl; now left).
    assert (Hrest : incl rest' deviceCandidates).
    { intros x Hx. apply Hincl. now right. }
    cbn [exsmount.selectDevices].
    rewrite (slice_to_last_nonempty _ (paths_not_empty _ Hdev)).
    destruct (exsmount.contains deviceCandidates (Strings.init dev)).
    { now apply IH. }
    unfold eff_bind at 1. rewrite call_run.
    pose proof (in_use_or_absent dev tr Hdev) as Hst.
    destruct (h tr (os_Stat dev)) as [err|].
    + rewrite Hst. exists [dev]. reflexivity.
    + destruct Hst as [b ->].
      destruct (IH (tr ++ [os_Stat dev]) Hrest) as [paths ->].
      exists (dev :: paths). now rewrite <- app_assoc.
Qed.

End AllInUse.

(** C3 (as amended). When the mount table can be read, no candidate is the
    empty path, [os.Stat] of a candidate either succeeds or reports that
    the path does not exist, and every candidate that exists is in the
    in-use set read from the mount table, then [MountLocal] returns the
    error "no unused local storage found" and runs neither [mkfs] nor
    [mount]. *)
Theorem all_in_use_no_storage (h : Host) (deviceCandidates : list string)
    (mountBase : string) (inUse : gmap string bool) (tr0 : list Call) :
  exsmount.mountedDevices h [] = (Returns inUse, tr0) ->
  (forall d, In d deviceCandidates -> d <> EmptyString) ->
  (forall d t, In d deviceCandidates ->
     match h t (os_Stat d) with
     | None => is_Some (inUse !! d)
     | Some err => os_IsNotExist err = true
     end) ->
  exists tr,
    run (exsmount.MountLocal deviceCandidates mountBase) h
    = (Returns ([], Some (Errorf "exsmount: no unused local storage found")),
       tr)
    /\ calls is_mkfs tr = [] /\ calls is_mount tr = [].
Proof.
  intros Hm Hne Hst.
  destruct (selectDevices_all_in_use h deviceCandidates inUse Hne Hst
              deviceCandidates tr0 (incl_refl _)) as [paths Hsel].
  exists (tr0 ++ map os_Stat paths). split.
  - unfold run, exsmount.MountLocal.
    rewrite (bind_returns _ _ _ _ _ _ Hm).
    rewrite (bind_returns _ _ _ _ _ _ Hsel). reflexivity.
  - apply mountedDevices_trace in Hm. subst tr0. simpl.
    split; apply calls_stats; reflexivity.
Qed.

Lemma all_in_use_no_storage_witness :
  exists tr,
    run (exsmount.MountLocal ["/dev/xvdb"; "/dev/xvdc"; "/dev/xvdd"] "/mnt/x")
        Examples_selection.both_mounted
    = (Returns ([], Some (Errorf "exsmount: no unused local storage found")),
       tr)
    /\ calls is_mkfs tr = [] /\ calls is_mount tr = [].
Proof.
  apply (all_in_use_no_storage Examples_selection.both_mounted
           ["/dev/xvdb"; "/dev/xvdc"; "/dev/xvdd"] "/mnt/x"
           (<["/dev/xvdc" := true]> (<["/dev/xvdc" := true]>
             (<["/dev/xvdb" := true]> (<["/dev/xvdb" := true]> ∅))))
           [read_proc_mounts]).
  - reflexivity.
  - intros d [<-|[<-|[<-|[]]]]; discriminate.
  - intros d t [<-|[<-|[<-|[]]]]; vm_compute; eauto.
Defined.

(** C3 (as stated) fails when [os.Stat] of a candidate fails with an error
    other than "does not exist": the candidate is in the in-use set, and
    [MountLocal] returns the error of [os.Stat]. *)
Lemma stat_error_is_returned :
  (exists inUse tr,
     exsmount.mountedDevices Examples_selection.stat_denied []
     = (Returns inUse, tr) /\ inUse !! "/dev/xvdb" = Some true)
  /\
  run (exsmount.MountLocal ["/dev/xvdb"] "/mnt/x")
      Examples_selection.stat_denied
  = (Returns ([], Some (Foreign Hosts.EACCES)),
     [read_proc_mounts; os_Stat "/dev/xvdb"]).
Proof.
  split.
  - eexists _, _. split; [reflexivity | vm_compute; reflexivity].
  - vm_compute. reflexivity.
Qed.

(** ** C4: the striped array *)

Lemma selects_trace h deviceCandidates devices tr :
  selects h deviceCandidates devices tr ->
  exists paths, tr = read_proc_mounts :: map os_Stat paths.
Proof.
  intros (inUse & tr0 & Hm & Hsel).
  apply mountedDevices_trace in Hm. subst tr0.
  apply selectDevices_inv in Hsel as [[paths ->] _].
  now exists paths.
Qed.

Lemma map_seq_from_0 {A} (f : nat -> A) (n : nat) :
  map f (seq 0 (S n)) = f O :: map (fun j => f (S j)) (seq 0 n).
Proof.
  cbn [seq map]. f_equal.
  rewrite <- List.seq_shift. now rewrite List.map_map.
Qed.

Lemma raid_scan_from_S (i n : nat) :
  raid_scan_from i (S n)
  = os_Stat (exsmount.raidPath (Z.of_nat i)) :: raid_scan_from (S i) n.
Proof. reflexivity. Qed.

(** The scan for an array device returns the first path that is reported
    not to exist when the scan looks at it. *)
Lemma findRaidDev_finds h (n : nat) :
  forall (fuel i : nat) tr,
    (n < fuel)%nat ->
    (forall j, (j < n)%nat ->
       taken_at h (tr ++ raid_scan_from i j)
         (exsmount.raidPath (Z.of_nat (i + j)))) ->
    absent_at h (tr ++ raid_scan_from i n)
      (exsmount.raidPath (Z.of_nat (i + n))) ->
    exsmount.findRaidDev fuel (Z.of_nat i) h tr
    = (Returns (exsmount.raidPath (Z.of_nat (i + n))),
       tr ++ raid_scan_from i (S n)).
Proof.
  induction n as [|n IH]; intros fuel i tr Hfuel Htaken Hfree.
  - destruct fuel as [|fuel]; [lia|].
    cbn [exsmount.findRaidDev]. unfold eff_bind. rewrite call_run.
    rewrite Nat.add_0_r in *. unfold raid_scan_from in Hfree.
    cbn [seq map] in Hfree. rewrite app_nil_r in Hfree.
    destruct Hfree as (err & -> & ->). reflexivity.
  - destruct fuel as [|fuel]; [lia|].
    cbn [exsmount.findRaidDev]. unfold eff_bind at 1. rewrite call_run.
    pose proof (Htaken O ltac:(lia)) as H0.
    rewrite Nat.add_0_r in H0. unfold raid_scan_from, taken_at in H0.
    cbn [seq map] in H0. rewrite app_nil_r in H0.
    assert (Hrec : exsmount.findRaidDev fuel (Z.of_nat i + 1) h
                     (tr ++ [os_Stat (exsmount.raidPath (Z.of_nat i))])
                   = (Returns (exsmount.raidPath (Z.of_nat (i + S n))),
                      tr ++ raid_scan_from i (S (S n)))).
    { replace (Z.of_nat i + 1) with (Z.of_nat (S i)) by lia.
      rewrite (IH fuel (S i) _ ltac:(lia)).
      - replace (S i + n)%nat with (i + S n)%nat by lia.
        f_equal. rewrite (raid_scan_from_S i (S n)).
        now rewrite <- app_assoc.
      - intros j Hj. replace (S i + j)%nat with (i + S j)%nat by lia.
        rewrite <- app_assoc. cbn [app]. rewrite <- raid_scan_from_S.
        apply Htaken. lia.
      - replace (S i + n)%nat with (i + S n)%nat by lia.
        rewrite <- app_assoc. cbn [app]. rewrite <- raid_scan_from_S.
        exact Hfree. }
    destruct (h tr (os_Stat (exsmount.raidPath (Z.of_nat i)))) as [err|].
    + rewrite H0. exact Hrec.
    + exact Hrec.
Qed.

Lemma raidPath_not_empty (i : Z) : String.eqb (exsmount.raidPath i) "" = false.
Proof. reflexivity. Qed.

Lemma makeDir_available_at h path tr :
  dir_available_at h tr path ->
  exists dirs,
    exsmount.makeDir path h tr = (Returns None, tr ++ dirs) /\
    (dirs = [os_Stat path] \/ dirs = [os_Stat path; os_MkdirAll path]).
Proof.
  intros Hdir. unfold exsmount.makeDir, eff_bind. rewrite call_run.
  unfold dir_available_at in Hdir.
  destruct (h tr (os_Stat path)) as [err|].
  - destruct Hdir as [-> Hmk]. rewrite call_run, Hmk.
    exists [os_Stat path; os_MkdirAll path]. split; [|now right].
    unfold eff_ret. now rewrite <- app_assoc.
  - exists [os_Stat path]. split; [reflexivity | now left].
Qed.

(** The striped path of [MountLocal], for any two or more devices, up to
    the assembly of the array. *)
Lemma MountLocal_array_run h deviceCandidates mountBase devices tr1 (n : nat) :
  selects h deviceCandidates devices tr1 ->
  (2 <= List.length devices)%nat ->
  h tr1 (exec_LookPath "mdadm") = None ->
  first_free_array h (tr1 ++ [exec_LookPath "mdadm"]) n ->
  run (exsmount.MountLocal deviceCandidates mountBase) h
  = (r <- call (cmd_Run "mdadm"
                  (exsmount.mdadm_args (exsmount.raidPath (Z.of_nat n))
                     devices)) ;;
     match run_err r with
     | Some err => eff_ret ([], Some (Foreign err))
     | None =>
         e <- exsmount.mkfs "ext4" (exsmount.raidPath (Z.of_nat n)) ;;
         match e with
         | Some err => eff_ret ([exsmount.raidPath (Z.of_nat n)], Some err)
         | None =>
             e <- exsmount.makeAndMount (exsmount.raidPath (Z.of_nat n))
                    mountBase ;;
             eff_ret ([exsmount.raidPath (Z.of_nat n)], e)
         end
     end)%eff h ((tr1 ++ [exec_LookPath "mdadm"]) ++ raid_scan (S n)).
Proof.
  intros (inUse & tr0 & Hm & Hsel) Hlen Hlp (Hn & Htaken & Hfree).
  unfold run, exsmount.MountLocal.
  rewrite (bind_returns _ _ _ _ _ _ Hm).
  rewrite (bind_returns _ _ _ _ _ _ Hsel).
  assert (H0 : Nat.eqb (List.length devices) 0 = false)
    by (apply Nat.eqb_neq; lia).
  assert (H1 : Nat.eqb (List.length devices) 1 = false)
    by (apply Nat.eqb_neq; lia).
  rewrite H0. unfold eff_bind at 1. rewrite call_run, Hlp, H1. cbn [orb].
  change 0 with (Z.of_nat 0) at 1.
  rewrite (bind_returns _ _ _ _ _ _
             (findRaidDev_finds h n 20 0 (tr1 ++ [exec_LookPath "mdadm"])
                Hn Htaken Hfree)).
  cbn [Nat.add]. rewrite raidPath_not_empty. reflexivity.
Qed.

Lemma calls_raid_scan (p : Call -> bool) (n : nat) :
  (forall path, p (os_Stat path) = false) -> calls p (raid_scan n) = [].
Proof.
  intros Hp. unfold raid_scan, raid_scan_from.
  rewrite <- (List.map_map _ os_Stat). now apply calls_stats.
Qed.

(** C4 (as amended). For a candidate list that yields three usable devices,
    with [mdadm] installed, when some [/dev/mdN] with N in 0..19 is
    reported not to exist when the scan looks at it, the assembly of the
    array and its formatting succeed when they are run, and the mount
    point then exists or can be made: [MountLocal] runs [mdadm] exactly
    once, to create one striped array of the three devices at the first
    such [/dev/mdN], runs [mkfs] exactly once, as ext4 on the array, and
    runs [mount] exactly once, of the array on the base mount point; it
    returns the array as the only device. Each condition is about the
    answer to the one call that [MountLocal] makes, so the host may change
    as the calls are made: the array path may exist once [mdadm] has
    run. *)
Theorem three_devices_one_array (h : Host) (deviceCandidates : list string)
    (mountBase d1 d2 d3 : string) (tr1 : list Call) (n : nat) :
  let raidDev := exsmount.raidPath (Z.of_nat n) in
  let mdadm :=
    cmd_Run "mdadm"
      ["--create"; "--verbose"; raidDev; "-R"; "--level=stripe";
       "--raid-devices=3"; d1; d2; d3] in
  let tr2 := (tr1 ++ [exec_LookPath "mdadm"]) ++ raid_scan (S n) in
  selects h deviceCandidates [d1; d2; d3] tr1 ->
  h tr1 (exec_LookPath "mdadm") = None ->
  first_free_array h (tr1 ++ [exec_LookPath "mdadm"]) n ->
  run_err (h tr2 mdadm) = None ->
  run_err (h (tr2 ++ [mdadm]) (mkfs_call raidDev)) = None ->
  dir_available_at h ((tr2 ++ [mdadm]) ++ [mkfs_call raidDev]) mountBase ->
  exists err tr,
    run (exsmount.MountLocal deviceCandidates mountBase) h
    = (Returns ([raidDev], err), tr) /\
    calls is_mdadm tr = [mdadm] /\
    calls is_mkfs tr = [cmd_Run "mkfs" ["-t"; "ext4"; raidDev]] /\
    calls is_mount tr
    = [cmd_Run "mount" ["-o"; "noatime"; raidDev; mountBase]].
Proof.
  intros raidDev mdadm tr2 Hsel Hlp Hfree Hmdadm Hmkfs Hdir.
  rewrite (MountLocal_array_run h deviceCandidates mountBase [d1; d2; d3]
             tr1 n Hsel ltac:(simpl; lia) Hlp Hfree).
  change (exsmount.mdadm_args (exsmount.raidPath (Z.of_nat n)) [d1; d2; d3])
    with ["--create"; "--verbose"; raidDev; "-R"; "--level=stripe";
          "--raid-devices=3"; d1; d2; d3].
  fold raidDev mdadm tr2.
  unfold eff_bind at 1. rewrite call_run, Hmdadm.
  unfold exsmount.mkfs at 1. unfold eff_bind at 1. unfold eff_bind at 1.
  rewrite call_run. fold (mkfs_call raidDev). rewrite Hmkfs.
  unfold eff_ret at 1.
  destruct (makeDir_available_at h mountBase _ Hdir) as (dirs & Hmake & Hdirs).
  unfold exsmount.makeAndMount, eff_bind at 1. unfold eff_bind at 1.
  rewrite Hmake. unfold eff_bind at 1. rewrite call_run.
  set (mounted := run_err (h _ (cmd_Run "mount" _))).
  exists (match mounted with Some err => Some (Foreign err) | None => None end).
  eexists. split; [destruct mounted; reflexivity|].
  destruct (selects_trace _ _ _ _ Hsel) as [paths Htr1].
  subst tr2. rewrite Htr1.
  change (read_proc_mounts :: map os_Stat paths)
    with ([read_proc_mounts] ++ map os_Stat paths).
  rewrite !calls_app, !calls_raid_scan, !calls_stats by reflexivity.
  destruct Hdirs as [-> | ->]; repeat split; reflexivity.
Qed.

Lemma three_devices_one_array_witness :
  exists err tr,
    run (exsmount.MountLocal ["/dev/xvdb"; "/dev/xvdc"; "/dev/xvdd"] "/mnt/x")
        (Examples_further.live Hosts.found)
    = (Returns (["/dev/md1"], err), tr) /\
    calls is_mdadm tr
    = [cmd_Run "mdadm"
         ["--create"; "--verbose"; "/dev/md1"; "-R"; "--level=stripe";
          "--raid-devices=3"; "/dev/xvdb"; "/dev/xvdc"; "/dev/xvdd"]] /\
    calls is_mkfs tr = [cmd_Run "mkfs" ["-t"; "ext4"; "/dev/md1"]] /\
    calls is_mount tr
    = [cmd_Run "mount" ["-o"; "noatime"; "/dev/md1"; "/mnt/x"]].
Proof.
  apply (three_devices_one_array (Examples_further.live Hosts.found)
           ["/dev/xvdb"; "/dev/xvdc"; "/dev/xvdd"] "/mnt/x"
           "/dev/xvdb" "/dev/xvdc" "/dev/xvdd"
           [read_proc_mounts; os_Stat "/dev/xvdb"; os_Stat "/dev/xvdc";
            os_Stat "/dev/xvdd"] 1).
  - exists ∅, [read_proc_mounts]. split; reflexivity.
  - reflexivity.
  - split; [lia|]. split.
    + intros j Hj. assert (j = O) as -> by lia. vm_compute. exact I.
    + eexists. split; reflexivity.
  - reflexivity.
  - reflexivity.
  - vm_compute. split; reflexivity.
Defined.

(** C4 (as stated) fails when array assembly fails: three usable devices
    and [mdadm] installed, yet no array, no [mkfs] and no [mount]. *)
Lemma assembly_failure_formats_nothing :
  run (exsmount.MountLocal ["/dev/xvdb"; "/dev/xvdc"; "/dev/xvdd"] "/mnt/x")
      Examples_striping.busy_devices
  = (Returns ([], Some (Foreign (ForeignError false "exit status 1"))),
     [read_proc_mounts; os_Stat "/dev/xvdb"; os_Stat "/dev/xvdc";
      os_Stat "/dev/xvdd"; exec_LookPath "mdadm"; os_Stat "/dev/md0";
      cmd_Run "mdadm"
        ["--create"; "--verbose"; "/dev/md0"; "-R"; "--level=stripe";
         "--raid-devices=3"; "/dev/xvdb"; "/dev/xvdc"; "/dev/xvdd"]]).
Proof. vm_compute. reflexivity. Qed.

(** ** C6: formatting a device that is already mounted *)

Lemma mkfs_already_mounted h dev tr :
  already_mounted h dev ->
  exsmount.mkfs "ext4" dev h tr
  = (Returns (Some MountedError), tr ++ [cmd_Run "mkfs" ["-t"; "ext4"; dev]]).
Proof.
  intros Hm. destruct (Hm tr) as [Herr Hstderr].
  unfold exsmount.mkfs, eff_bind. rewrite call_run.
  destruct (run_err _); [|congruence]. now rewrite Hstderr.
Qed.

Lemma makeDir_error h path tr e tr' :
  exsmount.makeDir path h tr = (Returns (Some e), tr') ->
  exists f, e = Foreign f.
Proof.
  unfold exsmount.makeDir, eff_bind, eff_ret. rewrite call_run.
  destruct (h tr (os_Stat path)) as [err|]; [|intros [=]].
  destruct (os_IsNotExist err).
  - rewrite call_run. destruct (h _ (os_MkdirAll path)); intros [=]; eauto.
  - intros [=]. eauto.
Qed.

Lemma makeAndMount_error h dev base tr e tr' :
  exsmount.makeAndMount dev base h tr = (Returns (Some e), tr') ->
  exists f, e = Foreign f.
Proof.
  unfold exsmount.makeAndMount. unfold eff_bind at 1.
  destruct (exsmount.makeDir base h tr) as [[[err|]|msg|msg] tr1] eqn:Hd;
    try (intros [=]; fail).
  - unfold eff_ret. intros [= <- _]. eapply makeDir_error; eassumption.
  - unfold eff_bind, eff_ret. rewrite call_run.
    destruct (run_err _); intros [=]; eauto.
Qed.

Lemma mkfs_error h fstype dev tr e tr' :
  exsmount.mkfs fstype dev h tr = (Returns (Some e), tr') ->
  e = MountedError \/ exists f, e = Foreign f.
Proof.
  unfold exsmount.mkfs, eff_bind, eff_ret. rewrite call_run.
  destruct (run_err _); [|intros [=]].
  destruct (Strings.Contains _ _); intros [=]; eauto.
Qed.

Lemma mountEach_skips h mountBase i dev rest tr :
  already_mounted h dev ->
  exsmount.mountEach mountBase i (dev :: rest) h tr
  = exsmount.mountEach mountBase (i + 1) rest h
      (tr ++ [cmd_Run "mkfs" ["-t"; "ext4"; dev]]).
Proof.
  intros Hm. cbn [exsmount.mountEach].
  now rewrite (bind_returns _ _ _ _ _ _ (mkfs_already_mounted h dev tr Hm)).
Qed.

Lemma mountEach_never_MountedError h mountBase devices :
  forall i tr e tr',
    exsmount.mountEach mountBase i devices h tr = (Returns (Some e), tr') ->
    e <> MountedError.
Proof.
  induction devices as [|dev rest IH]; intros i tr e tr'.
  - simpl. unfold eff_ret. intros [=].
  - cbn [exsmount.mountEach]. unfold eff_bind at 1.
    destruct (exsmount.mkfs "ext4" dev h tr) as [[[err|]|msg|msg] tr1] eqn:Hmk;
      try (intros [=]; fail).
    + destruct (mkfs_error _ _ _ _ _ _ Hmk) as [->|[f ->]]; cbn.
      * apply IH.
      * unfold eff_ret. now intros [= <- _].
    + unfold eff_bind at 1.
      destruct (exsmount.makeAndMount dev _ h tr1)
        as [[[err|]|msg|msg] tr2] eqn:Hmnt; try (intros [=]; fail).
      * destruct (makeAndMount_error _ _ _ _ _ _ Hmnt) as [f ->].
        unfold eff_ret. now intros [= <- _].
      * apply IH.
Qed.

Lemma mountEach_all_mounted h mountBase devices :
  (forall d, In d devices -> already_mounted h d) ->
  forall i tr,
    exsmount.mountEach mountBase i devices h tr
    = (Returns None,
       tr ++ map (fun d => cmd_Run "mkfs" ["-t"; "ext4"; d]) devices).
Proof.
  induction devices as [|dev rest IH]; intros Hall i tr.
  - simpl. unfold eff_ret. now rewrite app_nil_r.
  - rewrite mountEach_skips by (apply Hall; now left).
    rewrite IH by (intros d Hd; apply Hall; now right).
    cbn [map]. now rewrite <- app_assoc.
Qed.

Lemma calls_all (p : Call -> bool) (l : list Call) :
  (forall c, In c l -> p c = true) -> calls p l = l.
Proof.
  induction l as [|c l IH]; intros Hall; [reflexivity|].
  simpl. rewrite (Hall c (or_introl eq_refl)). f_equal.
  apply IH. intros c' Hc'. apply Hall. now right.
Qed.

Lemma calls_none (p : Call -> bool) (l : list Call) :
  (forall c, In c l -> p c = false) -> calls p l = [].
Proof.
  induction l as [|c l IH]; intros Hall; [reflexivity|].
  simpl. rewrite (Hall c (or_introl eq_refl)).
  apply IH. intros c' Hc'. apply Hall. now right.
Qed.

(** The branch of [MountLocal] without RAID. *)
Lemma MountLocal_each h deviceCandidates mountBase devices tr1 :
  selects h deviceCandidates devices tr1 ->
  devices <> [] ->
  h tr1 (exec_LookPath "mdadm") <> None \/ List.length devices = 1%nat ->
  run (exsmount.MountLocal deviceCandidates mountBase) h
  = match exsmount.mountEach mountBase 0 devices h
            (tr1 ++ [exec_LookPath "mdadm"]) with
    | (Returns (Some err), tr) => (Returns ([], Some err), tr)
    | (Returns None, tr) => (Returns (devices, None), tr)
    | (Panics msg, tr) => (Panics msg, tr)
    | (Exits msg, tr) => (Exits msg, tr)
    end.
Proof.
  intros (inUse & tr0 & Hm & Hsel) Hne Hpath.
  unfold run, exsmount.MountLocal.
  rewrite (bind_returns _ _ _ _ _ _ Hm).
  rewrite (bind_returns _ _ _ _ _ _ Hsel).
  assert (H0 : Nat.eqb (List.length devices) 0 = false).
  { destruct devices; [congruence | reflexivity]. }
  rewrite H0. unfold eff_bind at 1. rewrite call_run.
  assert (Hb : ((match h tr1 (exec_LookPath "mdadm") with
                 | Some _ => true | None => false end)
                || Nat.eqb (List.length devices) 1)%bool = true).
  { destruct Hpath as [Hlp | ->].
    - destruct (h tr1 (exec_LookPath "mdadm")); [reflexivity | congruence].
    - apply orb_true_r. }
  rewrite Hb. unfold eff_bind.
  destruct (exsmount.mountEach mountBase 0 devices h _) as [[[err|]|msg|msg] tr];
    reflexivity.
Qed.

(** C6 (as amended). On the branch of [MountLocal] that formats each device
    on its own (one usable device, or [mdadm] not installed): a device whose
    [mkfs] fails because the device is mounted is skipped, and the loop goes
    on with the next device; the already-mounted failure is never the error
    that [MountLocal] returns; and when [mkfs] fails in this way for every
    usable device, [MountLocal] returns the devices and no error, having
    run [mkfs] once per device and [mount] not at all. On the striped
    branch (two or more usable devices, [mdadm] installed, an array path
    free, the assembly succeeds), when [mkfs] of the array fails because
    the array is mounted, [MountLocal] returns that failure as its error,
    together with the array path as its only device, and runs no
    [mount]. *)
Theorem already_mounted_absorbed_per_device (h : Host)
    (deviceCandidates : list string) (mountBase : string)
    (devices : list string) (tr1 : list Call) :
  selects h deviceCandidates devices tr1 ->
  devices <> [] ->
  (h tr1 (exec_LookPath "mdadm") <> None \/ List.length devices = 1%nat ->
   (forall i dev rest tr,
      already_mounted h dev ->
      exsmount.mountEach mountBase i (dev :: rest) h tr
      = exsmount.mountEach mountBase (i + 1) rest h
          (tr ++ [cmd_Run "mkfs" ["-t"; "ext4"; dev]]))
   /\
   (forall out e tr,
      run (exsmount.MountLocal deviceCandidates mountBase) h
      = (Returns (out, Some e), tr) ->
      e <> MountedError)
   /\
   ((forall d, In d devices -> already_mounted h d) ->
    exists tr,
      run (exsmount.MountLocal deviceCandidates mountBase) h
      = (Returns (devices, None), tr) /\
      calls is_mkfs tr
      = map (fun d => cmd_Run "mkfs" ["-t"; "ext4"; d]) devices /\
      calls is_mount tr = []))
  /\
  (h tr1 (exec_LookPath "mdadm") = None ->
   (2 <= List.length devices)%nat ->
   forall n : nat,
     let raidDev := exsmount.raidPath (Z.of_nat n) in
     let mdadm := cmd_Run "mdadm" (exsmount.mdadm_args raidDev devices) in
     let tr2 := (tr1 ++ [exec_LookPath "mdadm"]) ++ raid_scan (S n) in
     first_free_array h (tr1 ++ [exec_LookPath "mdadm"]) n ->
     run_err (h tr2 mdadm) = None ->
     run_err (h (tr2 ++ [mdadm]) (mkfs_call raidDev)) <> None ->
     Strings.Contains (stderr (h (tr2 ++ [mdadm]) (mkfs_call raidDev)))
       "is mounted" = true ->
     run (exsmount.MountLocal deviceCandidates mountBase) h
     = (Returns ([raidDev], Some MountedError),
        (tr2 ++ [mdadm]) ++ [mkfs_call raidDev])).
Proof.
  intros Hsel Hne. split.
  - intros Hpath.
    pose proof (MountLocal_each h deviceCandidates mountBase devices tr1
                  Hsel Hne Hpath) as Hrun.
    split; [|split].
    + intros i dev rest tr. apply mountEach_skips.
    + intros out e tr. rewrite Hrun.
      destruct (exsmount.mountEach mountBase 0 devices h _)
        as [[[err|]|msg|msg] tr2] eqn:Heach; intros [=]; subst.
      eapply mountEach_never_MountedError; eassumption.
    + intros Hall. rewrite Hrun.
      rewrite (mountEach_all_mounted h mountBase devices Hall).
      eexists. split; [reflexivity|].
      destruct (selects_trace _ _ _ _ Hsel) as [paths ->].
      change (read_proc_mounts :: map os_Stat paths)
        with ([read_proc_mounts] ++ map os_Stat paths).
      rewrite !calls_app, !calls_stats by reflexivity.
      cbn [calls filter is_mkfs is_mount app].
      split.
      * apply calls_all. intros c Hc. apply in_map_iff in Hc as (d & <- & _).
        reflexivity.
      * apply calls_none. intros c Hc. apply in_map_iff in Hc as (d & <- & _).
        reflexivity.
  - intros Hlp Hlen n raidDev mdadm tr2 Hfree Hmdadm Hmkfs Hstderr.
    rewrite (MountLocal_array_run h deviceCandidates mountBase devices tr1 n
               Hsel Hlen Hlp Hfree).
    fold raidDev mdadm tr2.
    unfold eff_bind at 1. rewrite call_run, Hmdadm.
    unfold exsmount.mkfs, eff_bind. rewrite call_run.
    fold (mkfs_call raidDev).
    destruct (run_err (h (tr2 ++ [mdadm]) (mkfs_call raidDev))) as [err|];
      [|congruence].
    rewrite Hstderr. reflexivity.
Qed.

Lemma already_mounted_absorbed_per_device_witness :
  (exists tr,
     run (exsmount.MountLocal ["/dev/xvdb"; "/dev/xvdc"] "/mnt/x")
         Examples_striping.devices_mounted
     = (Returns (["/dev/xvdb"; "/dev/xvdc"], None), tr) /\
     calls is_mkfs tr
     = [cmd_Run "mkfs" ["-t"; "ext4"; "/dev/xvdb"];
        cmd_Run "mkfs" ["-t"; "ext4"; "/dev/xvdc"]] /\
     calls is_mount tr = [])
  /\
  run (exsmount.MountLocal ["/dev/xvdb"; "/dev/xvdc"] "/mnt/x")
      Examples_striping.array_mounted
  = (Returns (["/dev/md0"], Some MountedError),
     [read_proc_mounts; os_Stat "/dev/xvdb"; os_Stat "/dev/xvdc";
      exec_LookPath "mdadm"; os_Stat "/dev/md0";
      cmd_Run "mdadm"
        ["--create"; "--verbose"; "/dev/md0"; "-R"; "--level=stripe";
         "--raid-devices=2"; "/dev/xvdb"; "/dev/xvdc"];
      cmd_Run "mkfs" ["-t"; "ext4"; "/dev/md0"]]).
Proof.
  split.
  - destruct (already_mounted_absorbed_per_device
                Examples_striping.devices_mounted
                ["/dev/xvdb"; "/dev/xvdc"] "/mnt/x" ["/dev/xvdb"; "/dev/xvdc"]
                [read_proc_mounts; os_Stat "/dev/xvdb"; os_Stat "/dev/xvdc"])
      as [Heach _].
    + exists ∅, [read_proc_mounts]. split; reflexivity.
    + discriminate.
    + apply Heach.
      * left. discriminate.
      * intros d Hd t. split; [discriminate | reflexivity].
  - destruct (already_mounted_absorbed_per_device
                Examples_striping.array_mounted
                ["/dev/xvdb"; "/dev/xvdc"] "/mnt/x" ["/dev/xvdb"; "/dev/xvdc"]
                [read_proc_mounts; os_Stat "/dev/xvdb"; os_Stat "/dev/xvdc"])
      as [_ Harray].
    + exists ∅, [read_proc_mounts]. split; reflexivity.
    + discriminate.
    + apply (Harray eq_refl ltac:(simpl; lia) O).
      * split; [lia|]. split; [intros j Hj; lia|].
        eexists. split; reflexivity.
      * reflexivity.
      * discriminate.
      * reflexivity.
Defined.

(** C6 (as stated) fails on the striped path, where the already-mounted
    failure of [mkfs] is returned as the error of [MountLocal]; and a run
    against a device that an earlier run has mounted fails, because the
    device is in the mount table and no usable device is left. *)
Lemma already_mounted_fails_striped_and_rerun :
  run (exsmount.MountLocal ["/dev/xvdb"; "/dev/xvdc"] "/mnt/x")
      Examples_striping.array_mounted
  = (Returns (["/dev/md0"], Some MountedError),
     [read_proc_mounts; os_Stat "/dev/xvdb"; os_Stat "/dev/xvdc";
      exec_LookPath "mdadm"; os_Stat "/dev/md0";
      cmd_Run "mdadm"
        ["--create"; "--verbose"; "/dev/md0"; "-R"; "--level=stripe";
         "--raid-devices=2"; "/dev/xvdb"; "/dev/xvdc"];
      cmd_Run "mkfs" ["-t"; "ext4"; "/dev/md0"]])
  /\
  run (exsmount.MountLocal ["/dev/xvdb"] "/mnt/x")
      Examples_striping.mounted_by_earlier_run
  = (Returns ([], Some (Errorf "exsmount: no unused local storage found")),
     [read_proc_mounts; os_Stat "/dev/xvdb"]).
Proof. split; vm_compute; reflexivity. Qed.

(** ** C7: teardown of a volume that no region knows *)

Section Probing.

Variable h : Host.
Variable vid : string.

Hypothesis sessions : forall t, h t session_NewSession = None.
Hypothesis describe_fails :
  forall t region, derr (h t (ec2_DescribeVolumes region vid)) <> None.

(** When the describe call fails in every region, the loop over the
    regions runs to its end, and leaves the answer of the last region. *)
Lemma probeRegions_all_fail (rs : list string) (region : string) :
  forall p tr,
    let a := h ((tr ++ probes_of vid rs) ++ [session_NewSession])
               (ec2_DescribeVolumes region vid) in
    ddv.probeRegions vid (rs ++ [region]) p h tr
    = (Returns {| ddv.svc := Some region; ddv.probe_drsp := drsp a;
                  ddv.probe_err := derr a |},
       tr ++ probes_of vid (rs ++ [region])).
Proof.
  induction rs as [|r rs IH]; intros p tr a.
  - subst a. cbn [app ddv.probeRegions probes_of map concat].
    rewrite app_nil_r.
    unfold eff_bind at 1. rewrite call_run, sessions.
    unfold eff_bind at 1. rewrite call_run.
    pose proof (describe_fails (tr ++ [session_NewSession]) region) as Hfail.
    destruct (derr (h (tr ++ [session_NewSession])
                      (ec2_DescribeVolumes region vid))) as [f|] eqn:Hf;
      [|congruence].
    cbn [ddv.probeRegions]. unfold eff_ret.
    now rewrite <- app_assoc.
  - cbn [app ddv.probeRegions].
    unfold eff_bind at 1. rewrite call_run, sessions.
    unfold eff_bind at 1. rewrite call_run.
    pose proof (describe_fails (tr ++ [session_NewSession]) r) as Hfail.
    destruct (derr (h (tr ++ [session_NewSession])
                      (ec2_DescribeVolumes r vid))) as [f|] eqn:Hf;
      [|congruence].
    rewrite IH. subst a.
    assert (Htr : forall l,
              ((tr ++ [session_NewSession]) ++ [ec2_DescribeVolumes r vid])
              ++ l
              = tr ++ probes_of vid [r] ++ l).
    { intros l. cbn. now rewrite <- !app_assoc. }
    rewrite !Htr. cbn [probes_of map concat app]. reflexivity.
Qed.

End Probing.

(** C7 (as amended). When a client session can be made and the describe
    call for a volume id fails in every region probed, [DetachAndDelete]
    makes a session and describes the volume in each region in turn and
    makes no other call, so neither [DetachVolume] nor [DeleteVolume], and
    returns an error. The error is decided by the answer for the last
    region, ap-southeast-2: it is "ddv: volume: ... not found" when the
    client returned no output there, whatever it returned for the regions
    before, and the error of that describe call otherwise. *)
Theorem unknown_volume_not_torn_down (h : Host) (vid : string) :
  (forall t, h t session_NewSession = None) ->
  (forall t region, derr (h t (ec2_DescribeVolumes region vid)) <> None) ->
  let tr := probes_of vid ddv.regions in
  let last :=
    h (probes_of vid (removelast ddv.regions) ++ [session_NewSession])
      (ec2_DescribeVolumes "ap-southeast-2" vid) in
  exists e,
    run (ddv.DetachAndDelete vid) h = (Returns (Some e), tr) /\
    calls is_detach tr = [] /\
    calls is_delete tr = [] /\
    match drsp last with
    | None => e = Errorf ("ddv: volume: " +:+ vid +:+ " not found")
    | Some _ => exists f, derr last = Some f /\ e = Foreign f
    end.
Proof.
  intros Hs Hfail tr last.
  pose proof (probeRegions_all_fail h vid Hs Hfail
                (removelast ddv.regions) "ap-southeast-2"
                {| ddv.svc := None; ddv.probe_drsp := None;
                   ddv.probe_err := None |} []) as Hrun.
  cbv zeta in Hrun.
  change (removelast ddv.regions ++ ["ap-southeast-2"]) with ddv.regions
    in Hrun.
  change ([] ++ probes_of vid (removelast ddv.regions))
    with (probes_of vid (removelast ddv.regions)) in Hrun.
  change ([] ++ probes_of vid ddv.regions) with tr in Hrun.
  fold last in Hrun.
  assert (Hcalls : calls is_detach tr = [] /\ calls is_delete tr = [])
    by (split; reflexivity).
  destruct Hcalls as [Hdetach Hdelete].
  pose proof (Hfail (probes_of vid (removelast ddv.regions)
                     ++ [session_NewSession]) "ap-southeast-2") as Hlast.
  fold last in Hlast.
  unfold run, ddv.DetachAndDelete.
  rewrite (bind_returns _ _ _ _ _ _ Hrun). cbn [ddv.probe_drsp ddv.probe_err].
  destruct (drsp last) as [out|].
  - destruct (derr last) as [f|]; [|congruence].
    exists (Foreign f). unfold eff_ret. repeat split; auto. now exists f.
  - exists (Errorf ("ddv: volume: " +:+ vid +:+ " not found")).
    unfold eff_ret. repeat split; auto.
Qed.

Lemma unknown_volume_not_torn_down_witness :
  (exists e,
     run (ddv.DetachAndDelete "vol-0f00") Examples_teardown.no_output
     = (Returns (Some e), probes_of "vol-0f00" ddv.regions) /\
     calls is_detach (probes_of "vol-0f00" ddv.regions) = [] /\
     calls is_delete (probes_of "vol-0f00" ddv.regions) = [] /\
     e = Errorf "ddv: volume: vol-0f00 not found")
  /\
  (exists e,
     run (ddv.DetachAndDelete "vol-0f00")
         Examples_teardown.output_in_first_region
     = (Returns (Some e), probes_of "vol-0f00" ddv.regions) /\
     calls is_detach (probes_of "vol-0f00" ddv.regions) = [] /\
     calls is_delete (probes_of "vol-0f00" ddv.regions) = [] /\
     e = Errorf "ddv: volume: vol-0f00 not found").
Proof.
  split.
  - apply (unknown_volume_not_torn_down Examples_teardown.no_output
             "vol-0f00").
    + intros t. reflexivity.
    + intros t region. discriminate.
  - apply (unknown_volume_not_torn_down
             Examples_teardown.output_in_first_region "vol-0f00").
    + intros t. reflexivity.
    + intros t region. discriminate.
Defined.

(** C7 (as stated) fails on the kind of error: when the describe call
    fails in every region and the client returns its output struct along
    with the error, [DetachAndDelete] returns the error of the describe
    call in the last region, here a credentials error, and not the "not
    found" error. *)
Lemma describe_error_is_returned :
  fst (run (ddv.DetachAndDelete "vol-0f00") Examples_teardown.no_credentials)
  = Returns (Some (Foreign (ForeignError false
                     "NoCredentialProviders: no valid providers in chain")))
  /\
  calls is_ec2
    (snd (run (ddv.DetachAndDelete "vol-0f00") Examples_teardown.no_credentials))
  = map (fun region => ec2_DescribeVolumes region "vol-0f00") ddv.regions.
Proof. split; vm_compute; reflexivity. Qed.

(** ** C1: the checks of the requested IOPS *)









(** ** C5: the file system type and the mount points *)

(** C5 (the code at a failing input). Two volumes are requested with the
    file system type [xfs] on a host without [mdadm]: both devices are
    formatted as [ext4]; they are mounted on the mount point and on the
    mount point suffixed with [_1]. *)
Theorem requested_fstype_ignored :
  exsmount.FSType (Examples_provisioning.request "gp2" "xfs" 200 0 2) = "xfs"
  /\
  fst (run (exsmount.Main (Examples_provisioning.request "gp2" "xfs" 200 0 2))
           Examples_provisioning.obliging) = Returns tt
  /\
  calls is_mkfs
    (snd (run (exsmount.Main (Examples_provisioning.request "gp2" "xfs" 200 0 2))
              Examples_provisioning.obliging))
  = [cmd_Run "mkfs" ["-t"; "ext4"; "/dev/sdb"];
     cmd_Run "mkfs" ["-t"; "ext4"; "/dev/sdc"]]
  /\
  calls is_mount
    (snd (run (exsmount.Main (Examples_provisioning.request "gp2" "xfs" 200 0 2))
              Examples_provisioning.obliging))
  = [cmd_Run "mount" ["-o"; "noatime"; "/dev/sdb"; "/mnt/x"];
     cmd_Run "mount" ["-o"; "noatime"; "/dev/sdc"; "/mnt/x_1"]].
Proof. repeat split; vm_compute; reflexivity. Qed.

(** ** C8: a device that never appears *)

(** C8 (the code at a failing input). The volume is created and attached
    at [/dev/sdb] and reaches the state [in-use], but the device node does
    not appear in 30 polls one second apart: [CreateAttach] returns no
    devices and no error. *)
Theorem missing_device_returns_no_error :
  fst (run (exsmount.CreateAttach
              (Examples_provisioning.request "gp2" "ext4" 200 0 1))
           Examples_provisioning.never_appears)
  = Returns ([], None)
  /\
  calls is_attach
    (snd (run (exsmount.CreateAttach
                 (Examples_provisioning.request "gp2" "ext4" 200 0 1))
              Examples_provisioning.never_appears))
  = [ec2_AttachVolume "us-east-1" "i-0abc" "vol-batchit-i-0abc-0" "/dev/sdb"]
  /\
  List.length
    (calls is_poll_sleep
       (snd (run (exsmount.CreateAttach
                    (Examples_provisioning.request "gp2" "ext4" 200 0 1))
                 Examples_provisioning.never_appears)))
  = 30%nat.
Proof. repeat split; vm_compute; reflexivity. Qed.

(** ** Binary64 rounding *)

Lemma digits2_pos_bounds (p : positive) :
  2 ^ (Z.pos (digits2_pos p) - 1) <= Z.pos p < 2 ^ Z.pos (digits2_pos p).
Proof.
  induction p as [p IH|p IH|]; cbn [digits2_pos].
  - rewrite Pos2Z.inj_succ. replace (Z.succ (Z.pos (digits2_pos p)) - 1)
      with (Z.succ (Z.pos (digits2_pos p) - 1)) by lia.
    rewrite !Z.pow_succ_r by lia. lia.
  - rewrite Pos2Z.inj_succ. replace (Z.succ (Z.pos (digits2_pos p)) - 1)
      with (Z.succ (Z.pos (digits2_pos p) - 1)) by lia.
    rewrite !Z.pow_succ_r by lia. lia.
  - cbn. lia.
Qed.

Lemma Zdigits2_bounds (m : Z) :
  0 < m -> 0 < Zdigits2 m /\ 2 ^ (Zdigits2 m - 1) <= m < 2 ^ Zdigits2 m.
Proof.
  destruct m as [|p|p]; try lia. intros _. cbn [Zdigits2].
  split; [lia | apply digits2_pos_bounds].
Qed.

Lemma Zdigits2_le (m d : Z) : 0 < m -> m < 2 ^ d -> Zdigits2 m <= d.
Proof.
  intros Hm Hd. destruct (Zdigits2_bounds m Hm) as [Hpos [Hlo _]].
  destruct (Z_le_gt_dec (Zdigits2 m) d) as [|Hgt]; [assumption|].
  assert (2 ^ d <= 2 ^ (Zdigits2 m - 1)).
  { assert (0 <= d \/ d < 0) as [?|?] by lia.
    - apply Z.pow_le_mono_r; lia.
    - rewrite (Z.pow_neg_r 2 d) by lia. apply Z.pow_nonneg. lia. }
  lia.
Qed.

Lemma Zdigits2_ge (m d : Z) : 2 ^ (d - 1) <= m -> 0 < m -> d <= Zdigits2 m.
Proof.
  intros Hd Hm. destruct (Zdigits2_bounds m Hm) as [Hpos [_ Hhi]].
  destruct (Z_le_gt_dec d (Zdigits2 m)) as [|Hgt]; [assumption|].
  assert (2 ^ Zdigits2 m <= 2 ^ (d - 1)) by (apply Z.pow_le_mono_r; lia).
  lia.
Qed.

(** *** Shifting right *)

Lemma shr_1_shifted (mrs : shr_record) :
  0 <= shr_m mrs -> shifted 1 mrs (shr_1 mrs).
Proof.
  destruct mrs as [m r s]. cbn [shr_m]. intros Hm. unfold shifted, shr_exact.
  destruct m as [|[p|p|]|p]; try lia; cbn [shr_1 shr_m shr_r shr_s];
    change (2 ^ 1) with 2.
  - split; [lia|]. split; [reflexivity|]. intros [-> ->] _. auto.
  - split; [lia|]. split.
    + rewrite Pos2Z.inj_xI. rewrite (Z.mul_comm 2), Z.div_add_l by lia.
      reflexivity.
    + intros _ Hmod. exfalso. rewrite Pos2Z.inj_xI in Hmod.
      rewrite Z.add_comm, Z.mul_comm, Z.mod_add in Hmod by lia. discriminate.
  - split; [lia|]. split.
    + rewrite Pos2Z.inj_xO. rewrite (Z.mul_comm 2), Z.div_mul by lia.
      reflexivity.
    + intros [-> ->] _. auto.
  - split; [lia|]. split; [reflexivity|]. intros _ Hmod. discriminate.
Qed.

Lemma shifted_trans (n k : Z) (a b c : shr_record) :
  0 <= n -> 0 <= k -> 0 <= shr_m a ->
  shifted n a b -> shifted k b c -> shifted (n + k) a c.
Proof.
  intros Hn Hk Ha (Hb & Hab & Eab) (Hc & Hbc & Ebc).
  assert (Hpn : 0 < 2 ^ n) by (apply Z.pow_pos_nonneg; lia).
  assert (Hpk : 0 < 2 ^ k) by (apply Z.pow_pos_nonneg; lia).
  split; [assumption|]. split.
  - rewrite Hbc, Hab, Z.pow_add_r, Z.div_div by lia. reflexivity.
  - intros Ea Hmod. rewrite Z.pow_add_r in Hmod by lia.
    rewrite Z.rem_mul_r in Hmod by lia.
    pose proof (Z.mod_pos_bound (shr_m a) (2 ^ n) Hpn).
    pose proof (Z.mod_pos_bound (shr_m a / 2 ^ n) (2 ^ k) Hpk).
    apply Ebc.
    + apply Eab; [assumption | nia].
    + rewrite Hab. nia.
Qed.

Lemma iter_pos_shr_1_shifted (p : positive) :
  forall mrs, 0 <= shr_m mrs -> shifted (Z.pos p) mrs (SpecFloat.iter_pos shr_1 p mrs).
Proof.
  induction p as [p IH|p IH|]; intros mrs Hm; cbn [iter_pos].
  - pose proof (shr_1_shifted mrs Hm) as H1.
    assert (Hm1 : 0 <= shr_m (shr_1 mrs)) by apply H1.
    pose proof (IH _ Hm1) as H2.
    assert (Hm2 : 0 <= shr_m (SpecFloat.iter_pos shr_1 p (shr_1 mrs))) by apply H2.
    pose proof (IH _ Hm2) as H3.
    replace (Z.pos p~1) with (1 + (Z.pos p + Z.pos p)) by lia.
    apply (shifted_trans 1 (Z.pos p + Z.pos p) mrs (shr_1 mrs));
      [lia | lia | exact Hm | exact H1 |].
    apply (shifted_trans (Z.pos p) (Z.pos p) _ _ _
             ltac:(lia) ltac:(lia) Hm1 H2 H3).
  - pose proof (IH _ Hm) as H2.
    assert (Hm2 : 0 <= shr_m (SpecFloat.iter_pos shr_1 p mrs)) by apply H2.
    pose proof (IH _ Hm2) as H3.
    replace (Z.pos p~0) with (Z.pos p + Z.pos p) by lia.
    apply (shifted_trans (Z.pos p) (Z.pos p) _ _ _
             ltac:(lia) ltac:(lia) Hm H2 H3).
  - apply shr_1_shifted. assumption.
Qed.

Lemma fexp_binary64 (e : Z) : fexp 53 1024 e = Z.max (e - 53) (-1074).
Proof. reflexivity. Qed.

Lemma shr_m_of_loc (m : Z) (l : location) : shr_m (shr_record_of_loc m l) = m.
Proof. destruct l as [|[]]; reflexivity. Qed.

Lemma loc_of_shr_exact (mrs : shr_record) :
  shr_exact mrs -> loc_of_shr_record mrs = loc_Exact.
Proof. destruct mrs as [m r s]. intros [Hr Hs]. cbn in *. now subst. Qed.

Lemma round_nearest_even_bounds (m : Z) (l : location) :
  m <= round_nearest_even m l <= m + 1 /\
  (l = loc_Exact -> round_nearest_even m l = m).
Proof.
  destruct l as [|[]]; cbn; try destruct (Z.even m); split; try lia;
    try discriminate; auto.
Qed.

(** The first step of rounding: a mantissa of more than 53 bits loses its
    low bits. *)
Lemma shr_fexp_spec (m e : Z) (l : location) :
  0 < m -> -1074 <= e ->
  exists mrs,
    shr_fexp 53 1024 m e l = (mrs, e + Z.max 0 (Zdigits2 m - 53)) /\
    shr_m mrs = m / 2 ^ Z.max 0 (Zdigits2 m - 53) /\
    (l = loc_Exact -> m mod 2 ^ Z.max 0 (Zdigits2 m - 53) = 0 -> shr_exact mrs).
Proof.
  intros Hm He. destruct (Zdigits2_bounds m Hm) as [Hd _].
  unfold shr_fexp, shr. rewrite fexp_binary64.
  destruct (Z_le_gt_dec (Zdigits2 m) 53) as [Hle|Hgt].
  - rewrite (Z.max_l 0) by lia.
    exists (shr_record_of_loc m l). split; [|split].
    + destruct (Z.max (Zdigits2 m + e - 53) (-1074) - e) eqn:Hs; try lia;
        now rewrite Z.add_0_r.
    + now rewrite shr_m_of_loc, Z.div_1_r.
    + intros -> _. split; reflexivity.
  - rewrite (Z.max_r 0) by lia.
    replace (Z.max (Zdigits2 m + e - 53) (-1074) - e) with (Zdigits2 m - 53)
      by lia.
    destruct (Zdigits2 m - 53) as [|p|p] eqn:Hs; try lia.
    pose proof (iter_pos_shr_1_shifted p (shr_record_of_loc m l)) as Hsh.
    rewrite shr_m_of_loc in Hsh. destruct (Hsh ltac:(lia)) as (_ & Hval & Hex).
    rewrite shr_m_of_loc in Hval, Hex.
    exists (SpecFloat.iter_pos shr_1 p (shr_record_of_loc m l)).
    split; [reflexivity|]. split; [exact Hval|].
    intros -> Hmod. apply Hex; [split; reflexivity | exact Hmod].
Qed.

(** Rounding of a positive mantissa away from the subnormal and infinite
    ranges: the mantissa is cut to 53 bits, [m1] is the cut mantissa or its
    successor, and it is the cut mantissa when nothing was lost. *)
Lemma binary_round_aux_faithful (s : bool) (m e : Z) (l : location) :
  0 < m -> -1074 <= e -> e + Zdigits2 m <= 900 ->
  exists m1,
    0 < m1 /\
    m / 2 ^ Z.max 0 (Zdigits2 m - 53) <= m1
      <= m / 2 ^ Z.max 0 (Zdigits2 m - 53) + 1 /\
    (l = loc_Exact -> m mod 2 ^ Z.max 0 (Zdigits2 m - 53) = 0 ->
     m1 = m / 2 ^ Z.max 0 (Zdigits2 m - 53)) /\
    binary_round_aux 53 1024 s m e l
    = if m1 <? 2 ^ 53
      then S754_finite s (Z.to_pos m1) (e + Z.max 0 (Zdigits2 m - 53))
      else S754_finite s (2 ^ 52)%positive
             (e + Z.max 0 (Zdigits2 m - 53) + 1).
Proof.
  intros Hm He Hmax.
  destruct (Zdigits2_bounds m Hm) as [Hd [Hlo Hhi]].
  set (n := Z.max 0 (Zdigits2 m - 53)).
  assert (Hn : 0 <= n) by (unfold n; lia).
  assert (Hpn : 0 < 2 ^ n) by (apply Z.pow_pos_nonneg; lia).
  (* the cut mantissa has at most 53 bits *)
  assert (Hcut : 0 < m / 2 ^ n < 2 ^ 53).
  { destruct (Z_le_gt_dec (Zdigits2 m) 53) as [Hle|Hgt].
    - assert (n = 0) as -> by (unfold n; lia). rewrite Z.div_1_r. split; [lia|].
      apply Z.lt_le_trans with (1 := Hhi). apply Z.pow_le_mono_r; lia.
    - assert (n = Zdigits2 m - 53) as Hn' by (unfold n; lia). split.
      + apply Z.lt_le_trans with (2 ^ 52); [reflexivity|].
        apply Z.div_le_lower_bound; [lia|].
        rewrite <- Z.pow_add_r by lia.
        replace (n + 52) with (Zdigits2 m - 1) by lia. exact Hlo.
      + apply Z.div_lt_upper_bound; [lia|].
        rewrite <- Z.pow_add_r by lia.
        replace (n + 53) with (Zdigits2 m) by lia. exact Hhi. }
  destruct (shr_fexp_spec m e l Hm He) as (mrs & Hshr & Hval & Hex).
  fold n in Hshr, Hval, Hex.
  destruct (round_nearest_even_bounds (shr_m mrs) (loc_of_shr_record mrs))
    as [Hrne Hrne_exact].
  set (m1 := round_nearest_even (shr_m mrs) (loc_of_shr_record mrs)) in *.
  rewrite Hval in Hrne.
  exists m1. split; [lia|]. split; [exact Hrne|]. split.
  { intros Hl Hmod. rewrite <- Hval. apply Hrne_exact.
    apply loc_of_shr_exact. now apply Hex. }
  unfold binary_round_aux. rewrite Hshr. fold m1.
  destruct (shr_fexp_spec m1 (e + n) loc_Exact ltac:(lia) ltac:(lia))
    as (mrs2 & Hshr2 & Hval2 & _).
  rewrite Hshr2.
  destruct (Z.ltb_spec m1 (2 ^ 53)) as [Hlt|Hge].
  - assert (Hd1 : Zdigits2 m1 <= 53) by (apply Zdigits2_le; lia).
    rewrite (Z.max_l 0) in Hval2 |- * by lia.
    rewrite Z.div_1_r in Hval2. rewrite Hval2, Z.add_0_r.
    destruct m1 as [|p1|p1]; try lia.
    assert (Hle : (e + n <=? 1024 - 53) = true).
    { apply Z.leb_le. unfold n. lia. }
    rewrite Hle. reflexivity.
  - assert (m1 = 2 ^ 53) as Hm1 by lia.
    rewrite Hm1 in Hval2 |- *.
    change (Zdigits2 (2 ^ 53)) with 54 in *.
    change (Z.max 0 (54 - 53)) with 1 in *.
    change (2 ^ 53 / 2 ^ 1) with (Z.pos (2 ^ 52)) in Hval2.
    rewrite Hval2.
    assert (Hle : (e + n + 1 <=? 1024 - 53) = true).
    { apply Z.leb_le. unfold n. lia. }
    rewrite Hle. reflexivity.
Qed.

(** *** Aligning to a smaller exponent *)

Lemma iter_xO_pow (m d : positive) :
  Z.pos (Pos.iter xO m d) = Z.pos m * 2 ^ Z.pos d.
Proof.
  induction d as [|d IH] using Pos.peano_ind.
  - cbn. lia.
  - rewrite Pos.iter_succ, Pos2Z.inj_xO, IH, Pos2Z.inj_succ, Z.pow_succ_r by lia.
    lia.
Qed.

Lemma shl_align_spec (mx : positive) (ex ex' : Z) :
  exists mz,
    shl_align mx ex ex' = (mz, Z.min ex ex') /\
    Z.pos mz = Z.pos mx * 2 ^ (ex - Z.min ex ex').
Proof.
  unfold shl_align. destruct (ex' - ex) as [|d|d] eqn:Hd.
  - exists mx. rewrite Z.min_l by lia. replace (ex - ex) with 0 by lia.
    split; [reflexivity | cbn; lia].
  - exists mx. rewrite Z.min_l by lia. replace (ex - ex) with 0 by lia.
    split; [reflexivity | cbn; lia].
  - exists (Pos.iter xO mx d). rewrite Z.min_r by lia.
    replace (ex - ex') with (Z.pos d) by lia.
    split; [reflexivity | apply iter_xO_pow].
Qed.

(** *** Rounding keeps a value between dyadic bounds

    The value [m * 2^e] of a float with [e <= 0] is compared with a bound
    [b / 2^g] through the products [b * 2^(-e)] and [m * 2^g]. *)

Lemma pow2_split (a c : Z) : 0 <= c <= a -> 2 ^ a = 2 ^ (a - c) * 2 ^ c.
Proof. intros H. rewrite <- Z.pow_add_r by lia. f_equal. lia. Qed.

Lemma binary_round_aux_between (s : bool) (m e : Z) (l : location) :
  0 < m -> -1074 <= e ->
  Z.max e (e + Zdigits2 m - 53) + 1 <= 0 ->
  exists mf ef,
    binary_round_aux 53 1024 s m e l = S754_finite s mf ef /\
    e <= ef <= Z.max e (e + Zdigits2 m - 53) + 1 /\
    (forall b g, 0 <= g <= - ef ->
       b * 2 ^ (- e) <= m * 2 ^ g -> b * 2 ^ (- ef) <= Z.pos mf * 2 ^ g) /\
    (forall b g, 0 <= g <= - ef ->
       m * 2 ^ g < b * 2 ^ (- e) \/
       (l = loc_Exact /\ m * 2 ^ g <= b * 2 ^ (- e)) ->
       Z.pos mf * 2 ^ g <= b * 2 ^ (- ef)).
Proof.
  intros Hm He Hmax.
  destruct (Zdigits2_bounds m Hm) as [Hd _].
  destruct (binary_round_aux_faithful s m e l Hm He ltac:(lia))
    as (m1 & Hm1 & Hb & Hex & Hres).
  set (n := Z.max 0 (Zdigits2 m - 53)) in *.
  assert (Hn : 0 <= n) by (unfold n; lia).
  set (u := 2 ^ n) in *.
  assert (Hu : 0 < u) by (apply Z.pow_pos_nonneg; lia).
  assert (Hdiv : m = u * (m / u) + m mod u) by (apply Z.div_mod; lia).
  assert (Hmod : 0 <= m mod u < u) by (apply Z.mod_pos_bound; lia).
  assert (Hcut : m / u < 2 ^ 53).
  { destruct (Zdigits2_bounds m Hm) as [_ [_ Hhi]].
    apply Z.div_lt_upper_bound; [lia|]. unfold u.
    rewrite <- Z.pow_add_r by lia.
    apply Z.lt_le_trans with (1 := Hhi). apply Z.pow_le_mono_r; unfold n; lia. }
  destruct (Z.ltb_spec m1 (2 ^ 53)) as [Hlt|Hge].
  - exists (Z.to_pos m1), (e + n). rewrite Z2Pos.id by lia.
    split; [exact Hres|]. split; [unfold n; lia|]. split.
    + intros b g Hg Hlo.
      set (c := 2 ^ (- (e + n) - g)).
      assert (Hc : 0 < c) by (apply Z.pow_pos_nonneg; lia).
      assert (H1 : 2 ^ (- (e + n)) = c * 2 ^ g) by (apply pow2_split; lia).
      assert (H2 : 2 ^ (- e) = 2 ^ (- (e + n)) * u).
      { unfold u. rewrite <- Z.pow_add_r by lia. f_equal. lia. }
      assert (Hg2 : 0 < 2 ^ g) by (apply Z.pow_pos_nonneg; lia).
      rewrite H2, H1 in Hlo. rewrite H1.
      assert (b * c * u <= m) by nia.
      assert (b * c <= m / u) by (apply Z.div_le_lower_bound; lia).
      nia.
    + intros b g Hg Hhi.
      set (c := 2 ^ (- (e + n) - g)).
      assert (Hc : 0 < c) by (apply Z.pow_pos_nonneg; lia).
      assert (H1 : 2 ^ (- (e + n)) = c * 2 ^ g) by (apply pow2_split; lia).
      assert (H2 : 2 ^ (- e) = 2 ^ (- (e + n)) * u).
      { unfold u. rewrite <- Z.pow_add_r by lia. f_equal. lia. }
      assert (Hg2 : 0 < 2 ^ g) by (apply Z.pow_pos_nonneg; lia).
      rewrite H2, H1 in Hhi. rewrite H1.
      assert (Hle : m1 <= b * c).
      { destruct Hhi as [Hstrict | [Hl Hle]].
        - assert (m < b * c * u) by nia.
          assert (m / u < b * c) by (apply Z.div_lt_upper_bound; lia).
          lia.
        - assert (Hmle : m <= b * c * u) by nia.
          destruct (Z.eq_dec (m mod u) 0) as [H0|H0].
          + rewrite (Hex Hl H0). apply Z.div_le_upper_bound; lia.
          + assert (m / u < b * c) by nia. lia. }
      nia.
  - exists (2 ^ 52)%positive, (e + n + 1).
    assert (m1 = 2 ^ 53) as Hm1' by lia.
    assert (Hmu : m / u = 2 ^ 53 - 1) by lia.
    split; [exact Hres|]. split; [unfold n; lia|]. split.
    + intros b g Hg Hlo.
      set (c := 2 ^ (- (e + n + 1) - g)).
      assert (Hc : 0 < c) by (apply Z.pow_pos_nonneg; lia).
      assert (H1 : 2 ^ (- (e + n + 1)) = c * 2 ^ g) by (apply pow2_split; lia).
      assert (H2 : 2 ^ (- e) = 2 ^ (- (e + n + 1)) * (2 * u)).
      { unfold u. rewrite <- (Z.pow_succ_r 2 n), <- Z.pow_add_r by lia.
        f_equal. lia. }
      assert (Hg2 : 0 < 2 ^ g) by (apply Z.pow_pos_nonneg; lia).
      rewrite H2, H1 in Hlo. rewrite H1.
      assert (b * c * 2 * u <= m) by nia.
      assert (b * c * 2 <= m / u) by (apply Z.div_le_lower_bound; lia).
      change (Z.pos (2 ^ 52)) with (2 ^ 52).
      change (2 ^ 53) with (2 * 2 ^ 52) in *. nia.
    + intros b g Hg Hhi.
      set (c := 2 ^ (- (e + n + 1) - g)).
      assert (Hc : 0 < c) by (apply Z.pow_pos_nonneg; lia).
      assert (H1 : 2 ^ (- (e + n + 1)) = c * 2 ^ g) by (apply pow2_split; lia).
      assert (H2 : 2 ^ (- e) = 2 ^ (- (e + n + 1)) * (2 * u)).
      { unfold u. rewrite <- (Z.pow_succ_r 2 n), <- Z.pow_add_r by lia.
        f_equal. lia. }
      assert (Hg2 : 0 < 2 ^ g) by (apply Z.pow_pos_nonneg; lia).
      rewrite H2, H1 in Hhi. rewrite H1.
      change (Z.pos (2 ^ 52)) with (2 ^ 52).
      change (2 ^ 53) with (2 * 2 ^ 52) in *.
      assert (Hle : 2 * 2 ^ 52 <= b * c * 2).
      { destruct Hhi as [Hstrict | [Hl Hle]].
        - assert (m < b * c * 2 * u) by nia.
          assert (m / u < b * c * 2) by (apply Z.div_lt_upper_bound; lia).
          lia.
        - assert (Hmle : m <= b * c * 2 * u) by nia.
          destruct (Z.eq_dec (m mod u) 0) as [H0|H0].
          + specialize (Hex Hl H0). lia.
          + assert (m / u < b * c * 2) by nia. lia. }
      nia.
Qed.

(** *** The conversion of an integer *)

Lemma Zdigits2_53 (m : Z) : 2 ^ 52 <= m < 2 ^ 53 -> Zdigits2 m = 53.
Proof.
  intros [Hlo Hhi]. assert (0 < m) by (change (2 ^ 52) with 4503599627370496 in Hlo; lia).
  pose proof (Zdigits2_le m 53 ltac:(lia) Hhi).
  pose proof (Zdigits2_ge m 53 Hlo ltac:(lia)). lia.
Qed.

(** An integer below [2^53] is a float: [m * 2^e] with a mantissa of 53
    bits. *)
Lemma of_int_exact (z : Z) :
  0 < z < 2 ^ 53 ->
  exists m e,
    Float64.of_int z = S754_finite false m e /\
    e = Zdigits2 z - 53 /\ -52 <= e <= 0 /\
    2 ^ 52 <= Z.pos m < 2 ^ 53 /\
    Z.pos m = z * 2 ^ (- e).
Proof.
  intros [Hz Hhi]. destruct z as [|p|p]; try lia.
  destruct (Zdigits2_bounds (Z.pos p) Hz) as [Hd [Hlo _]].
  pose proof (Zdigits2_le (Z.pos p) 53 Hz Hhi) as Hd53.
  unfold Float64.of_int, binary_normalize, binary_round, Float64.prec,
    Float64.emax.
  rewrite fexp_binary64. change (Z.pos (digits2_pos p)) with (Zdigits2 (Z.pos p)).
  set (d := Zdigits2 (Z.pos p)) in *.
  destruct (shl_align_spec p 0 (Z.max (d + 0 - 53) (-1074))) as (mz & Hal & Hmz).
  rewrite Hal. replace (Z.min 0 (Z.max (d + 0 - 53) (-1074))) with (d - 53) in * by lia.
  replace (0 - (d - 53)) with (53 - d) in Hmz by lia.
  assert (Hbits : 2 ^ 52 <= Z.pos mz < 2 ^ 53).
  { rewrite Hmz. split.
    - replace 52 with ((d - 1) + (53 - d)) by lia.
      rewrite Z.pow_add_r by lia. apply Z.mul_le_mono_nonneg_r; [|exact Hlo].
      apply Z.pow_nonneg. lia.
    - replace 53 with (d + (53 - d)) at 2 by lia.
      rewrite Z.pow_add_r by lia. apply Z.mul_lt_mono_pos_r.
      + apply Z.pow_pos_nonneg; lia.
      + apply (Zdigits2_bounds (Z.pos p) Hz). }
  pose proof (Zdigits2_53 _ Hbits) as Hd53'.
  destruct (binary_round_aux_faithful false (Z.pos mz) (d - 53) loc_Exact
              ltac:(lia) ltac:(lia) ltac:(lia))
    as (m1 & Hm1 & _ & Hex & Hres).
  rewrite Hd53' in Hex, Hres. change (Z.max 0 (53 - 53)) with 0 in Hex, Hres.
  rewrite Z.div_1_r in Hex. specialize (Hex eq_refl (Z.mod_1_r _)). subst m1.
  assert (Hlt : (Z.pos mz <? 2 ^ 53) = true) by (apply Z.ltb_lt; lia).
  rewrite Hlt, Z.add_0_r in Hres. cbn [Z.to_pos] in Hres.
  exists mz, (d - 53). split; [exact Hres|].
  split; [reflexivity|]. split; [lia|]. split; [exact Hbits|].
  rewrite Hmz. f_equal. f_equal. lia.
Qed.

(** *** The quotient *)

Lemma new_location_exact (nb_steps : Z) : new_location nb_steps 0 = loc_Exact.
Proof.
  unfold new_location, new_location_even, new_location_odd.
  now destruct (Z.even nb_steps).
Qed.

(** The quotient of two floats with mantissas of 53 bits: the integer
    quotient [q] of the mantissas, the first scaled by [2^53], rounded. *)
Lemma div_finite (m1 m2 : positive) (e1 e2 : Z) :
  2 ^ 52 <= Z.pos m1 < 2 ^ 53 -> 2 ^ 52 <= Z.pos m2 < 2 ^ 53 ->
  -1000 <= e1 - e2 <= 1000 ->
  Float64.div (S754_finite false m1 e1) (S754_finite false m2 e2)
  = binary_round_aux 53 1024 false
      (Z.pos m1 * 2 ^ 53 / Z.pos m2) (e1 - e2 - 53)
      (new_location (Z.pos m2) (Z.pos m1 * 2 ^ 53 mod Z.pos m2)).
Proof.
  intros H1 H2 He.
  unfold Float64.div, SFdiv, SFdiv_core_binary, Float64.prec, Float64.emax.
  rewrite !fexp_binary64, (Zdigits2_53 _ H1), (Zdigits2_53 _ H2).
  replace (Z.min (Z.max (53 + e1 - (53 + e2) - 53) (-1074)) (e1 - e2))
    with (e1 - e2 - 53) by lia.
  replace (e1 - e2 - (e1 - e2 - 53)) with 53 by lia.
  rewrite Z.shiftl_mul_pow2 by lia.
  pose proof (Z_div_mod (Z.pos m1 * 2 ^ 53) (Z.pos m2) ltac:(lia)) as Hdm.
  unfold Z.div, Z.modulo.
  destruct (Z.div_eucl (Z.pos m1 * 2 ^ 53) (Z.pos m2)) as [q r].
  reflexivity.
Qed.

(** The quotient [S/N], rounded to a float, lies between [k - 1/2] and
    [k + 1/2 - 1/32], where [k] is [S/N] rounded half up. *)
Lemma div_between (S N : Z) :
  0 < S < 2 ^ 46 -> 1 <= N <= 16 ->
  exists mD eD,
    Float64.div (Float64.of_int S) (Float64.of_int N)
    = S754_finite false mD eD /\
    -1000 <= eD <= -6 /\
    (2 * ((2 * S + N) / (2 * N)) - 1) * 2 ^ (- eD) <= Z.pos mD * 2 /\
    Z.pos mD * 32 <= (32 * ((2 * S + N) / (2 * N)) + 15) * 2 ^ (- eD).
Proof.
  intros HS HN. set (k := (2 * S + N) / (2 * N)).
  assert (Hk : 2 * N * k <= 2 * S + N < 2 * N * (k + 1)).
  { pose proof (Z.div_mod (2 * S + N) (2 * N) ltac:(lia)) as Hdm.
    pose proof (Z.mod_pos_bound (2 * S + N) (2 * N) ltac:(lia)).
    fold k in Hdm. lia. }
  assert (Hlo : (2 * k - 1) * N <= 2 * S) by lia.
  assert (Hhi : 32 * S <= (32 * k + 15) * N) by lia.
  destruct (of_int_exact S) as (mS & eS & HofS & HeS & HrS & HbS & HvS).
  { split; [lia|]. apply Z.lt_trans with (2 ^ 46); [lia | reflexivity]. }
  destruct (of_int_exact N) as (mN & eN & HofN & HeN & HrN & HbN & HvN).
  { split; [lia|]. apply Z.le_lt_trans with 16; [lia | reflexivity]. }
  assert (HdS : Zdigits2 S <= 46) by (apply Zdigits2_le; lia).
  assert (HdN : 1 <= Zdigits2 N <= 5).
  { split.
    - pose proof (Zdigits2_bounds N ltac:(lia)). lia.
    - apply Zdigits2_le; [lia|]. change (2 ^ 5) with 32. lia. }
  rewrite HofS, HofN, div_finite by (assumption || lia).
  set (e' := eS - eN - 53).
  set (q := Z.pos mS * 2 ^ 53 / Z.pos mN).
  set (r := Z.pos mS * 2 ^ 53 mod Z.pos mN).
  assert (He' : -58 <= e' <= -8) by (unfold e'; lia).
  assert (Hqr : Z.pos mS * 2 ^ 53 = Z.pos mN * q + r)
    by (apply Z.div_mod; lia).
  assert (Hr : 0 <= r < Z.pos mN) by (apply Z.mod_pos_bound; lia).
  assert (Hq : 2 ^ 52 <= q < 2 ^ 54).
  { split.
    - apply Z.div_le_lower_bound; [lia|].
      change (2 ^ 53) with 9007199254740992 in *.
      change (2 ^ 52) with 4503599627370496 in *. nia.
    - apply Z.div_lt_upper_bound; [lia|].
      change (2 ^ 54) with 18014398509481984.
      change (2 ^ 53) with 9007199254740992 in *.
      change (2 ^ 52) with 4503599627370496 in *. nia. }
  assert (Hq0 : 0 < q) by (change (2 ^ 52) with 4503599627370496 in Hq; lia).
  assert (Hdq : Zdigits2 q <= 54) by (apply Zdigits2_le; lia).
  destruct (binary_round_aux_between false q e' (new_location (Z.pos mN) r)
              Hq0 ltac:(lia) ltac:(lia))
    as (mf & ef & Hres & Hef & Hlower & Hupper).
  exists mf, ef. split; [exact Hres|]. split; [lia|].
  (* the scales of the three exponents *)
  set (A := 2 ^ (- eS)) in *. set (C := 2 ^ (- eN)) in *.
  set (E' := 2 ^ (- e' - 1)).
  assert (HA : 0 < A) by (apply Z.pow_pos_nonneg; lia).
  assert (HC : 0 < C) by (apply Z.pow_pos_nonneg; lia).
  assert (HE' : 0 < E') by (apply Z.pow_pos_nonneg; lia).
  assert (HE : 2 ^ (- e') = 2 * E').
  { unfold E'. rewrite <- Z.pow_succ_r by lia. f_equal. lia. }
  assert (HEC : 2 * E' * C = 2 ^ 53 * A).
  { rewrite <- HE. unfold C, A. rewrite <- !Z.pow_add_r by lia.
    f_equal. unfold e'. lia. }
  assert (Hmain : S * (2 * E') * C = N * C * q + r).
  { rewrite HvS, HvN in Hqr. fold A C in Hqr. rewrite <- Hqr.
    replace (S * (2 * E') * C) with (S * (2 * E' * C)) by ring.
    rewrite HEC. ring. }
  split.
  - apply (Hlower (2 * k - 1) 1); [lia|].
    rewrite HE. change (2 ^ 1) with 2.
    assert ((2 * k - 1) * E' <= q); [|lia].
    destruct (Z_le_gt_dec ((2 * k - 1) * E') q) as [|Hgt]; [assumption|].
    exfalso.
    assert (H1 : (q + 1) * (N * C) <= (2 * k - 1) * E' * (N * C)).
    { apply Z.mul_le_mono_nonneg_r; lia. }
    assert (H2 : (2 * k - 1) * N * (E' * C) <= 2 * S * (E' * C)).
    { apply Z.mul_le_mono_nonneg_r; [|exact Hlo]. nia. }
    rewrite HvN in Hr. fold C in Hr. nia.
  - apply (Hupper (32 * k + 15) 5); [lia|].
    rewrite HE. change (2 ^ 5) with 32.
    assert (H2 : 32 * S * (2 * E' * C) <= (32 * k + 15) * N * (2 * E' * C)).
    { apply Z.mul_le_mono_nonneg_r; [|exact Hhi]. nia. }
    assert (HNC : 0 < N * C) by nia.
    destruct (Z.eq_dec r 0) as [Hr0|Hr0].
    + right. split; [rewrite Hr0; apply new_location_exact|].
      assert (q * 32 * (N * C) <= (32 * k + 15) * (2 * E') * (N * C)) by nia.
      apply Z.mul_le_mono_pos_r with (N * C); assumption.
    + left.
      assert (q * 32 * (N * C) < (32 * k + 15) * (2 * E') * (N * C)) by nia.
      apply Z.mul_lt_mono_pos_r with (N * C); assumption.
Qed.

(** *** Adding one half, and cutting the fraction *)

(** Adding one half to a float between [k - 1/2] and [k + 1/2 - 1/32]
    gives a float between [k] and [k + 1 - 1/32]. *)
Lemma add_half_between (mD : positive) (eD k : Z) :
  -1000 <= eD <= -6 -> 0 <= k < 2 ^ 46 ->
  (2 * k - 1) * 2 ^ (- eD) <= Z.pos mD * 2 ->
  Z.pos mD * 32 <= (32 * k + 15) * 2 ^ (- eD) ->
  exists mA eA,
    Float64.add (S754_finite false mD eD) Float64.half
    = S754_finite false mA eA /\
    -1074 <= eA <= -5 /\
    k * 2 ^ (- eA) <= Z.pos mA /\
    Z.pos mA * 32 <= (32 * k + 31) * 2 ^ (- eA).
Proof.
  intros HeD Hk Hlo Hhi.
  unfold Float64.add, Float64.half, SFadd, Float64.prec, Float64.emax.
  set (ez := Z.min eD (-53)).
  destruct (shl_align_spec mD eD ez) as (a & Ha & Hav).
  destruct (shl_align_spec (2 ^ 52) (-53) ez) as (b & Hb & Hbv).
  rewrite Ha, Hb. cbn [fst cond_Zopp].
  replace (Z.min eD ez) with ez in * by (unfold ez; lia).
  replace (Z.min (-53) ez) with ez in * by (unfold ez; lia).
  change (Z.pos a + Z.pos b) with (Z.pos (a + b)).
  unfold binary_normalize, binary_round. rewrite fexp_binary64.
  set (ex' := Z.max (Z.pos (digits2_pos (a + b)) + ez - 53) (-1074)).
  destruct (shl_align_spec (a + b) ez ex') as (mz & Hmz & Hmzv).
  rewrite Hmz. set (ez2 := Z.min ez ex') in *.
  assert (Hez2 : -1074 <= ez2 <= -53) by (unfold ez2, ex', ez; lia).
  (* the aligned sum, in units of [2^ez2] *)
  set (P := 2 ^ (- eD)) in *.
  set (T := 2 ^ (eD - ez2)).
  set (H := 2 ^ (- 1 - ez2)).
  assert (HP : 0 < P) by (apply Z.pow_pos_nonneg; lia).
  assert (HT : 0 < T) by (apply Z.pow_pos_nonneg; unfold ez in *; lia).
  assert (HH : 0 < H) by (apply Z.pow_pos_nonneg; lia).
  assert (HW : 2 ^ (- ez2) = 2 * H).
  { unfold H. rewrite <- Z.pow_succ_r by lia. f_equal. lia. }
  assert (HPT : P * T = 2 * H).
  { rewrite <- HW. unfold P, T. rewrite <- Z.pow_add_r by (unfold ez in *; lia).
    f_equal. lia. }
  assert (Hsum : Z.pos mz = Z.pos mD * T + H).
  { assert (E1 : 2 ^ (eD - ez) * 2 ^ (ez - ez2) = T).
    { unfold T. rewrite <- Z.pow_add_r by (unfold ez in *; lia).
      f_equal. lia. }
    assert (E2 : 2 ^ 52 * 2 ^ (-53 - ez) * 2 ^ (ez - ez2) = H).
    { unfold H. rewrite <- !Z.pow_add_r by (unfold ez in *; lia).
      f_equal. lia. }
    rewrite Hmzv, Pos2Z.inj_add, Hav, Hbv, Z.mul_add_distr_r.
    change (Z.pos (2 ^ 52)) with (2 ^ 52).
    rewrite E2, <- Z.mul_assoc, E1. reflexivity. }
  assert (Hlo' : k * (2 * H) <= Z.pos mz).
  { rewrite Hsum. assert ((2 * k - 1) * P * T <= Z.pos mD * 2 * T).
    { apply Z.mul_le_mono_nonneg_r; lia. }
    nia. }
  assert (Hhi' : Z.pos mz * 32 <= (32 * k + 31) * (2 * H)).
  { rewrite Hsum. assert (Z.pos mD * 32 * T <= (32 * k + 15) * P * T).
    { apply Z.mul_le_mono_nonneg_r; lia. }
    nia. }
  assert (Hdz : Zdigits2 (Z.pos mz) <= 46 - ez2).
  { apply Zdigits2_le; [lia|].
    replace (46 - ez2) with (46 + (- ez2)) by lia.
    rewrite Z.pow_add_r, HW by lia. nia. }
  destruct (binary_round_aux_between false (Z.pos mz) ez2 loc_Exact
              ltac:(lia) ltac:(lia) ltac:(lia))
    as (mf & ef & Hres & Hef & Hlower & Hupper).
  exists mf, ef. split; [exact Hres|]. split; [lia|]. split.
  - specialize (Hlower k 0 ltac:(lia)). rewrite HW in Hlower.
    change (2 ^ 0) with 1 in Hlower. rewrite !Z.mul_1_r in Hlower.
    apply Hlower. exact Hlo'.
  - apply (Hupper (32 * k + 31) 5); [lia|].
    right. split; [reflexivity|]. rewrite HW. change (2 ^ 5) with 32.
    exact Hhi'.
Qed.

(** [int64] of a float between [k] and [k + 1 - 1/32] is [k]. *)
Lemma to_int64_between (m : positive) (e k : Z) :
  e < 0 -> 0 <= k < 2 ^ 46 ->
  k * 2 ^ (- e) <= Z.pos m ->
  Z.pos m * 32 <= (32 * k + 31) * 2 ^ (- e) ->
  Float64.to_int64 (S754_finite false m e) = k.
Proof.
  intros He Hk Hlo Hhi. unfold Float64.to_int64.
  assert (Hneg : (0 <=? e) = false) by (apply Z.leb_gt; lia).
  rewrite Hneg.
  assert (HQ : 0 < 2 ^ (- e)) by (apply Z.pow_pos_nonneg; lia).
  assert (Hmag : Z.pos m / 2 ^ (- e) = k).
  { symmetry. apply Z.div_unique with (Z.pos m - 2 ^ (- e) * k); [|lia].
    left. nia. }
  rewrite Hmag.
  assert (Hin : ((- 2 ^ 63 <=? k) && (k <? 2 ^ 63)) = true).
  { change (2 ^ 63) with 9223372036854775808.
    change (2 ^ 46) with 70368744177664 in Hk.
    apply andb_true_iff. split; [apply Z.leb_le | apply Z.ltb_lt]; lia. }
  now rewrite Hin.
Qed.

(** The size of each volume is the total size divided by the number of
    volumes, rounded to the nearest integer, half up. *)
Lemma splitSize_rounds_half_up (S N : Z) :
  0 <= S < 2 ^ 46 -> 1 <= N <= 16 ->
  exsmount.splitSize S N = (2 * S + N) / (2 * N).
Proof.
  intros HS HN. unfold exsmount.splitSize.
  assert (Hk : 0 <= (2 * S + N) / (2 * N) < 2 ^ 46).
  { split.
    - apply Z.div_pos; lia.
    - apply Z.div_lt_upper_bound; [lia|].
      change (2 ^ 46) with 70368744177664 in *. nia. }
  destruct (Z.eq_dec S 0) as [->|HS0].
  - destruct (of_int_exact N) as (mN & eN & HofN & _).
    { split; [lia|]. apply Z.le_lt_trans with 16; [lia | reflexivity]. }
    rewrite HofN. cbn.
    symmetry. apply Z.div_small. lia.
  - destruct (div_between S N ltac:(lia) HN) as (mD & eD & Hdiv & HeD & Hlo & Hhi).
    rewrite Hdiv.
    destruct (add_half_between mD eD _ HeD Hk Hlo Hhi)
      as (mA & eA & Hadd & HeA & Hlo' & Hhi').
    rewrite Hadd. apply to_int64_between; (assumption || lia).
Qed.

(** The total of [n] volumes of that size is within [n/2] of the size
    asked for. *)
Lemma splitSize_total (S N : Z) :
  0 <= S < 2 ^ 46 -> 1 <= N <= 16 ->
  2 * Z.abs (N * exsmount.splitSize S N - S) <= N.
Proof.
  intros HS HN. rewrite splitSize_rounds_half_up by assumption.
  pose proof (Z.div_mod (2 * S + N) (2 * N) ltac:(lia)) as Hdm.
  pose proof (Z.mod_pos_bound (2 * S + N) (2 * N) ltac:(lia)) as Hmod.
  lia.
Qed.

(** ** C10: the size of each volume *)

Section Emits.

Variable P : Call -> Prop.

Lemma emits_ret {A} (a : A) : emits P (eff_ret a).
Proof. intros h tr. exists []. split; [now rewrite app_nil_r | constructor]. Qed.

Lemma emits_panic {A} (msg : string) : emits P (@panic A msg).
Proof. intros h tr. exists []. split; [now rewrite app_nil_r | constructor]. Qed.

Lemma emits_exit {A} (msg : string) : emits P (@exit A msg).
Proof. intros h tr. exists []. split; [now rewrite app_nil_r | constructor]. Qed.

Lemma emits_call (c : Call) : P c -> emits P (call c).
Proof. intros Hc h tr. exists [c]. split; [reflexivity | now constructor]. Qed.

Lemma emits_bind {A B} (m : Eff A) (k : A -> Eff B) :
emits P m -> (forall a, emits P (k a)) -> emits P (eff_bind m k).
Proof.
intros Hm Hk h tr. destruct (Hm h tr) as (ext1 & Htr1 & HP1).
unfold eff_bind. destruct (m h tr) as [[a|msg|msg] tr1]; cbn [snd] in *;
  subst tr1; try (exists ext1; split; [reflexivity | assumption]).
destruct (Hk a h (tr ++ ext1)) as (ext2 & Htr2 & HP2).
exists (ext1 ++ ext2). split.
- now rewrite Htr2, app_assoc.
- now apply Forall_app.
Qed.

End Emits.

(** Splits an [emits] goal along the structure of the computation. *)
Ltac emits_step :=
  lazymatch goal with
  | |- emits _ (eff_ret _) => apply emits_ret
  | |- emits _ (panic _) => apply emits_panic
  | |- emits _ (exit _) => apply emits_exit
  | |- emits _ (call _) => apply emits_call; exact I
  | |- emits _ (eff_bind _ _) => apply emits_bind; [|intros ?]
  | |- emits _ (match ?x with _ => _ end) => destruct x
  end.

Section CreatedSizes.

Variable size : Z.

Lemma waitLoop_sized region volumeId status fuel :
forall i xstatus,
  emits (sized size) (exsmount.waitLoop region volumeId status fuel i xstatus).
Proof.
induction fuel as [|fuel IH]; intros i xstatus; cbn [exsmount.waitLoop];
  repeat emits_step; apply IH.
Qed.

Lemma WaitForVolumeStatus_sized region volumeId status :
emits (sized size) (exsmount.WaitForVolumeStatus region volumeId status).
Proof.
unfold exsmount.WaitForVolumeStatus. repeat emits_step.
apply waitLoop_sized.
Qed.

Lemma Create_sized region iid typ iops is_ :
emits (sized size) (exsmount.Create region iid size typ iops is_).
Proof.
unfold exsmount.Create. apply emits_bind.
- apply emits_call. reflexivity.
- intros [volumeId e]. repeat emits_step. apply WaitForVolumeStatus_sized.
Qed.

Lemma findNextDevNode_sized prefix suffixChars :
emits (sized size) (exsmount.findNextDevNode prefix suffixChars).
Proof.
induction suffixChars as [|s suffixChars IH]; cbn [exsmount.findNextDevNode];
  repeat emits_step; apply IH.
Qed.

Lemma waitForDevice_sized device :
emits (sized size) (exsmount.waitForDevice device).
Proof.
unfold exsmount.waitForDevice. generalize 30%nat as fuel.
induction fuel as [|fuel IH]; cbn [exsmount.waitForDevice_loop];
  repeat emits_step; apply IH.
Qed.

Lemma makeDir_sized path : emits (sized size) (exsmount.makeDir path).
Proof. unfold exsmount.makeDir. repeat emits_step. Qed.

Lemma DeleteOnTermination_sized region instanceId volumeId attachDevice :
emits (sized size)
  (exsmount.DeleteOnTermination region instanceId volumeId attachDevice).
Proof. unfold exsmount.DeleteOnTermination. repeat emits_step. Qed.

Lemma attachLoop_sized region iid volumeId prefix err fuel :
forall k st,
  emits (sized size)
    (exsmount.attachLoop region iid volumeId prefix err fuel k st).
Proof.
induction fuel as [|fuel IH]; intros k st; cbn [exsmount.attachLoop].
- apply emits_ret.
- apply emits_bind; [apply findNextDevNode_sized | intros attachDevice].
  repeat emits_step;
    first [apply IH | apply WaitForVolumeStatus_sized
          | apply waitForDevice_sized].
Qed.

Lemma prefixLoop_sized region iid volumeId err prefixes :
forall st,
  emits (sized size) (exsmount.prefixLoop region iid volumeId err prefixes st).
Proof.
induction prefixes as [|prefix prefixes IH]; intros st;
  cbn [exsmount.prefixLoop]; repeat emits_step;
  first [apply IH | apply attachLoop_sized].
Qed.

Lemma volumeLoop_sized region iid cli fuel :
exsmount.Size cli = size ->
forall i devices volumes,
  emits (sized size)
    (exsmount.volumeLoop region iid cli fuel i devices volumes).
Proof.
intros Hsize.
induction fuel as [|fuel IH]; intros i devices volumes;
  cbn [exsmount.volumeLoop]; rewrite ?Hsize.
- apply emits_ret.
- apply emits_bind; [apply Create_sized | intros [rsp err]].
  apply emits_bind.
  + destruct err as [cerr|]; [|apply emits_ret].
    destruct (Strings.Contains _ _); [|apply emits_ret].
    apply emits_bind; [apply emits_call; exact I | intros r].
    apply emits_bind; [apply emits_call; exact I | intros _].
    apply emits_bind; [apply Create_sized | intros [rsp2 err2]].
    destruct err2; apply emits_ret.
  + intros [e|volumeId]; [apply emits_ret|].
    apply emits_bind; [apply emits_call; exact I | intros _].
    apply emits_bind; [apply prefixLoop_sized | intros [early|st]];
      [apply emits_ret|].
    destruct (negb (exsmount.st_attached st)); [apply emits_ret|].
    apply emits_bind.
    * destruct (negb (exsmount.Keep cli)); [|apply emits_ret].
      apply emits_bind; [apply DeleteOnTermination_sized | intros [derr|]];
        apply emits_ret.
    * intros [derr|]; [apply emits_ret | apply IH].
Qed.

End CreatedSizes.

Lemma checkIops_keeps_size (cli cli' : exsmount.Args) :
  exsmount.checkIops cli = inr cli' ->
  exsmount.Size cli' = exsmount.Size cli /\ exsmount.N cli' = exsmount.N cli.
Proof.
  unfold exsmount.checkIops.
  repeat match goal with
         | |- context [if ?b then _ else _] => destruct b
         end; intros [= <-]; split; reflexivity.
Qed.

(** Every volume that [CreateAttach] creates has the size that line 312
    computes. *)
Lemma CreateAttach_sized (cli : exsmount.Args) :
  emits (sized (exsmount.splitSize (exsmount.Size cli) (exsmount.N cli)))
    (exsmount.CreateAttach cli).
Proof.
  unfold exsmount.CreateAttach.
  apply emits_bind; [apply emits_call; exact I | intros [iid e]].
  destruct e; [apply emits_ret|].
  apply emits_bind; [apply emits_call; exact I | intros e].
  destruct e; [apply emits_ret|].
  destruct (exsmount.checkIops cli) as [err|cli'] eqn:Hcheck; [apply emits_ret|].
  destruct (checkIops_keeps_size _ _ Hcheck) as [-> ->].
  apply emits_bind.
  - apply volumeLoop_sized. reflexivity.
  - intros [early|[devices volumes]]; [apply emits_ret|].
    repeat emits_step. apply makeDir_sized.
Qed.

(** C10 (as amended). For a total size [0 <= S < 2^46] and a number of
    volumes [1 <= N <= 16]: line 312 computes [S/N] rounded to the nearest
    integer, half up; every volume that [CreateAttach] creates has that
    size; [N] volumes of that size differ from [S] by at most [N/2]; and
    for an even [N] the difference [N/2] is reached, at [S = N/2]. *)
Theorem volume_size_rounds_half_up (cli : exsmount.Args) (h : Host) :
  0 <= exsmount.Size cli < 2 ^ 46 ->
  1 <= exsmount.N cli <= 16 ->
  exsmount.splitSize (exsmount.Size cli) (exsmount.N cli)
  = (2 * exsmount.Size cli + exsmount.N cli) / (2 * exsmount.N cli)
  /\
  (forall region az size typ iops name,
     In (ec2_CreateVolume region az size typ iops name)
        (snd (run (exsmount.CreateAttach cli) h)) ->
     size = (2 * exsmount.Size cli + exsmount.N cli) / (2 * exsmount.N cli))
  /\
  2 * Z.abs (exsmount.N cli
             * exsmount.splitSize (exsmount.Size cli) (exsmount.N cli)
             - exsmount.Size cli) <= exsmount.N cli
  /\
  (Z.even (exsmount.N cli) = true ->
   2 * (exsmount.N cli * exsmount.splitSize (exsmount.N cli / 2) (exsmount.N cli)
        - exsmount.N cli / 2) = exsmount.N cli).
Proof.
  intros HS HN.
  pose proof (splitSize_rounds_half_up _ _ HS HN) as Hround.
  split; [exact Hround|]. split; [|split].
  - intros region az size typ iops name Hin.
    destruct (CreateAttach_sized cli h []) as (ext & Htr & Hall).
    unfold run in Hin. rewrite Htr in Hin. cbn [app] in Hin.
    rewrite List.Forall_forall in Hall. specialize (Hall _ Hin).
    cbn in Hall. now rewrite <- Hround.
  - now apply splitSize_total.
  - intros Heven.
    assert (Hhalf : exsmount.N cli = 2 * (exsmount.N cli / 2)).
    { apply Z.even_spec in Heven as [j Hj]. rewrite Hj at 1.
      rewrite Hj, Z.mul_comm, Z.div_mul by lia. lia. }
    set (j := exsmount.N cli / 2) in *.
    rewrite splitSize_rounds_half_up
      by (change (2 ^ 46) with 70368744177664; lia).
    replace (2 * j + exsmount.N cli) with (1 * (2 * exsmount.N cli)) by lia.
    rewrite Z.div_mul by lia. lia.
Qed.

Lemma volume_size_rounds_half_up_witness :
  exsmount.splitSize 200 3 = 67 /\
  calls (fun c => match c with ec2_CreateVolume _ _ _ _ _ _ => true | _ => false end)
    (snd (run (exsmount.CreateAttach
                 (Examples_provisioning.request "gp2" "ext4" 200 0 3))
              Examples_provisioning.obliging))
  = [ec2_CreateVolume "us-east-1" "us-east-1a" 67 "gp2" None "batchit-i-0abc-0";
     ec2_CreateVolume "us-east-1" "us-east-1a" 67 "gp2" None "batchit-i-0abc-1";
     ec2_CreateVolume "us-east-1" "us-east-1a" 67 "gp2" None "batchit-i-0abc-2"]
  /\ 2 * Z.abs (3 * 67 - 200) <= 3.
Proof.
  destruct (volume_size_rounds_half_up
              (Examples_provisioning.request "gp2" "ext4" 200 0 3)
              Examples_provisioning.obliging) as (Hround & _ & Htotal & _).
  - cbn. lia.
  - cbn. lia.
  - split; [exact Hround|]. split; [vm_compute; reflexivity|].
    rewrite Hround in Htotal. exact Htotal.
Defined.

(** C10 (as stated) fails for a size that [float64] cannot hold: for the
    total size [2^54 + 2] and two volumes, half the size is [2^53 + 1],
    and each volume is asked to have the size [2^53]. *)
Lemma volume_size_beyond_float64 :
  exsmount.splitSize (2 ^ 54 + 2) 2 = 2 ^ 53 /\
  (2 * (2 ^ 54 + 2) + 2) / (2 * 2) = 2 ^ 53 + 1 /\
  In (ec2_CreateVolume "us-east-1" "us-east-1a" (2 ^ 53) "gp2" None
        "batchit-i-0abc-0")
     (snd (run (exsmount.CreateAttach
                  (Examples_provisioning.request "gp2" "ext4" (2 ^ 54 + 2) 0 2))
               Examples_provisioning.obliging)).
Proof.
  split; [vm_compute; reflexivity|]. split; [vm_compute; reflexivity|].
  vm_compute. tauto.
Qed.

(** * Further properties of the code *)

(** ** The mount table *)

Lemma init_last (s : string) :
  s <> EmptyString ->
  exists c,
    s = Strings.init s +:+ String c EmptyString /\
    last_char s = Some c /\
    String.get (String.length s - 1) s = Some c /\
    String.length (Strings.init s) = (String.length s - 1)%nat.
Proof.
  induction s as [|a s IH]; [congruence|]. intros _.
  destruct s as [|b s].
  - exists a. repeat split.
  - destruct (IH ltac:(discriminate)) as (c & Heq & Hlast & Hget & Hlen).
    exists c. split; [|split; [|split]].
    + change (String a (String b s)
              = String a (Strings.init (String b s) +:+ String c EmptyString)).
      f_equal. exact Heq.
    + exact Hlast.
    + cbn [String.length] in *. replace (S (S (String.length s)) - 1)%nat
        with (S (S (String.length s) - 1)) by lia. exact Hget.
    + change (Strings.init (String a (String b s)))
        with (String a (Strings.init (String b s))).
      cbn [String.length] in *. lia.
Qed.

Lemma string_app_assoc (a b c : string) :
  (a +:+ b) +:+ c = a +:+ (b +:+ c).
Proof.
  induction a as [|x a IH]; [reflexivity|].
  change (String x ((a +:+ b) +:+ c) = String x (a +:+ (b +:+ c))).
  now rewrite IH.
Qed.

Lemma string_app_nil_r (a : string) : a +:+ EmptyString = a.
Proof.
  induction a as [|x a IH]; [reflexivity|].
  change (String x (a +:+ EmptyString) = String x a). now rewrite IH.
Qed.

Lemma all_digits_app (a b : string) :
  all_digits (a +:+ b) = all_digits a && all_digits b.
Proof.
  induction a as [|x a IH]; [reflexivity|].
  change (Strings.is_digit x && all_digits (a +:+ b)
          = Strings.is_digit x && all_digits a && all_digits b).
  rewrite IH. now rewrite Bool.andb_assoc.
Qed.

Lemma strip_digits_spec (fuel : nat) :
  forall dev,
    (String.length dev <= fuel)%nat ->
    let r := exsmount.strip_digits fuel (Strings.len dev - 1) dev in
    exists digits,
      dev = r +:+ digits /\ all_digits digits = true /\
      ((String.length dev <= 2)%nat -> r = dev) /\
      ((2 < String.length dev)%nat -> (2 <= String.length r)%nat) /\
      ((2 < String.length r)%nat ->
       exists c, last_char r = Some c /\ Strings.is_digit c = false).
Proof.
  induction fuel as [|fuel IH]; intros dev Hfuel; cbn zeta.
  - destruct dev; [|cbn in Hfuel; lia]. exists EmptyString. cbn.
    repeat split; try lia; auto.
  - cbn [exsmount.strip_digits]. unfold Strings.len.
    destruct (Z.ltb_spec 1 (Z.of_nat (String.length dev) - 1)) as [Hi|Hi].
    + assert (Hne : dev <> EmptyString) by (destruct dev; [cbn in Hi; lia | discriminate]).
      destruct (init_last dev Hne) as (c & Heq & Hlast & Hget & Hlen).
      replace (Z.to_nat (Z.of_nat (String.length dev) - 1))
        with (String.length dev - 1)%nat by lia.
      rewrite Hget. destruct (Strings.is_digit c) eqn:Hc.
      * specialize (IH (Strings.init dev) ltac:(lia)). cbn zeta in IH.
        unfold Strings.len in IH. rewrite Hlen in IH.
        replace (Z.of_nat (String.length dev - 1) - 1)
          with (Z.of_nat (String.length dev) - 1 - 1) in IH by lia.
        destruct IH as (digits & Hd & Hall & Hshort & Hlong & Hstop).
        exists (digits +:+ String c EmptyString). split; [|split; [|split; [|split]]].
        -- rewrite <- string_app_assoc, <- Hd. exact Heq.
        -- rewrite all_digits_app, Hall. cbn. now rewrite Hc.
        -- intros ?. exfalso. lia.
        -- intros _. destruct (le_lt_dec (String.length dev - 1) 2) as [Hle|Hgt].
           ++ rewrite (Hshort Hle). lia.
           ++ now apply Hlong.
        -- exact Hstop.
      * exists EmptyString. split; [|split; [|split; [|split]]].
        -- now rewrite string_app_nil_r.
        -- reflexivity.
        -- reflexivity.
        -- lia.
        -- intros _. now exists c.
    + exists EmptyString. split; [|split; [|split; [|split]]].
      * now rewrite string_app_nil_r.
      * reflexivity.
      * reflexivity.
      * lia.
      * lia.
Qed.

(** X1. The name that the mount table adds for a mounted device is the
    device name with a run of trailing digits removed; a name of at most
    two characters is kept whole, a longer name keeps at least two
    characters, and a result longer than two characters does not end in a
    digit. *)
Theorem strippedName_spec (dev : string) :
  exists digits,
    dev = strippedName dev +:+ digits /\ all_digits digits = true /\
    ((String.length dev <= 2)%nat -> strippedName dev = dev) /\
    ((2 < String.length dev)%nat -> (2 <= String.length (strippedName dev))%nat) /\
    ((2 < String.length (strippedName dev))%nat ->
     exists c, last_char (strippedName dev) = Some c /\
               Strings.is_digit c = false).
Proof. apply (strip_digits_spec (String.length dev) dev). lia. Qed.

Lemma mountedDevices_lines_returns (lines : list string) :
  (forall line, In line lines -> Strings.first_field line <> None) ->
  forall m0, exists m,
    exsmount.mountedDevices_lines lines m0 = Returns m /\
    (forall k, is_Some (m0 !! k) -> is_Some (m !! k)) /\
    (forall k, named_in lines k -> is_Some (m !! k)) /\
    (forall k, is_Some (m !! k) -> is_Some (m0 !! k) \/ named_in lines k).
Proof.
  induction lines as [|line lines IH]; intros Hfields m0.
  - exists m0. split; [reflexivity|]. split; [auto|]. split; [|auto].
    intros k (l & d & [] & _).
  - cbn [exsmount.mountedDevices_lines].
    destruct (Strings.first_field line) as [dev|] eqn:Hdev.
    2:{ exfalso. apply (Hfields line); [now left | exact Hdev]. }
    fold (strippedName dev).
    destruct (IH (fun l Hl => Hfields l (or_intror Hl))
                 (<[strippedName dev := true]> (<[dev := true]> m0)))
      as (m & Hrun & Hmono & Hnamed & Hback).
    exists m. split; [exact Hrun|]. split; [|split].
    + intros k Hk. apply Hmono.
      rewrite !lookup_insert. repeat case_decide; eauto.
    + intros k (l & d & [<-|Hl] & Hd & Hk).
      * rewrite Hdev in Hd. injection Hd as <-. apply Hmono.
        rewrite !lookup_insert. destruct Hk as [->| ->];
          repeat case_decide; eauto; congruence.
      * apply Hnamed. exists l, d. auto.
    + intros k Hk. destruct (Hback k Hk) as [Hm1|(l & d & Hl & Hd & Hkd)].
      * rewrite !lookup_insert in Hm1.
        repeat case_decide;
          try (right; exists line, dev;
               split; [now left | split; [exact Hdev | auto]]; fail).
        now left.
      * right. exists l, d. split; [now right | auto].
Qed.

(** X2. When [/proc/mounts] is read to its end and each of its lines has a
    field, the in-use set of [mountedDevices] holds exactly the first field
    of each line, as [strings.Fields] gives it, and that field without its
    trailing digits. *)
Theorem mountedDevices_in_use (h : Host) (tr : list Call) (lines : list string) :
  h tr read_proc_mounts = Lines lines false ->
  (forall line, In line lines -> Strings.first_field line <> None) ->
  exists inUse,
    exsmount.mountedDevices h tr = (Returns inUse, tr ++ [read_proc_mounts]) /\
    forall k, is_Some (inUse !! k) <-> named_in lines k.
Proof.
  intros Hread Hfields.
  destruct (mountedDevices_lines_returns lines Hfields ∅)
    as (m & Hrun & _ & Hnamed & Hback).
  exists m. split.
  - unfold exsmount.mountedDevices, eff_bind. rewrite call_run, Hread, Hrun.
    reflexivity.
  - intros k. split; [|apply Hnamed].
    intros Hk. destruct (Hback k Hk) as [He|Hn]; [|exact Hn].
    rewrite lookup_empty in He. now destruct He.
Qed.

Lemma mountedDevices_in_use_witness :
  exists inUse,
    exsmount.mountedDevices Examples_selection.partition_mounted []
    = (Returns inUse, [read_proc_mounts]) /\
    is_Some (inUse !! "/dev/xvdb1") /\ is_Some (inUse !! "/dev/xvdb").
Proof.
  destruct (mountedDevices_in_use Examples_selection.partition_mounted []
              ["/dev/xvdb1 /data ext4 rw,relatime 0 0"])
    as (inUse & Hrun & Hin).
  - reflexivity.
  - intros line [<-|[]]. discriminate.
  - exists inUse. split; [exact Hrun|].
    split; apply Hin;
      exists "/dev/xvdb1 /data ext4 rw,relatime 0 0", "/dev/xvdb1";
      (split; [now left | split; [reflexivity|]]); [now left | now right].
Defined.

(** ** Calls and results of a computation *)

Section Yields.

Variable P : Call -> Prop.

Lemma yields_ret {A} (Q : A -> Prop) (a : A) : Q a -> yields P Q (eff_ret a).
Proof.
intros Ha h tr. exists []. split; [now rewrite app_nil_r|].
split; [constructor|]. now intros a' [= <-].
Qed.

Lemma yields_panic {A} (Q : A -> Prop) (msg : string) : yields P Q (panic msg).
Proof.
intros h tr. exists []. split; [now rewrite app_nil_r|].
split; [constructor | intros a [=]].
Qed.

Lemma yields_exit {A} (Q : A -> Prop) (msg : string) : yields P Q (exit msg).
Proof.
intros h tr. exists []. split; [now rewrite app_nil_r|].
split; [constructor | intros a [=]].
Qed.

Lemma yields_call (c : Call) (Q : Resp c -> Prop) :
P c -> (forall r, Q r) -> yields P Q (call c).
Proof.
intros Hc HQ h tr. exists [c]. split; [reflexivity|].
split; [now constructor | intros a _; apply HQ].
Qed.

Lemma yields_bind {A B} (Q : A -> Prop) (R : B -> Prop)
  (m : Eff A) (k : A -> Eff B) :
yields P Q m -> (forall a, Q a -> yields P R (k a)) ->
yields P R (eff_bind m k).
Proof.
intros Hm Hk h tr. destruct (Hm h tr) as (ext1 & Htr1 & HP1 & HQ).
unfold eff_bind. destruct (m h tr) as [[a|msg|msg] tr1]; cbn [fst snd] in *;
  subst tr1;
  try (exists ext1; split; [reflexivity|]; split; [assumption|];
       intros b [=]; fail).
destruct (Hk a (HQ a eq_refl) h (tr ++ ext1)) as (ext2 & Htr2 & HP2 & HR).
exists (ext1 ++ ext2). split; [now rewrite Htr2, app_assoc|].
split; [now apply Forall_app | exact HR].
Qed.

Lemma yields_weaken {A} (Q Q' : A -> Prop) (m : Eff A) :
(forall a, Q a -> Q' a) -> yields P Q m -> yields P Q' m.
Proof.
intros HQ Hm h tr. destruct (Hm h tr) as (ext & Htr & HP & Ha).
exists ext. split; [exact Htr|]. split; [exact HP|]. intros a E. auto.
Qed.

Lemma emits_yields {A} (m : Eff A) : emits P m -> yields P (fun _ => True) m.
Proof.
intros Hm h tr. destruct (Hm h tr) as (ext & Htr & HP).
exists ext. split; [exact Htr|]. split; [exact HP | auto].
Qed.

Lemma yields_emits {A} (Q : A -> Prop) (m : Eff A) : yields P Q m -> emits P m.
Proof.
intros Hm h tr. destruct (Hm h tr) as (ext & Htr & HP & _).
exists ext. auto.
Qed.

End Yields.

Lemma emits_weaken (P P' : Call -> Prop) {A} (m : Eff A) :
  (forall c, P c -> P' c) -> emits P m -> emits P' m.
Proof.
  intros HP Hm h tr. destruct (Hm h tr) as (ext & Htr & Hext).
  exists ext. split; [exact Htr|].
  eapply List.Forall_impl; [exact HP | exact Hext].
Qed.

(** ** What [MountLocal] touches *)

Section LocalCalls.

Variable ok : string -> Prop.

Lemma makeDir_local path : emits (local_call ok) (exsmount.makeDir path).
Proof. unfold exsmount.makeDir. repeat emits_step. Qed.

Lemma mkfs_local dev :
ok dev \/ is_raidPath dev -> emits (local_call ok) (exsmount.mkfs "ext4" dev).
Proof.
intros Hdev. unfold exsmount.mkfs. apply emits_bind.
- apply emits_call. left. split; [reflexivity|]. now exists dev.
- intros r. repeat emits_step.
Qed.

Lemma makeAndMount_local dev dir :
ok dev \/ is_raidPath dev ->
emits (local_call ok) (exsmount.makeAndMount dev dir).
Proof.
intros Hdev. unfold exsmount.makeAndMount.
apply emits_bind; [apply makeDir_local | intros [err|]]; [apply emits_ret|].
apply emits_bind.
- apply emits_call. right. left. split; [reflexivity|]. now exists dev, dir.
- intros r. repeat emits_step.
Qed.

Lemma mountEach_local mountBase devices :
Forall ok devices ->
forall i, emits (local_call ok) (exsmount.mountEach mountBase i devices).
Proof.
induction 1 as [|dev devices Hdev _ IH]; intros i; cbn [exsmount.mountEach].
- apply emits_ret.
- apply emits_bind; [apply mkfs_local; now left | intros [err|]].
  + destruct (error_is_MountedError err); [apply IH | apply emits_ret].
  + apply emits_bind; [apply makeAndMount_local; now left | intros [err|]];
      [apply emits_ret | apply IH].
Qed.

Lemma findRaidDev_yields (fuel : nat) :
forall i, 0 <= i -> i + Z.of_nat fuel <= 20 ->
  yields (local_call ok) (fun rd => rd = "" \/ is_raidPath rd)
    (exsmount.findRaidDev fuel i).
Proof.
induction fuel as [|fuel IH]; intros i Hi Hfuel; cbn [exsmount.findRaidDev].
- apply yields_ret. now left.
- apply (yields_bind _ (fun _ => True)).
  + apply yields_call; [exact I | auto].
  + intros st _.
    assert (Hrec : yields (local_call ok) (fun rd => rd = "" \/ is_raidPath rd)
                     (exsmount.findRaidDev fuel (i + 1)))
      by (apply IH; lia).
    destruct st as [err|]; [|exact Hrec].
    destruct (os_IsNotExist err); [|exact Hrec].
    apply yields_ret. right. exists i. split; [lia | reflexivity].
Qed.

End LocalCalls.

Lemma selectDevices_yields (deviceCandidates : list string)
    (inUse : gmap string bool) (rest devices : list string) :
  let ok := fun dev => In dev deviceCandidates /\ inUse !! dev = None in
  (forall d, In d rest -> In d deviceCandidates) ->
  Forall ok devices ->
  yields (local_call ok)
    (fun r => match r with inl _ => True | inr out => Forall ok out end)
    (exsmount.selectDevices deviceCandidates inUse rest devices).
Proof.
  intros ok Hrest Hdevices h tr.
  destruct (exsmount.selectDevices deviceCandidates inUse rest devices h tr)
    as [o tr'] eqn:Hrun.
  apply selectDevices_inv in Hrun as [[paths ->] Hout].
  exists (map os_Stat paths). split; [reflexivity|]. split.
  - apply List.Forall_forall. intros c Hc.
    apply in_map_iff in Hc as (p & <- & _). exact I.
  - cbn [fst]. intros [err|out] ->; [exact I|].
    destruct (Hout out eq_refl) as (more & -> & Hmore).
    apply Forall_app. split; [exact Hdevices|].
    apply List.Forall_forall. intros d Hd.
    destruct (Hmore d Hd) as (Hin & Hfree & _). split; auto.
Qed.

Lemma MountLocal_from (h : Host) (deviceCandidates : list string)
    (mountBase : string) (inUse : gmap string bool) (tr tr0 : list Call) :
  exsmount.mountedDevices h tr = (Returns inUse, tr0) ->
  exists ext,
    snd (exsmount.MountLocal deviceCandidates mountBase h tr) = tr0 ++ ext /\
    Forall (local_call
              (fun dev => In dev deviceCandidates /\ inUse !! dev = None)) ext.
Proof.
  intros Hm. set (ok := fun dev => In dev deviceCandidates /\ inUse !! dev = None).
  unfold exsmount.MountLocal.
  rewrite (bind_returns _ _ _ _ _ _ Hm).
  match goal with
  | |- exists ext, snd (?m h _) = _ /\ _ =>
      assert (Hrest : emits (local_call ok) m)
  end.
  { apply (yields_emits _ (fun _ => True)).
    eapply yields_bind.
    - apply (selectDevices_yields deviceCandidates inUse deviceCandidates []);
        [auto | constructor].
    - intros [err|devices] Hdevices; [now apply yields_ret|].
      fold ok in Hdevices.
      apply emits_yields.
      destruct (Nat.eqb (List.length devices) 0); [apply emits_ret|].
      apply emits_bind; [apply emits_call; exact I | intros lp].
      destruct (_ || _)%bool.
      + apply emits_bind; [now apply mountEach_local | intros [err|]];
          apply emits_ret.
      + apply (yields_emits _ (fun _ => True)).
        eapply yields_bind; [apply (findRaidDev_yields ok 20 0); lia|].
        intros raidDev [->|Hraid]; [now apply yields_ret|].
        apply emits_yields.
        destruct (String.eqb raidDev ""); [apply emits_ret|].
        apply emits_bind.
        * apply emits_call. right. right. split; [reflexivity|].
          now exists raidDev, devices.
        * intros r. destruct (run_err r); [apply emits_ret|].
          apply emits_bind; [apply mkfs_local; now right | intros [err|]];
            [apply emits_ret|].
          apply emits_bind; [apply makeAndMount_local; now right | intros e];
            apply emits_ret. }
  exact (Hrest h tr0).
Qed.

Lemma local_call_weaken (ok ok' : string -> Prop) (c : Call) :
  (forall dev, ok dev -> ok' dev) -> local_call ok c -> local_call ok' c.
Proof.
  intros Hok. destruct c; cbn; try tauto.
  intros [(Hn & dev & Ha & Hd)|[(Hn & dev & dir & Ha & Hd)
                               |(Hn & rd & devs & Ha & Hr & Hd)]].
  - left. split; [exact Hn|]. exists dev. split; [exact Ha|].
    destruct Hd; auto.
  - right. left. split; [exact Hn|]. exists dev, dir. split; [exact Ha|].
    destruct Hd; auto.
  - right. right. split; [exact Hn|]. exists rd, devs.
    split; [exact Ha|]. split; [exact Hr|].
    eapply List.Forall_impl; [exact Hok | exact Hd].
Qed.

Lemma MountLocal_local (deviceCandidates : list string) (mountBase : string) :
  emits (local_call (fun dev => In dev deviceCandidates))
    (exsmount.MountLocal deviceCandidates mountBase).
Proof.
  intros h tr.
  destruct (exsmount.mountedDevices h tr) as [o tr0] eqn:Hm.
  pose proof (mountedDevices_trace _ _ _ _ Hm) as ->.
  destruct o as [inUse|msg|msg].
  - destruct (MountLocal_from h deviceCandidates mountBase inUse tr _ Hm)
      as (ext & Hext & HP).
    exists ([read_proc_mounts] ++ ext). rewrite Hext.
    split; [now rewrite <- app_assoc|].
    constructor; [exact I|].
    eapply List.Forall_impl; [|exact HP].
    intros c. apply local_call_weaken. tauto.
  - exists [read_proc_mounts]. unfold exsmount.MountLocal, eff_bind.
    rewrite Hm. split; [reflexivity|]. constructor; [exact I | constructor].
  - exists [read_proc_mounts]. unfold exsmount.MountLocal, eff_bind.
    rewrite Hm. split; [reflexivity|]. constructor; [exact I | constructor].
Qed.

(** X3. Whatever the host answers, [MountLocal] formats and mounts only
    candidates that the mount table does not hold, or an array
    [/dev/md0] to [/dev/md19]; it formats as ext4 only; it assembles an
    array only of such candidates; and beyond that it only reads the mount
    table, looks at paths, makes directories and looks for [mdadm]. *)
Theorem MountLocal_touches_only_free_candidates (h : Host)
    (deviceCandidates : list string) (mountBase : string)
    (inUse : gmap string bool) (tr0 : list Call) :
  exsmount.mountedDevices h [] = (Returns inUse, tr0) ->
  Forall (local_call
            (fun dev => In dev deviceCandidates /\ inUse !! dev = None))
         (snd (run (exsmount.MountLocal deviceCandidates mountBase) h)).
Proof.
  intros Hm.
  destruct (MountLocal_from h deviceCandidates mountBase inUse [] tr0 Hm)
    as (ext & Hext & HP).
  unfold run. rewrite Hext.
  apply mountedDevices_trace in Hm. subst tr0.
  apply Forall_app. split; [|exact HP].
  constructor; [exact I | constructor].
Qed.

Lemma MountLocal_touches_only_free_candidates_witness :
  Forall (local_call
            (fun dev => In dev ["/dev/xvdb"; "/dev/xvdc"; "/dev/xvdd"] /\
                        (∅ : gmap string bool) !! dev = None))
         (snd (run (exsmount.MountLocal
                      ["/dev/xvdb"; "/dev/xvdc"; "/dev/xvdd"] "/mnt/x")
                   Examples_striping.three_devices)).
Proof.
  apply (MountLocal_touches_only_free_candidates
           Examples_striping.three_devices
           ["/dev/xvdb"; "/dev/xvdc"; "/dev/xvdd"] "/mnt/x" ∅
           [read_proc_mounts]).
  reflexivity.
Defined.

(** ** [MountLocal] without an array *)

Lemma calls_dirs (p : Call -> bool) (dirs : list Call) (path : string) :
  dirs = [os_Stat path] \/ dirs = [os_Stat path; os_MkdirAll path] ->
  (forall q, p (os_Stat q) = false) -> (forall q, p (os_MkdirAll q) = false) ->
  calls p dirs = [].
Proof. intros [-> | ->] Hs Hm; cbn; now rewrite ?Hs, ?Hm. Qed.

Lemma mkfs_run h dev tr :
  exists e,
    exsmount.mkfs "ext4" dev h tr = (Returns e, tr ++ [mkfs_call dev]) /\
    (e <> None -> fails h tr (mkfs_call dev)).
Proof.
  unfold exsmount.mkfs, eff_bind. rewrite call_run. fold (mkfs_call dev).
  unfold fails, mkfs_call. fold (mkfs_call dev).
  destruct (run_err (h tr (mkfs_call dev))) as [err|].
  - destruct (Strings.Contains _ _); unfold eff_ret; eexists;
      (split; [reflexivity | discriminate]).
  - unfold eff_ret. eexists. split; [reflexivity | congruence].
Qed.

(** [makeAndMount] either meets a call that fails and returns an error, or
    looks at the directory, makes it when it does not exist, and mounts. *)
Lemma makeAndMount_run h dev dir tr :
  exists e ext,
    exsmount.makeAndMount dev dir h tr = (Returns e, tr ++ ext) /\
    ((exists pre c post, ext = pre ++ c :: post /\ fails h (tr ++ pre) c) \/
     (e = None /\
      exists dirs,
        ext = dirs ++ [mount_call dev dir] /\
        (dirs = [os_Stat dir] \/ dirs = [os_Stat dir; os_MkdirAll dir]))).
Proof.
  unfold exsmount.makeAndMount, exsmount.makeDir.
  unfold eff_bind at 1. unfold eff_bind at 1. rewrite call_run.
  assert (Hmount : forall dirs,
    dirs = [os_Stat dir] \/ dirs = [os_Stat dir; os_MkdirAll dir] ->
    exists e ext,
      (r <- call (mount_call dev dir) ;;
       match run_err r with
       | Some err => eff_ret (Some (Foreign err))
       | None => eff_ret None
       end)%eff h (tr ++ dirs) = (Returns e, tr ++ ext) /\
      ((exists pre c post, ext = pre ++ c :: post /\ fails h (tr ++ pre) c) \/
       (e = None /\
        exists dirs,
          ext = dirs ++ [mount_call dev dir] /\
          (dirs = [os_Stat dir] \/ dirs = [os_Stat dir; os_MkdirAll dir])))).
  { intros dirs Hdirs. unfold eff_bind. rewrite call_run.
    destruct (run_err (h (tr ++ dirs) (mount_call dev dir))) as [err|]
      eqn:Hrun; unfold eff_ret; eexists _, (dirs ++ [mount_call dev dir]);
      (split; [now rewrite app_assoc|]).
    - left. exists dirs, (mount_call dev dir), []. split; [reflexivity|].
      unfold fails, mount_call. fold (mount_call dev dir). congruence.
    - right. split; [reflexivity|]. now exists dirs. }
  destruct (h tr (os_Stat dir)) as [err|] eqn:Hstat.
  - destruct (os_IsNotExist err) eqn:Hne.
    + unfold eff_bind at 1. rewrite call_run.
      destruct (h (tr ++ [os_Stat dir]) (os_MkdirAll dir)) as [err'|] eqn:Hmk.
      * unfold eff_ret. eexists _, [os_Stat dir; os_MkdirAll dir].
        split; [now rewrite <- app_assoc|].
        left. exists [os_Stat dir], (os_MkdirAll dir), [].
        split; [reflexivity|]. unfold fails. rewrite Hmk. discriminate.
      * unfold eff_ret at 1.
        destruct (Hmount [os_Stat dir; os_MkdirAll dir] (or_intror eq_refl))
          as (e & ext & Hrun & Hcases).
        exists e, ext. split; [|exact Hcases].
        rewrite <- Hrun. now rewrite <- app_assoc.
    + unfold eff_ret. eexists _, [os_Stat dir]. split; [reflexivity|].
      left. exists [], (os_Stat dir), []. split; [reflexivity|].
      unfold fails. rewrite app_nil_r, Hstat. eauto.
  - unfold eff_ret at 1.
    destruct (Hmount [os_Stat dir] (or_introl eq_refl))
      as (e & ext & Hrun & Hcases).
    exists e, ext. split; [exact Hrun | exact Hcases].
Qed.

(** The loop over the devices either meets a call that fails, or formats
    and mounts every device in turn. *)
Lemma mountEach_run h mountBase devices :
  forall (i : nat) tr0, exists o ext,
    exsmount.mountEach mountBase (Z.of_nat i) devices h tr0 = (o, tr0 ++ ext) /\
    ((exists pre c post, ext = pre ++ c :: post /\ fails h (tr0 ++ pre) c) \/
     (o = Returns None /\
      calls is_mkfs ext = map mkfs_call devices /\
      calls is_mount ext
      = imap (fun j d => mount_call d (mount_point mountBase (i + j))) devices /\
      calls is_mdadm ext = [])).
Proof.
  induction devices as [|dev rest IH]; intros i tr0.
  - exists (Returns None), []. cbn. unfold eff_ret. rewrite app_nil_r.
    split; [reflexivity|]. right. repeat split; reflexivity.
  - cbn [exsmount.mountEach].
    assert (Hbase : (if 0 <? Z.of_nat i
                     then mountBase +:+ "_" +:+ Strings.itoa (Z.of_nat i)
                     else mountBase) = mount_point mountBase i).
    { destruct i as [|i]; [reflexivity|].
      replace (0 <? Z.of_nat (S i)) with true by (symmetry; apply Z.ltb_lt; lia).
      reflexivity. }
    rewrite Hbase. set (dir := mount_point mountBase i).
    replace (Z.of_nat i + 1) with (Z.of_nat (S i)) by lia.
    destruct (mkfs_run h dev tr0) as (e & Hmkfs & Hfail).
    rewrite (bind_returns _ _ _ _ _ _ Hmkfs).
    destruct e as [err|].
    { specialize (Hfail ltac:(discriminate)).
      destruct (error_is_MountedError err).
      - destruct (IH (S i) (tr0 ++ [mkfs_call dev])) as (o & ext & Hrun & _).
        exists o, (mkfs_call dev :: ext). rewrite Hrun.
        split; [now rewrite <- app_assoc|].
        left. exists [], (mkfs_call dev), ext. split; [reflexivity|].
        now rewrite app_nil_r.
      - unfold eff_ret. eexists _, [mkfs_call dev]. split; [reflexivity|].
        left. exists [], (mkfs_call dev), []. split; [reflexivity|].
        now rewrite app_nil_r. }
    destruct (makeAndMount_run h dev dir (tr0 ++ [mkfs_call dev]))
      as (e & ext1 & Hmnt & Hcases1).
    rewrite (bind_returns _ _ _ _ _ _ Hmnt).
    assert (Hshift : forall l, (tr0 ++ [mkfs_call dev]) ++ l
                               = tr0 ++ mkfs_call dev :: l)
      by (intros l; now rewrite <- app_assoc).
    destruct Hcases1 as [(pre & c & post & -> & Hf)|(-> & dirs & -> & Hdirs)].
    { assert (Hleft : exists pre0 c0 post0,
                mkfs_call dev :: pre ++ c :: post = pre0 ++ c0 :: post0 /\
                fails h (tr0 ++ pre0) c0).
      { exists (mkfs_call dev :: pre), c, post. split; [reflexivity|].
        now rewrite <- Hshift. }
      destruct e as [err|].
      - unfold eff_ret. eexists _, _. split; [now rewrite Hshift|].
        left. exact Hleft.
      - destruct (IH (S i) ((tr0 ++ [mkfs_call dev]) ++ pre ++ c :: post))
          as (o & ext & Hrun & _).
        exists o, (mkfs_call dev :: (pre ++ c :: post) ++ ext).
        rewrite Hrun. split; [rewrite Hshift; now rewrite <- app_assoc|].
        left. destruct Hleft as (pre0 & c0 & post0 & Heq & Hf0).
        exists pre0, c0, (post0 ++ ext). split; [|exact Hf0].
        change (mkfs_call dev :: (pre ++ c :: post) ++ ext)
          with ((mkfs_call dev :: pre ++ c :: post) ++ ext).
        rewrite Heq. now rewrite <- app_assoc. }
    destruct (IH (S i) ((tr0 ++ [mkfs_call dev])
                        ++ dirs ++ [mount_call dev dir]))
      as (o & ext & Hrun & Hcases).
    exists o, (mkfs_call dev :: (dirs ++ [mount_call dev dir]) ++ ext).
    rewrite Hrun. split; [rewrite Hshift; now rewrite <- app_assoc|].
    destruct Hcases as [(pre & c & post & -> & Hfail')|(-> & Hk & Hm & Hd)].
    + left. exists (mkfs_call dev :: (dirs ++ [mount_call dev dir]) ++ pre),
                   c, post.
      split; [cbn [app]; now rewrite <- !app_assoc|].
      rewrite Hshift, <- app_assoc in Hfail'. exact Hfail'.
    + right. split; [reflexivity|].
      change (mkfs_call dev :: (dirs ++ [mount_call dev dir]) ++ ext)
        with ([mkfs_call dev] ++ (dirs ++ [mount_call dev dir]) ++ ext).
      rewrite !calls_app, Hk, Hm, Hd.
      rewrite !(calls_dirs _ dirs dir Hdirs) by reflexivity.
      split; [reflexivity|]. split; [|reflexivity].
      change (calls is_mount [mkfs_call dev]) with (@nil Call).
      change (calls is_mount [mount_call dev dir]) with [mount_call dev dir].
      cbn [app imap]. rewrite Nat.add_0_r. f_equal.
      apply imap_ext. intros j d _. unfold compose.
      replace (i + S j)%nat with (S i + j)%nat by lia. reflexivity.
Qed.

Lemma no_call_fails_by_position (h : Host) (l : list Call) :
  (forall k c, nth_error l k = Some c -> ~ fails h (firstn k l) c) ->
  forall pre c post, l = pre ++ c :: post -> ~ fails h pre c.
Proof.
  intros Hall pre c post ->.
  specialize (Hall (List.length pre) c).
  rewrite List.nth_error_app2, Nat.sub_diag in Hall by lia.
  rewrite List.firstn_app, Nat.sub_diag, List.firstn_all in Hall.
  cbn [firstn] in Hall. rewrite app_nil_r in Hall. exact (Hall eq_refl).
Qed.

(** X4. On the branch of [MountLocal] that takes each device on its own
    (one usable device, or [mdadm] not installed), when no call that the
    run makes fails (each [mkfs] and [mount] that is run succeeds, each
    directory looked at exists or is made): every usable device is
    formatted once, as ext4, in order; the first is mounted on the base
    mount point and the device of index [i] on the base with [_i]
    appended; no array is assembled; and the usable devices are returned
    with no error. The condition is about the answers to the calls of this
    run only, so the host may refuse to format a device once the run has
    mounted it. *)
Theorem MountLocal_each_device_mounted (h : Host)
    (deviceCandidates : list string) (mountBase : string)
    (devices : list string) (tr1 : list Call) :
  selects h deviceCandidates devices tr1 ->
  devices <> [] ->
  h tr1 (exec_LookPath "mdadm") <> None \/ List.length devices = 1%nat ->
  (forall pre c post,
     snd (run (exsmount.MountLocal deviceCandidates mountBase) h)
     = pre ++ c :: post ->
     ~ fails h pre c) ->
  exists tr,
    run (exsmount.MountLocal deviceCandidates mountBase) h
    = (Returns (devices, None), tr) /\
    calls is_mkfs tr = map mkfs_call devices /\
    calls is_mount tr
    = imap (fun j d => mount_call d (mount_point mountBase j)) devices /\
    calls is_mdadm tr = [].
Proof.
  intros Hsel Hne Hpath Hok.
  rewrite (MountLocal_each h deviceCandidates mountBase devices tr1
             Hsel Hne Hpath) in *.
  destruct (mountEach_run h mountBase devices O
              (tr1 ++ [exec_LookPath "mdadm"]))
    as (o & ext & Hrun & Hcases).
  change (Z.of_nat 0) with 0 in Hrun. rewrite Hrun in *.
  destruct Hcases as [(pre & c & post & -> & Hfail)|(-> & Hk & Hm & Hd)].
  - exfalso.
    apply (Hok ((tr1 ++ [exec_LookPath "mdadm"]) ++ pre) c post); [|exact Hfail].
    destruct o as [[e|]|msg|msg]; cbv beta iota; cbn [snd];
      apply List.app_assoc.
  - eexists. split; [reflexivity|].
    destruct (selects_trace _ _ _ _ Hsel) as [paths ->].
    change (read_proc_mounts :: map os_Stat paths)
      with ([read_proc_mounts] ++ map os_Stat paths).
    rewrite !calls_app, !calls_stats by reflexivity.
    rewrite Hk, Hm, Hd. repeat split; reflexivity.
Qed.

Lemma MountLocal_each_device_mounted_witness :
  exists tr,
    run (exsmount.MountLocal ["/dev/xvdb"; "/dev/xvdc"] "/mnt/x")
        (Examples_further.live Hosts.missing)
    = (Returns (["/dev/xvdb"; "/dev/xvdc"], None), tr) /\
    calls is_mkfs tr = [mkfs_call "/dev/xvdb"; mkfs_call "/dev/xvdc"] /\
    calls is_mount tr
    = [mount_call "/dev/xvdb" "/mnt/x"; mount_call "/dev/xvdc" "/mnt/x_1"] /\
    calls is_mdadm tr = [].
Proof.
  apply (MountLocal_each_device_mounted (Examples_further.live Hosts.missing)
           ["/dev/xvdb"; "/dev/xvdc"] "/mnt/x" ["/dev/xvdb"; "/dev/xvdc"]
           [read_proc_mounts; os_Stat "/dev/xvdb"; os_Stat "/dev/xvdc"]).
  - exists ∅, [read_proc_mounts]. split; reflexivity.
  - discriminate.
  - left. discriminate.
  - apply no_call_fails_by_position. intros k c Hk.
    do 12 (destruct k as [|k];
           [injection Hk as <-; vm_compute;
            first [ tauto
                  | intros H; now apply H
                  | intros (err & [= <-] & [=])
                  | intros (err & [=] & _) ]
           |]).
    destruct k; discriminate Hk.
Defined.

(** ** [MountLocal] with an array: the ways to fail *)

Lemma findRaidDev_all_taken h (fuel : nat) :
  forall (i : Z) tr,
    (forall j, (j < fuel)%nat -> taken h (exsmount.raidPath (i + Z.of_nat j))) ->
    exsmount.findRaidDev fuel i h tr
    = (Returns "",
       tr ++ map (fun j => os_Stat (exsmount.raidPath (i + Z.of_nat j)))
                 (seq 0 fuel)).
Proof.
  induction fuel as [|fuel IH]; intros i tr Htaken.
  - cbn. unfold eff_ret. now rewrite app_nil_r.
  - cbn [exsmount.findRaidDev]. unfold eff_bind at 1. rewrite call_run.
    pose proof (Htaken O ltac:(lia) tr) as H0.
    replace (i + Z.of_nat 0) with i in H0 by lia.
    assert (Hrec : exsmount.findRaidDev fuel (i + 1) h
                     (tr ++ [os_Stat (exsmount.raidPath i)])
                   = (Returns "",
                      tr ++ map (fun j => os_Stat
                                   (exsmount.raidPath (i + Z.of_nat j)))
                                (seq 0 (S fuel)))).
    { rewrite IH.
      - f_equal. rewrite <- app_assoc. f_equal.
        rewrite (map_seq_from_0 _ fuel). cbn [app].
        replace (i + Z.of_nat 0) with i by lia. f_equal.
        apply List.map_ext. intros j. do 2 f_equal. lia.
      - intros j Hj.
        replace (i + 1 + Z.of_nat j) with (i + Z.of_nat (S j)) by lia.
        apply Htaken. lia. }
    destruct (h tr (os_Stat (exsmount.raidPath i))) as [err|].
    + rewrite H0. exact Hrec.
    + exact Hrec.
Qed.

(** X5. With two or more usable devices and [mdadm] installed, when each of
    [/dev/md0] to [/dev/md19] exists (or cannot be examined),
    [MountLocal] looks at the twenty paths in order, runs no command at
    all, and returns no device and the error
    "no available /dev/md path found". *)
Theorem MountLocal_no_free_array (h : Host) (deviceCandidates : list string)
    (mountBase : string) (devices : list string) (tr1 : list Call) :
  selects h deviceCandidates devices tr1 ->
  (2 <= List.length devices)%nat ->
  h tr1 (exec_LookPath "mdadm") = None ->
  (forall j, (j < 20)%nat -> taken h (exsmount.raidPath (Z.of_nat j))) ->
  run (exsmount.MountLocal deviceCandidates mountBase) h
  = (Returns ([], Some (Errorf "no available /dev/md path found")),
     (tr1 ++ [exec_LookPath "mdadm"])
     ++ map (fun j => os_Stat (exsmount.raidPath (Z.of_nat j))) (seq 0 20)) /\
  forall name args, ~ In (cmd_Run name args)
    (snd (run (exsmount.MountLocal deviceCandidates mountBase) h)).
Proof.
  intros Hsel Hlen Hlp Htaken.
  assert (Hrun : run (exsmount.MountLocal deviceCandidates mountBase) h
    = (Returns ([], Some (Errorf "no available /dev/md path found")),
       (tr1 ++ [exec_LookPath "mdadm"])
       ++ map (fun j => os_Stat (exsmount.raidPath (Z.of_nat j))) (seq 0 20))).
  { destruct Hsel as (inUse & tr0 & Hm & Hsel).
    unfold run, exsmount.MountLocal.
    rewrite (bind_returns _ _ _ _ _ _ Hm).
    rewrite (bind_returns _ _ _ _ _ _ Hsel).
    assert (H0 : Nat.eqb (List.length devices) 0 = false)
      by (apply Nat.eqb_neq; lia).
    assert (H1 : Nat.eqb (List.length devices) 1 = false)
      by (apply Nat.eqb_neq; lia).
    rewrite H0. unfold eff_bind at 1. rewrite call_run, Hlp, H1. cbn [orb].
    rewrite (bind_returns _ _ _ _ _ _
               (findRaidDev_all_taken h 20 0 (tr1 ++ [exec_LookPath "mdadm"])
                  Htaken)).
    reflexivity. }
  split; [exact Hrun|].
  rewrite Hrun. cbn [snd]. intros name args Hin.
  destruct (selects_trace _ _ _ _ Hsel) as [paths ->].
  rewrite !in_app_iff in Hin. destruct Hin as [[Hin|Hin]|Hin].
  - destruct Hin as [Hin|Hin]; [discriminate|].
    apply in_map_iff in Hin as (p & Hp & _). discriminate.
  - destruct Hin as [Hin|[]]. discriminate.
  - apply in_map_iff in Hin as (p & Hp & _). discriminate.
Qed.

Lemma MountLocal_no_free_array_witness :
  run (exsmount.MountLocal ["/dev/xvdb"; "/dev/xvdc"] "/mnt/x")
      Examples_further.arrays_exhausted
  = (Returns ([], Some (Errorf "no available /dev/md path found")),
     ([read_proc_mounts; os_Stat "/dev/xvdb"; os_Stat "/dev/xvdc"]
      ++ [exec_LookPath "mdadm"])
     ++ map (fun j => os_Stat (exsmount.raidPath (Z.of_nat j))) (seq 0 20)) /\
  forall name args, ~ In (cmd_Run name args)
    (snd (run (exsmount.MountLocal ["/dev/xvdb"; "/dev/xvdc"] "/mnt/x")
              Examples_further.arrays_exhausted)).
Proof.
  apply (MountLocal_no_free_array Examples_further.arrays_exhausted
           ["/dev/xvdb"; "/dev/xvdc"] "/mnt/x" ["/dev/xvdb"; "/dev/xvdc"]
           [read_proc_mounts; os_Stat "/dev/xvdb"; os_Stat "/dev/xvdc"]).
  - exists ∅, [read_proc_mounts]. split; reflexivity.
  - simpl. lia.
  - reflexivity.
  - intros j Hj t.
    do 20 (destruct j as [|j]; [vm_compute; exact I|]). lia.
Defined.

(** X6. With two or more usable devices, [mdadm] installed and [raidDev] the
    first of [/dev/md0] to [/dev/md19] that is reported not to exist when
    the scan looks at it: when [mdadm] fails, [MountLocal] returns its
    error and no device, and formats and mounts nothing; when [mdadm]
    succeeds and [mkfs] then fails, [MountLocal] returns the error (the
    already-mounted error when the output of [mkfs] says so) together with
    the array as its only device, and mounts nothing. Each condition is
    about the answer to the one call that [MountLocal] makes, so the array
    path may exist once [mdadm] has run. *)
Theorem MountLocal_array_failures (h : Host) (deviceCandidates : list string)
    (mountBase : string) (devices : list string) (tr1 : list Call) (n : nat) :
  let raidDev := exsmount.raidPath (Z.of_nat n) in
  let mdadm := cmd_Run "mdadm" (exsmount.mdadm_args raidDev devices) in
  let tr2 := (tr1 ++ [exec_LookPath "mdadm"]) ++ raid_scan (S n) in
  selects h deviceCandidates devices tr1 ->
  (2 <= List.length devices)%nat ->
  h tr1 (exec_LookPath "mdadm") = None ->
  first_free_array h (tr1 ++ [exec_LookPath "mdadm"]) n ->
  (forall err, run_err (h tr2 mdadm) = Some err ->
     run (exsmount.MountLocal deviceCandidates mountBase) h
     = (Returns ([], Some (Foreign err)), tr2 ++ [mdadm]))
  /\
  (run_err (h tr2 mdadm) = None ->
   forall err, run_err (h (tr2 ++ [mdadm]) (mkfs_call raidDev)) = Some err ->
     run (exsmount.MountLocal deviceCandidates mountBase) h
     = (Returns ([raidDev],
                 Some (if Strings.Contains
                            (stderr (h (tr2 ++ [mdadm]) (mkfs_call raidDev)))
                            "is mounted"
                       then MountedError else Foreign err)),
        (tr2 ++ [mdadm]) ++ [mkfs_call raidDev])).
Proof.
  intros raidDev mdadm tr2 Hsel Hlen Hlp Hfree.
  rewrite (MountLocal_array_run h deviceCandidates mountBase devices tr1 n
             Hsel Hlen Hlp Hfree).
  fold raidDev mdadm tr2. split.
  - intros err Herr. unfold eff_bind at 1. rewrite call_run, Herr. reflexivity.
  - intros Hok err Herr. unfold eff_bind at 1. rewrite call_run, Hok.
    unfold exsmount.mkfs, eff_bind. rewrite call_run.
    fold (mkfs_call raidDev). rewrite Herr.
    destruct (Strings.Contains _ _); reflexivity.
Qed.

Lemma MountLocal_array_failures_witness :
  run (exsmount.MountLocal ["/dev/xvdb"; "/dev/xvdc"; "/dev/xvdd"] "/mnt/x")
      Examples_striping.busy_devices
  = (Returns ([], Some (Foreign (ForeignError false "exit status 1"))),
     [read_proc_mounts; os_Stat "/dev/xvdb"; os_Stat "/dev/xvdc";
      os_Stat "/dev/xvdd"; exec_LookPath "mdadm"; os_Stat "/dev/md0";
      cmd_Run "mdadm"
        (exsmount.mdadm_args "/dev/md0"
           ["/dev/xvdb"; "/dev/xvdc"; "/dev/xvdd"])])
  /\
  run (exsmount.MountLocal ["/dev/xvdb"; "/dev/xvdc"; "/dev/xvdd"] "/mnt/x")
      Examples_further.array_refused
  = (Returns (["/dev/md1"],
              Some (Foreign (ForeignError false "exit status 1"))),
     [read_proc_mounts; os_Stat "/dev/xvdb"; os_Stat "/dev/xvdc";
      os_Stat "/dev/xvdd"; exec_LookPath "mdadm"; os_Stat "/dev/md0";
      os_Stat "/dev/md1";
      cmd_Run "mdadm"
        (exsmount.mdadm_args "/dev/md1"
           ["/dev/xvdb"; "/dev/xvdc"; "/dev/xvdd"]);
      mkfs_call "/dev/md1"]).
Proof.
  split.
  - apply (MountLocal_array_failures Examples_striping.busy_devices
             ["/dev/xvdb"; "/dev/xvdc"; "/dev/xvdd"] "/mnt/x"
             ["/dev/xvdb"; "/dev/xvdc"; "/dev/xvdd"]
             [read_proc_mounts; os_Stat "/dev/xvdb"; os_Stat "/dev/xvdc";
              os_Stat "/dev/xvdd"] 0).
    + exists ∅, [read_proc_mounts]. split; reflexivity.
    + simpl. lia.
    + reflexivity.
    + split; [lia|]. split; [intros j Hj; lia|].
      eexists. split; reflexivity.
    + reflexivity.
  - apply (MountLocal_array_failures Examples_further.array_refused
             ["/dev/xvdb"; "/dev/xvdc"; "/dev/xvdd"] "/mnt/x"
             ["/dev/xvdb"; "/dev/xvdc"; "/dev/xvdd"]
             [read_proc_mounts; os_Stat "/dev/xvdb"; os_Stat "/dev/xvdc";
              os_Stat "/dev/xvdd"] 1).
    + exists ∅, [read_proc_mounts]. split; reflexivity.
    + simpl. lia.
    + reflexivity.
    + split; [lia|]. split.
      * intros j Hj. assert (j = O) as -> by lia. vm_compute. exact I.
      * eexists. split; reflexivity.
    + reflexivity.
    + reflexivity.
Defined.

(** ** Mounting an EFS drive *)

Lemma makeDir_cases h path tr :
  exists e dirs,
    exsmount.makeDir path h tr = (Returns e, tr ++ os_Stat path :: dirs) /\
    (dirs = [] \/ dirs = [os_MkdirAll path]).
Proof.
  unfold exsmount.makeDir, eff_bind. rewrite call_run.
  destruct (h tr (os_Stat path)) as [err|].
  - destruct (os_IsNotExist err).
    + rewrite call_run. unfold eff_ret. rewrite <- app_assoc.
      destruct (h _ (os_MkdirAll path)); eauto.
    + unfold eff_ret. eauto.
  - unfold eff_ret. eauto.
Qed.

(** X7. Whatever the host answers, [EFSMount] first looks at the mount
    point; the only command it runs is [mount -t nfs4] of the EFS string on
    the mount point, with options that begin with the default options, and
    only for an EFS string that holds a colon; it returns no error only
    when that command was its last call and succeeded; and for an EFS
    string without a colon it returns an error. *)
Theorem EFSMount_mounts_only_valid (h : Host) (efs mountPoint mountOpts : string) :
  let o := fst (run (exsmount.EFSMount efs mountPoint mountOpts) h) in
  let tr := snd (run (exsmount.EFSMount efs mountPoint mountOpts) h) in
  (exists rest, tr = os_Stat mountPoint :: rest) /\
  (forall name args, In (cmd_Run name args) tr ->
     Strings.Contains efs ":" = true /\ name = "mount" /\
     exists opts,
       args = ["-t"; "nfs4"; "-o"; opts; efs; mountPoint] /\
       String.prefix exsmount.efs_opts opts = true /\
       (mountOpts = "" -> opts = exsmount.efs_opts)) /\
  (o = Returns None ->
     exists tr0 args,
       tr = tr0 ++ [cmd_Run "mount" args] /\
       run_err (h tr0 (cmd_Run "mount" args)) = None) /\
  (Strings.Contains efs ":" = false -> exists e, o = Returns (Some e)).
Proof.
  cbv zeta. unfold run, exsmount.EFSMount.
  destruct (makeDir_cases h mountPoint []) as (e & dirs & Hmake & Hdirs).
  rewrite (bind_returns _ _ _ _ _ _ Hmake). cbn [app].
  assert (Hnone : forall name args,
            In (cmd_Run name args) (os_Stat mountPoint :: dirs) -> False).
  { intros name args [Hin|Hin]; [discriminate|].
    destruct Hdirs as [-> | ->]; [destruct Hin|].
    destruct Hin as [Hin|[]]. discriminate. }
  destruct e as [err|].
  { unfold eff_ret. cbn [fst snd]. split; [eauto|].
    split; [|split]; [|discriminate|eauto].
    intros name args Hin. now apply Hnone in Hin. }
  destruct (Strings.Contains efs ":") eqn:Hcolon; cbn [negb].
  - unfold eff_bind. rewrite call_run.
    set (opts := if String.eqb mountOpts "" then exsmount.efs_opts
                 else exsmount.efs_opts +:+ "," +:+ mountOpts).
    assert (Hopts : String.prefix exsmount.efs_opts opts = true /\
                    (mountOpts = "" -> opts = exsmount.efs_opts)).
    { subst opts. split; [|now intros ->].
      destruct (String.eqb mountOpts ""); reflexivity. }
    assert (Hin : forall name args,
      In (cmd_Run name args)
         ((os_Stat mountPoint :: dirs)
          ++ [cmd_Run "mount" ["-t"; "nfs4"; "-o"; opts; efs; mountPoint]]) ->
      true = true /\ name = "mount" /\
      exists opts,
        args = ["-t"; "nfs4"; "-o"; opts; efs; mountPoint] /\
        String.prefix exsmount.efs_opts opts = true /\
        (mountOpts = "" -> opts = exsmount.efs_opts)).
    { intros name args Hin. apply in_app_iff in Hin as [Hin|[Hin|[]]].
      - now apply Hnone in Hin.
      - injection Hin as <- <-. split; [reflexivity|]. split; [reflexivity|].
        now exists opts. }
    destruct (run_err _) as [err|] eqn:Herr; unfold eff_ret; cbn [fst snd].
    + split; [eauto|]. split; [exact Hin|]. split; discriminate.
    + split; [eauto|]. split; [exact Hin|]. split; [|discriminate].
      intros _. eexists _, _. split; [reflexivity | exact Herr].
  - unfold eff_ret. cbn [fst snd]. split; [eauto|].
    split; [|split]; [|discriminate|eauto].
    intros name args Hin. now apply Hnone in Hin.
Qed.

(** ** Waiting for a volume *)

Lemma slept_app (tr1 tr2 : list Call) : slept (tr1 ++ tr2) = slept tr1 + slept tr2.
Proof.
  induction tr1 as [|c tr1 IH]; [reflexivity|].
  destruct c; cbn [app slept]; rewrite ?IH; lia.
Qed.

Lemma wait_budget_nonneg (fuel : nat) : forall i, 0 <= wait_budget fuel i.
Proof.
  induction fuel as [|fuel IH]; intros i; cbn [wait_budget]; [lia|].
  specialize (IH (i + 1)). destruct (10 <? i) eqn:Hi; [|lia].
  apply Z.ltb_lt in Hi. lia.
Qed.

Lemma waitLoop_bounded region vid status (fuel : nat) :
  forall i xstatus h tr, exists o ext,
    exsmount.waitLoop region vid status fuel i xstatus h tr = (o, tr ++ ext) /\
    Forall (wait_call region vid) ext /\
    (List.length (calls is_describe ext) <= fuel)%nat /\
    slept ext <= wait_budget fuel i /\
    (o = Returns None ->
     exists pre more,
       ext = pre ++ [ec2_DescribeVolumes region vid] /\
       h (tr ++ pre) (ec2_DescribeVolumes region vid)
       = {| drsp := Some (status :: more); derr := None |}).
Proof.
  induction fuel as [|fuel IH]; intros i xstatus h tr.
  - eexists _, []. cbn. unfold eff_ret. rewrite app_nil_r.
    split; [reflexivity|].
    repeat split; [constructor | lia | lia | discriminate].
  - cbn [exsmount.waitLoop]. unfold eff_bind at 1. rewrite call_run.
    pose proof (wait_budget_nonneg fuel (i + 1)) as Hbudget.
    assert (Hround : 0 <= 4 + (if 10 <? i then i else 0)).
    { destruct (10 <? i) eqn:Hi; [|lia]. apply Z.ltb_lt in Hi. lia. }
    assert (Hstop :
      Forall (wait_call region vid) [ec2_DescribeVolumes region vid] /\
      (List.length (calls is_describe [ec2_DescribeVolumes region vid])
       <= S fuel)%nat /\
      slept [ec2_DescribeVolumes region vid] <= wait_budget (S fuel) i).
    { split; [constructor; [now split | constructor]|].
      unfold calls. cbn [List.filter is_describe List.length slept wait_budget].
      split; lia. }
    destruct Hstop as (HP1 & Hn1 & Hs1).
    destruct (h tr (ec2_DescribeVolumes region vid)) as [rsp err] eqn:Hd.
    cbn [derr drsp].
    destruct err as [err|].
    { eexists _, [ec2_DescribeVolumes region vid]. unfold eff_ret.
      split; [reflexivity|]. split; [exact HP1|]. split; [exact Hn1|].
      split; [exact Hs1|]. intros [=]. }
    destruct rsp as [[|x more]|].
    { eexists _, [ec2_DescribeVolumes region vid]. unfold panic.
      split; [reflexivity|]. split; [exact HP1|]. split; [exact Hn1|].
      split; [exact Hs1|]. intros [=]. }
    2:{ eexists _, [ec2_DescribeVolumes region vid]. unfold panic.
      split; [reflexivity|]. split; [exact HP1|]. split; [exact Hn1|].
      split; [exact Hs1|]. intros [=]. }
    destruct (String.eqb_spec x status) as [->|Hne].
    { eexists _, [ec2_DescribeVolumes region vid]. unfold eff_ret.
      split; [reflexivity|]. split; [exact HP1|]. split; [exact Hn1|].
      split; [exact Hs1|]. intros _. exists [], more.
      rewrite app_nil_r. split; [reflexivity | exact Hd]. }
    unfold eff_bind at 1. rewrite call_run.
    destruct (10 <? i) eqn:Hi.
    + unfold eff_bind at 1. rewrite call_run.
      destruct (IH (i + 1) x h
                  (((tr ++ [ec2_DescribeVolumes region vid])
                    ++ [time_Sleep 4]) ++ [time_Sleep i]))
        as (o & ext & Hrun & HP & Hn & Hs & Hret).
      exists o, ([ec2_DescribeVolumes region vid; time_Sleep 4; time_Sleep i]
                 ++ ext).
      split; [rewrite Hrun; now rewrite <- !app_assoc|].
      split; [repeat constructor; exact HP|].
      rewrite calls_app, slept_app. unfold calls in *.
      cbn [List.filter is_describe List.length slept wait_budget app].
      rewrite Hi. split; [lia|]. split; [lia|].
      intros Hnone. destruct (Hret Hnone) as (pre & more' & -> & Hans).
      exists ([ec2_DescribeVolumes region vid; time_Sleep 4; time_Sleep i]
              ++ pre), more'.
      split; [now rewrite <- app_assoc|].
      rewrite <- Hans. f_equal. now rewrite <- !app_assoc.
    + unfold eff_bind at 1. unfold eff_ret at 1.
      destruct (IH (i + 1) x h
                  ((tr ++ [ec2_DescribeVolumes region vid])
                   ++ [time_Sleep 4]))
        as (o & ext & Hrun & HP & Hn & Hs & Hret).
      exists o, ([ec2_DescribeVolumes region vid; time_Sleep 4] ++ ext).
      split; [rewrite Hrun; now rewrite <- !app_assoc|].
      split; [repeat constructor; exact HP|].
      rewrite calls_app, slept_app. unfold calls in *.
      cbn [List.filter is_describe List.length slept wait_budget app].
      rewrite Hi. split; [lia|]. split; [lia|].
      intros Hnone. destruct (Hret Hnone) as (pre & more' & -> & Hans).
      exists ([ec2_DescribeVolumes region vid; time_Sleep 4] ++ pre), more'.
      split; [now rewrite <- app_assoc|].
      rewrite <- Hans. f_equal. now rewrite <- !app_assoc.
Qed.

(** X8. Whatever the host answers, [WaitForVolumeStatus] only sleeps and
    describes the one volume in the one region; it describes the volume at
    most 30 times and sleeps at most 505 seconds in all; and it returns no
    error only when its last call was a description that was answered,
    without error, with the awaited state for the first volume. *)
Theorem WaitForVolumeStatus_bounded (h : Host) (tr : list Call)
    (region volumeId status : string) :
  exists o ext,
    exsmount.WaitForVolumeStatus region volumeId status h tr = (o, tr ++ ext) /\
    Forall (wait_call region volumeId) ext /\
    (List.length (calls is_describe ext) <= 30)%nat /\
    slept ext <= 505 /\
    (o = Returns None ->
     exists pre more,
       ext = pre ++ [ec2_DescribeVolumes region volumeId] /\
       h (tr ++ pre) (ec2_DescribeVolumes region volumeId)
       = {| drsp := Some (status :: more); derr := None |}).
Proof.
  unfold exsmount.WaitForVolumeStatus, eff_bind. rewrite call_run.
  destruct (waitLoop_bounded region volumeId status 30 0 "" h
              (tr ++ [time_Sleep 5]))
    as (o & ext & Hrun & HP & Hn & Hs & Hret).
  exists o, ([time_Sleep 5] ++ ext).
  split; [rewrite Hrun; now rewrite <- app_assoc|].
  split; [constructor; [exact I | exact HP]|].
  rewrite calls_app, slept_app.
  split; [exact Hn|]. split.
  - change (wait_budget 30 0) with 500 in Hs. cbn [slept]. lia.
  - intros Hnone. destruct (Hret Hnone) as (pre & more & -> & Hans).
    exists ([time_Sleep 5] ++ pre), more.
    split; [reflexivity|]. rewrite <- Hans. f_equal. now rewrite <- app_assoc.
Qed.

Lemma waitLoop_stuck h region vid status (fuel : nat) :
  stuck h region vid status ->
  forall i xstatus tr, exists x ext,
    exsmount.waitLoop region vid status fuel i xstatus h tr
    = (Returns (Some (Errorf ("never found volume: " +:+ vid
                              +:+ " with status: " +:+ status
                              +:+ ". last was: " +:+ x))),
       tr ++ ext) /\
    List.length (calls is_describe ext) = fuel /\
    slept ext = wait_budget fuel i /\
    (fuel = O -> x = xstatus) /\
    (fuel <> O -> x <> status).
Proof.
  intros Hstuck. induction fuel as [|fuel IH]; intros i xstatus tr.
  - exists xstatus, []. cbn. unfold eff_ret. rewrite app_nil_r.
    repeat split; congruence.
  - cbn [exsmount.waitLoop]. unfold eff_bind at 1. rewrite call_run.
    destruct (Hstuck tr) as (x & more & -> & Hne). cbn [derr drsp].
    apply String.eqb_neq in Hne as Hneb. rewrite Hneb.
    unfold eff_bind at 1. rewrite call_run.
    assert (Hlast : forall x' : string,
              (fuel = O -> x' = x) -> (fuel <> O -> x' <> status) ->
              x' <> status).
    { intros x' H0 H1. destruct fuel; [rewrite H0; auto | apply H1; lia]. }
    destruct (10 <? i) eqn:Hi.
    + unfold eff_bind at 1. rewrite call_run.
      destruct (IH (i + 1) x
                  (((tr ++ [ec2_DescribeVolumes region vid])
                    ++ [time_Sleep 4]) ++ [time_Sleep i]))
        as (x' & ext & Hrun & Hn & Hs & H0 & H1).
      exists x', ([ec2_DescribeVolumes region vid; time_Sleep 4; time_Sleep i]
                  ++ ext).
      split; [rewrite Hrun; now rewrite <- !app_assoc|].
      rewrite calls_app, slept_app. unfold calls in *.
      cbn [List.filter is_describe List.length slept wait_budget app].
      rewrite Hi, Hn, Hs. split; [reflexivity|]. split; [lia|].
      split; [discriminate | intros _; now apply Hlast].
    + unfold eff_bind at 1. unfold eff_ret at 1.
      destruct (IH (i + 1) x
                  ((tr ++ [ec2_DescribeVolumes region vid])
                   ++ [time_Sleep 4]))
        as (x' & ext & Hrun & Hn & Hs & H0 & H1).
      exists x', ([ec2_DescribeVolumes region vid; time_Sleep 4] ++ ext).
      split; [rewrite Hrun; now rewrite <- !app_assoc|].
      rewrite calls_app, slept_app. unfold calls in *.
      cbn [List.filter is_describe List.length slept wait_budget app].
      rewrite Hi, Hn, Hs. split; [reflexivity|]. split; [lia|].
      split; [discriminate | intros _; now apply Hlast].
Qed.

(** X9. When every description of the volume is answered without error and
    with a state other than the awaited one, [WaitForVolumeStatus]
    describes the volume exactly 30 times, sleeps 505 seconds in all, and
    returns the error "never found volume ... last was: x", where [x] is a
    state other than the awaited one. *)
Theorem WaitForVolumeStatus_times_out (h : Host) (tr : list Call)
    (region volumeId status : string) :
  stuck h region volumeId status ->
  exists x ext,
    exsmount.WaitForVolumeStatus region volumeId status h tr
    = (Returns (Some (Errorf ("never found volume: " +:+ volumeId
                              +:+ " with status: " +:+ status
                              +:+ ". last was: " +:+ x))),
       tr ++ ext) /\
    x <> status /\
    List.length (calls is_describe ext) = 30%nat /\
    slept ext = 505.
Proof.
  intros Hstuck.
  unfold exsmount.WaitForVolumeStatus, eff_bind. rewrite call_run.
  destruct (waitLoop_stuck h region volumeId status 30 Hstuck 0 ""
              (tr ++ [time_Sleep 5]))
    as (x & ext & Hrun & Hn & Hs & _ & Hne).
  exists x, ([time_Sleep 5] ++ ext).
  split; [rewrite Hrun; now rewrite <- app_assoc|].
  split; [apply Hne; discriminate|].
  rewrite calls_app, slept_app. split; [exact Hn|].
  rewrite Hs. reflexivity.
Qed.

Lemma WaitForVolumeStatus_times_out_witness :
  exists x ext,
    exsmount.WaitForVolumeStatus "us-east-1" "vol-1" "available"
      Examples_further.never_available []
    = (Returns (Some (Errorf ("never found volume: " +:+ "vol-1"
                              +:+ " with status: " +:+ "available"
                              +:+ ". last was: " +:+ x))),
       [] ++ ext) /\
    x <> "available" /\
    List.length (calls is_describe ext) = 30%nat /\
    slept ext = 505.
Proof.
  apply (WaitForVolumeStatus_times_out Examples_further.never_available []
           "us-east-1" "vol-1" "available").
  intros t. exists "creating", []. split; [reflexivity | discriminate].
Defined.

(** ** Device nodes *)

(** X10. Whatever the host answers, [findNextDevNode] looks only at paths
    made of the prefix and one of the suffix characters; a node that it
    returns is the last path it looked at, and the host reported that this
    path does not exist; it panics only after looking at a path for every
    suffix character. *)
Theorem findNextDevNode_result (h : Host) (prefix suffixChars : string)
    (tr : list Call) :
  exists o paths,
    exsmount.findNextDevNode prefix suffixChars h tr
    = (o, tr ++ map os_Stat paths) /\
    (forall p, In p paths ->
       exists c, In c (list_ascii_of_string suffixChars) /\
                 p = prefix +:+ String c EmptyString) /\
    match o with
    | Returns node =>
        exists pre err,
          paths = pre ++ [node] /\
          h (tr ++ map os_Stat pre) (os_Stat node) = Some err /\
          os_IsNotExist err = true
    | Panics msg =>
        msg = "no device found with prefix: " +:+ prefix /\
        List.length paths = String.length suffixChars
    | Exits _ => False
    end.
Proof.
  revert tr. induction suffixChars as [|s suffixChars IH]; intros tr.
  - exists (Panics ("no device found with prefix: " +:+ prefix)), [].
    cbn. unfold panic. rewrite app_nil_r. split; [reflexivity|].
    split; [intros p []|]. split; reflexivity.
  - cbn [exsmount.findNextDevNode]. unfold eff_bind. rewrite call_run.
    set (node := prefix +:+ String s EmptyString).
    assert (Hrec : exists o paths,
      exsmount.findNextDevNode prefix suffixChars h (tr ++ [os_Stat node])
      = (o, tr ++ map os_Stat paths) /\
      (forall p, In p paths ->
         exists c, In c (list_ascii_of_string (String s suffixChars)) /\
                   p = prefix +:+ String c EmptyString) /\
      match o with
      | Returns node' =>
          exists pre err,
            paths = pre ++ [node'] /\
            h (tr ++ map os_Stat pre) (os_Stat node') = Some err /\
            os_IsNotExist err = true
      | Panics msg =>
          msg = "no device found with prefix: " +:+ prefix /\
          List.length paths = String.length (String s suffixChars)
      | Exits _ => False
      end).
    { destruct (IH (tr ++ [os_Stat node])) as (o & paths & Hrun & Hin & Ho).
      exists o, (node :: paths).
      split; [rewrite Hrun; cbn [map]; now rewrite <- app_assoc|].
      split.
      - intros p [<-|Hp]; [exists s; split; [now left | reflexivity]|].
        destruct (Hin p Hp) as (c & Hc & ->). exists c. split; [now right|].
        reflexivity.
      - destruct o as [node'|msg|msg]; [| |exact Ho].
        + destruct Ho as (pre & err & -> & Hans & Hne).
          exists (node :: pre), err. split; [reflexivity|].
          split; [|exact Hne]. rewrite <- Hans. f_equal.
          cbn [map]. now rewrite <- app_assoc.
        + destruct Ho as [-> Hlen]. split; [reflexivity|].
          cbn [List.length String.length]. now rewrite Hlen. }
    destruct (h tr (os_Stat node)) as [err|] eqn:Hst.
    + destruct (os_IsNotExist err) eqn:Hne.
      * exists (Returns node), [node]. unfold eff_ret.
        split; [reflexivity|]. split.
        -- intros p [<-|[]]. exists s. split; [now left | reflexivity].
        -- exists [], err. cbn [map app]. rewrite app_nil_r. auto.
      * exact Hrec.
    + exact Hrec.
Qed.

Lemma waitForDevice_loop_trace (h : Host) (device : string) (fuel : nat) :
  forall tr, exists (b : bool) (n : nat),
    exsmount.waitForDevice_loop device fuel h tr
    = (Returns b,
       tr ++ concat (repeat [os_Stat device; time_Sleep 1] n)
          ++ (if b then [os_Stat device] else [])) /\
    (if b
     then (n < fuel)%nat /\
          h (tr ++ concat (repeat [os_Stat device; time_Sleep 1] n))
            (os_Stat device) = None
     else n = fuel).
Proof.
  induction fuel as [|fuel IH]; intros tr.
  - exists false, O. cbn. unfold eff_ret. now rewrite app_nil_r.
  - cbn [exsmount.waitForDevice_loop]. unfold eff_bind at 1. rewrite call_run.
    destruct (h tr (os_Stat device)) as [err|] eqn:Hst.
    + unfold eff_bind at 1. rewrite call_run.
      destruct (IH ((tr ++ [os_Stat device]) ++ [time_Sleep 1]))
        as (b & n & Hrun & Hb).
      exists b, (S n). rewrite Hrun. cbn [repeat concat].
      split; [f_equal; now rewrite <- !app_assoc|].
      destruct b; [|now rewrite Hb].
      destruct Hb as [Hn Hans]. split; [lia|].
      rewrite <- Hans. f_equal. now rewrite <- !app_assoc.
    + exists true, O. unfold eff_ret. cbn [repeat concat app].
      rewrite app_nil_r. split; [reflexivity|]. split; [lia | exact Hst].
Qed.

(** X11. Whatever the host answers, [waitForDevice] always returns; its
    calls are [n] rounds of looking at the device and sleeping one second,
    followed, when it returns true, by one more look that succeeded; it
    returns false exactly when it has made all 30 rounds, so it never
    sleeps more than 30 seconds. *)
Theorem waitForDevice_trace (h : Host) (device : string) (tr : list Call) :
  exists (b : bool) (n : nat),
    exsmount.waitForDevice device h tr
    = (Returns b,
       tr ++ concat (repeat [os_Stat device; time_Sleep 1] n)
          ++ (if b then [os_Stat device] else [])) /\
    (if b
     then (n < 30)%nat /\
          h (tr ++ concat (repeat [os_Stat device; time_Sleep 1] n))
            (os_Stat device) = None
     else n = 30%nat).
Proof. apply waitForDevice_loop_trace. Qed.

(** ** What [CreateAttach] calls *)

Lemma In_check (l l' : list ascii) :
  forallb (fun c => existsb (Ascii.eqb c) l') l = true ->
  forall c, In c l -> In c l'.
Proof.
  intros Hall c Hc. rewrite forallb_forall in Hall.
  specialize (Hall c Hc). apply existsb_exists in Hall as (c' & Hc' & Heq).
  apply Ascii.eqb_eq in Heq. now subst.
Qed.

Lemma slice_letters (k : Z) (c : ascii) :
  1 <= k < 7 ->
  In c (list_ascii_of_string (exsmount.slice_from exsmount.letters k)) ->
  In c (list_ascii_of_string "bcdefghijklmnopqrstuvwxyz").
Proof.
  intros Hk. apply In_check.
  assert (Hcases : k = 1 \/ k = 2 \/ k = 3 \/ k = 4 \/ k = 5 \/ k = 6) by lia.
  destruct Hcases as [->|[->|[->|[->|[->| ->]]]]]; vm_compute; reflexivity.
Qed.

Section AttachCalls.

Variable cli : exsmount.Args.

Lemma WaitForVolumeStatus_attach region volumeId status :
emits (attach_call cli) (exsmount.WaitForVolumeStatus region volumeId status).
Proof.
unfold exsmount.WaitForVolumeStatus. repeat emits_step.
generalize 30%nat 0 "". intros fuel.
induction fuel as [|fuel IH]; intros i xstatus; cbn [exsmount.waitLoop];
  repeat emits_step; apply IH.
Qed.

Lemma Create_attach region iid size iops is_ :
emits (attach_call cli) (exsmount.Create region iid size (exsmount.VolumeType cli) iops is_).
Proof.
unfold exsmount.Create. apply emits_bind.
- apply emits_call. split; [reflexivity|].
  destruct (String.eqb_spec (exsmount.VolumeType cli) "io1"); assumption.
- intros [volumeId e]. repeat emits_step. apply WaitForVolumeStatus_attach.
Qed.

Lemma findNextDevNode_attach prefix suffixChars :
prefix = "/dev/sd" \/ prefix = "/dev/xvd" ->
(forall c, In c (list_ascii_of_string suffixChars) ->
           In c (list_ascii_of_string "bcdefghijklmnopqrstuvwxyz")) ->
yields (attach_call cli) is_attach_device (exsmount.findNextDevNode prefix suffixChars).
Proof.
intros Hprefix.
induction suffixChars as [|s suffixChars IH]; intros Hchars;
  cbn [exsmount.findNextDevNode].
- apply yields_panic.
- assert (Hnode : is_attach_device (prefix +:+ String s EmptyString)).
  { exists prefix, s. split; [exact Hprefix|]. split; [|reflexivity].
    apply Hchars. now left. }
  assert (Hrec : yields (attach_call cli) is_attach_device
                   (exsmount.findNextDevNode prefix suffixChars)).
  { apply IH. intros c Hc. apply Hchars. now right. }
  apply (yields_bind _ (fun _ => True)).
  + apply yields_call; [now right | auto].
  + intros [err|] _; [|exact Hrec].
    destruct (os_IsNotExist err); [now apply yields_ret | exact Hrec].
Qed.

Lemma waitForDevice_attach device :
is_attach_device device -> emits (attach_call cli) (exsmount.waitForDevice device).
Proof.
intros Hdev. unfold exsmount.waitForDevice. generalize 30%nat as fuel.
induction fuel as [|fuel IH]; cbn [exsmount.waitForDevice_loop].
- apply emits_ret.
- apply emits_bind; [apply emits_call; now right | intros [err|]].
  + apply emits_bind; [apply emits_call; exact I | intros _; exact IH].
  + apply emits_ret.
Qed.

Lemma attachLoop_attach region iid volumeId prefix err fuel :
prefix = "/dev/sd" \/ prefix = "/dev/xvd" ->
forall k st,
  1 <= k -> k + Z.of_nat fuel <= 7 -> attached_at_device st ->
  yields (attach_call cli) round_ok
    (exsmount.attachLoop region iid volumeId prefix err fuel k st).
Proof.
intros Hprefix.
induction fuel as [|fuel IH]; intros k st Hk Hfuel [Hst Hdevs];
  cbn [exsmount.attachLoop].
- apply yields_ret. now split.
- eapply yields_bind.
  { apply (findNextDevNode_attach prefix); [exact Hprefix|].
    intros c. apply slice_letters. lia. }
  intros attachDevice Hdev.
  apply (yields_bind _ (fun _ => True)).
  { apply yields_call; [exact Hdev | auto]. }
  intros [aerr|] _.
  + destruct (Strings.Contains _ _); [|now apply yields_ret].
    apply (yields_bind _ (fun _ => True)).
    { apply yields_call; [exact I | auto]. }
    intros r _.
    apply (yields_bind _ (fun _ => True)).
    { apply yields_call; [exact I | auto]. }
    intros _ _. apply IH; [lia | lia |]. split; [intros _; exact Hdev|].
    exact Hdevs.
  + apply (yields_bind _ (fun _ => True)).
    { apply emits_yields, WaitForVolumeStatus_attach. }
    intros [werr|] _; [now apply yields_ret|].
    apply (yields_bind _ (fun _ => True)).
    { apply emits_yields, waitForDevice_attach, Hdev. }
    intros ok _. destruct (negb ok); apply yields_ret; [reflexivity|].
    split; [intros _; exact Hdev|]. cbn [exsmount.st_devices].
    apply Forall_app. split; [exact Hdevs|]. now constructor.
Qed.

Lemma prefixLoop_attach region iid volumeId err prefixes :
Forall (fun prefix => prefix = "/dev/sd" \/ prefix = "/dev/xvd") prefixes ->
forall st,
  attached_at_device st ->
  yields (attach_call cli) round_ok
    (exsmount.prefixLoop region iid volumeId err prefixes st).
Proof.
induction 1 as [|prefix prefixes Hprefix _ IH]; intros st Hst;
  cbn [exsmount.prefixLoop].
- now apply yields_ret.
- destruct (exsmount.st_attached st) eqn:Hatt; [now apply yields_ret|].
  eapply yields_bind.
  { apply (attachLoop_attach region iid volumeId prefix err 6 Hprefix 1 st);
      [lia | lia | exact Hst]. }
  intros [early|st'] Hst'; [now apply yields_ret | now apply IH].
Qed.

Lemma volumeLoop_attach region iid fuel :
forall i devices volumes,
  Forall is_attach_device devices ->
  yields (attach_call cli) volumes_ok
    (exsmount.volumeLoop region iid cli fuel i devices volumes).
Proof.
induction fuel as [|fuel IH]; intros i devices volumes Hdevs;
  cbn [exsmount.volumeLoop].
- now apply yields_ret.
- apply (yields_bind _ (fun _ => True));
    [apply emits_yields, Create_attach | intros [rsp err] _].
  apply (yields_bind _ (fun _ => True)).
  + apply emits_yields.
    destruct err as [cerr|]; [|apply emits_ret].
    destruct (Strings.Contains _ _); [|apply emits_ret].
    apply emits_bind; [apply emits_call; exact I | intros r].
    apply emits_bind; [apply emits_call; exact I | intros _].
    apply emits_bind; [apply Create_attach | intros [rsp2 err2]].
    destruct err2; apply emits_ret.
  + intros [e|volumeId] _; [now apply yields_ret|].
    apply (yields_bind _ (fun _ => True));
      [apply yields_call; [exact I | auto] | intros _ _].
    eapply yields_bind.
    { apply (prefixLoop_attach region iid volumeId err ["/dev/sd"; "/dev/xvd"]).
      - constructor; [now left|]. constructor; [now right | constructor].
      - split; [intros [=] | exact Hdevs]. }
    intros [early|st] Hst; [now apply yields_ret|].
    destruct Hst as [Hst Hdevs'].
    destruct (exsmount.st_attached st) eqn:Hatt; cbn [negb];
      [|now apply yields_ret].
    apply (yields_bind _ (fun _ => True)).
    * apply emits_yields.
      destruct (exsmount.Keep cli) eqn:Hkeep; cbn [negb]; [apply emits_ret|].
      apply emits_bind; [|intros [derr|]; apply emits_ret].
      unfold exsmount.DeleteOnTermination.
      apply emits_bind; [|intros [e|]; apply emits_ret].
      apply emits_call. split; [exact Hkeep|]. split; [reflexivity|].
      now apply Hst.
    * intros [derr|] _; [now apply yields_ret | now apply IH].
Qed.

End AttachCalls.

Lemma checkIops_keeps_request (cli cli' : exsmount.Args) :
  exsmount.checkIops cli = inr cli' ->
  exsmount.VolumeType cli' = exsmount.VolumeType cli /\
  exsmount.MountPoint cli' = exsmount.MountPoint cli /\
  exsmount.Keep cli' = exsmount.Keep cli.
Proof.
  unfold exsmount.checkIops.
  repeat match goal with
         | |- context [if ?b then _ else _] => destruct b
         end; intros [= <-]; repeat split; reflexivity.
Qed.

Lemma CreateAttach_yields (cli : exsmount.Args) :
  yields (attach_call cli) (fun p => Forall is_attach_device (fst p))
    (exsmount.CreateAttach cli).
Proof.
  unfold exsmount.CreateAttach.
  apply (yields_bind _ (fun _ => True));
    [apply yields_call; [exact I | auto] | intros [iid e] _].
  destruct e as [err|]; [apply yields_ret; constructor|].
  apply (yields_bind _ (fun _ => True));
    [apply yields_call; [exact I | auto] | intros [err|] _];
    [apply yields_ret; constructor|].
  destruct (exsmount.checkIops cli) as [err|cli'] eqn:Hcheck;
    [apply yields_ret; constructor|].
  destruct (checkIops_keeps_request _ _ Hcheck) as (Htyp & Hmp & Hkeep).
  set (cli2 := exsmount.set_Size cli' _).
  assert (Hweak : forall c, attach_call cli2 c -> attach_call cli c).
  { intros c. unfold attach_call. subst cli2. cbn.
    rewrite Htyp, Hmp, Hkeep. auto. }
  assert (Hloop : yields (attach_call cli) volumes_ok
            (exsmount.volumeLoop (Region iid) iid cli2
               (Z.to_nat (exsmount.N cli2)) 0 [] [])).
  { intros h tr.
    destruct (volumeLoop_attach cli2 (Region iid) iid
                (Z.to_nat (exsmount.N cli2)) 0 [] []
                (List.Forall_nil _) h tr)
      as (ext & Hext & HP & HQ).
    exists ext. split; [exact Hext|]. split; [|exact HQ].
    eapply List.Forall_impl; [exact Hweak | exact HP]. }
  eapply yields_bind; [exact Hloop|].
  intros [early|[devices volumes]] Hr.
  - apply yields_ret. cbn in Hr. rewrite Hr. constructor.
  - apply (yields_bind _ (fun _ => True));
      [apply yields_call; [exact I | auto] | intros _ _].
    apply (yields_bind _ (fun _ => True)).
    + apply emits_yields. unfold exsmount.makeDir.
      apply emits_bind; [apply emits_call; left; subst cli2; cbn; auto
                        | intros [err|]]; [|apply emits_ret].
      destruct (os_IsNotExist err); [|apply emits_ret].
      apply emits_bind; [apply emits_call; subst cli2; cbn; auto
                        | intros [e|]]; apply emits_ret.
    + intros [err|] _; apply yields_ret; [constructor | exact Hr].
Qed.

(** X12. Whatever the host answers, and however it ends, [CreateAttach] runs
    no command and never detaches or deletes a volume, so a volume that it
    has created stays when a later step fails. It creates volumes of the
    requested type only, and sends an IOPS value exactly for the type io1;
    it attaches only at [/dev/sd] or [/dev/xvd] with a letter from b to z;
    it sets delete-on-termination only when the volume is not to be kept;
    the only paths it looks at are such device names and the mount
    point, which is the only directory it makes; and the devices that it
    returns are such device names. *)
Theorem CreateAttach_calls (cli : exsmount.Args) (h : Host) :
  Forall (attach_call cli) (snd (run (exsmount.CreateAttach cli) h)) /\
  forall devices err,
    fst (run (exsmount.CreateAttach cli) h) = Returns (devices, err) ->
    Forall is_attach_device devices.
Proof.
  destruct (CreateAttach_yields cli h []) as (ext & Hext & HP & HQ).
  unfold run. rewrite Hext. split; [exact HP|].
  intros devices err Hrun. exact (HQ _ Hrun).
Qed.

(** ** Detaching and deleting a volume *)

Lemma WaitForVolumeStatus_waits region volumeId status :
  emits (wait_call region volumeId)
    (exsmount.WaitForVolumeStatus region volumeId status).
Proof.
  intros h tr. unfold exsmount.WaitForVolumeStatus, eff_bind.
  rewrite call_run.
  destruct (waitLoop_bounded region volumeId status 30 0 "" h
              (tr ++ [time_Sleep 5])) as (o & ext & Hrun & HP & _).
  exists ([time_Sleep 5] ++ ext). rewrite Hrun. cbn [snd].
  split; [now rewrite <- app_assoc|]. constructor; [exact I | exact HP].
Qed.

Lemma probeRegions_trace (vid : string) (h : Host) (rs : list string) :
  forall p tr, exists o probes,
    ddv.probeRegions vid rs p h tr = (o, tr ++ probes) /\
    Forall (fun c => match c with
                     | session_NewSession => True
                     | ec2_DescribeVolumes region v => In region rs /\ v = vid
                     | _ => False
                     end) probes /\
    forall p', o = Returns p' ->
      (p' = p /\ probes = []) \/
      exists region pre,
        In region rs /\ ddv.svc p' = Some region /\
        probes = pre ++ [ec2_DescribeVolumes region vid].
Proof.
  induction rs as [|region rs IH]; intros p tr.
  - exists (Returns p), []. cbn. unfold eff_ret. rewrite app_nil_r.
    split; [reflexivity|]. split; [constructor|].
    intros p' [= <-]. now left.
  - cbn [ddv.probeRegions]. unfold eff_bind at 1. rewrite call_run.
    destruct (h tr session_NewSession) as [err|].
    { eexists _, [session_NewSession]. unfold panic.
      split; [reflexivity|]. split; [repeat constructor | intros p' [=]]. }
    unfold eff_bind at 1. rewrite call_run.
    set (d := h (tr ++ [session_NewSession]) (ec2_DescribeVolumes region vid)).
    destruct (derr d) as [derr|] eqn:Hd.
    + destruct (IH {| ddv.svc := Some region; ddv.probe_drsp := drsp d;
                      ddv.probe_err := Some derr |}
                  ((tr ++ [session_NewSession])
                   ++ [ec2_DescribeVolumes region vid]))
        as (o & probes & Hrun & HP & Ho).
      exists o, ([session_NewSession; ec2_DescribeVolumes region vid] ++ probes).
      split; [rewrite Hrun; now rewrite <- !app_assoc|]. split.
      * constructor; [exact I|]. constructor; [split; [now left | reflexivity]|].
        eapply List.Forall_impl; [|exact HP].
        intros [] Hc; try exact Hc. destruct Hc. split; [now right | assumption].
      * intros p' Hp'. right. destruct (Ho p' Hp') as [[-> ->]|Hlater].
        -- exists region, [session_NewSession]. split; [now left|].
           split; reflexivity.
        -- destruct Hlater as (region' & pre & Hin & Hsvc & ->).
           exists region', ([session_NewSession; ec2_DescribeVolumes region vid]
                            ++ pre).
           split; [now right|]. split; [exact Hsvc|].
           now rewrite <- app_assoc.
    + eexists _, [session_NewSession; ec2_DescribeVolumes region vid].
      unfold eff_ret. split; [now rewrite <- app_assoc|]. split.
      * constructor; [exact I|]. constructor; [|constructor].
        split; [now left | reflexivity].
      * intros p' [= <-]. right. exists region, [session_NewSession].
        split; [now left|]. split; reflexivity.
Qed.

Lemma detachLoop_trace (h : Host) (region vid : string) (fuel : nat) tr :
  exists o waits,
    ddv.detachLoop region vid (S fuel) h tr
    = (o, (tr ++ [ec2_DetachVolume region vid true]) ++ waits) /\
    Forall (wait_call region vid) waits.
Proof.
  cbn [ddv.detachLoop]. unfold eff_bind at 1. rewrite call_run.
  destruct (h tr (ec2_DetachVolume region vid true)) as [v err].
  cbn [attachment detach_err].
  destruct err as [derr|].
  - destruct (Strings.Contains _ _).
    { eexists _, []. unfold eff_ret. rewrite app_nil_r.
      split; [reflexivity | constructor]. }
    destruct v as [[state|]|]; unfold eff_bind, eff_ret, panic;
      try destruct (String.eqb state "available");
      eexists _, []; rewrite app_nil_r; (split; [reflexivity | constructor]).
  - unfold eff_bind.
    destruct (WaitForVolumeStatus_waits region vid "available" h
                (tr ++ [ec2_DetachVolume region vid true]))
      as (waits & Hrun & HP).
    destruct (exsmount.WaitForVolumeStatus region vid "available" h _)
      as [[[e|]|msg|msg] tr'];
      cbn [snd] in Hrun; subst tr'; eexists _, waits; unfold eff_ret;
      (split; [reflexivity | exact HP]).
Qed.

(** X13. Whatever the host answers, the calls of [DetachAndDelete] are:
    sessions and descriptions of the volume, region after region; then, in
    the region whose description was the last, at most one forced
    [DetachVolume] of the volume, so a detachment that fails is not tried
    again; then descriptions of the volume and sleeps; then at most one
    [DeleteVolume] of the volume, as the last call. It returns no error
    only when that [DeleteVolume] was made and answered without error. *)
Theorem DetachAndDelete_calls (h : Host) (vid : string) :
  exists o probes rest,
    run (ddv.DetachAndDelete vid) h = (o, probes ++ rest) /\
    Forall (probe_call vid) probes /\
    (rest = [] \/
     exists region pre waits fin,
       In region ddv.regions /\
       probes = pre ++ [ec2_DescribeVolumes region vid] /\
       rest = ec2_DetachVolume region vid true :: waits ++ fin /\
       Forall (wait_call region vid) waits /\
       (fin = [] \/ fin = [ec2_DeleteVolume region vid]) /\
       (o = Returns None ->
        fin = [ec2_DeleteVolume region vid] /\
        h (probes ++ ec2_DetachVolume region vid true :: waits)
          (ec2_DeleteVolume region vid) = None)) /\
    (o = Returns None -> rest <> []).
Proof.
  unfold run, ddv.DetachAndDelete. unfold eff_bind at 1.
  destruct (probeRegions_trace vid h ddv.regions
              {| ddv.svc := None; ddv.probe_drsp := None;
                 ddv.probe_err := None |} [])
    as (o & probes & Hrun & HP & Ho).
  rewrite Hrun. cbn [app].
  assert (Hstop : forall o' : Outcome (option error),
            o' <> Returns None ->
            exists o1 probes1 rest,
              (o', probes) = (o1, probes1 ++ rest) /\
              Forall (probe_call vid) probes1 /\
              (rest = [] \/
               exists region pre waits fin,
                 In region ddv.regions /\
                 probes1 = pre ++ [ec2_DescribeVolumes region vid] /\
                 rest = ec2_DetachVolume region vid true :: waits ++ fin /\
                 Forall (wait_call region vid) waits /\
                 (fin = [] \/ fin = [ec2_DeleteVolume region vid]) /\
                 (o1 = Returns None ->
                  fin = [ec2_DeleteVolume region vid] /\
                  h (probes1 ++ ec2_DetachVolume region vid true :: waits)
                    (ec2_DeleteVolume region vid) = None)) /\
              (o1 = Returns None -> rest <> [])).
  { intros o' Ho'. exists o', probes, []. rewrite app_nil_r.
    split; [reflexivity|]. split; [exact HP|]. split; [now left|].
    intros E. contradiction. }
  destruct o as [p|msg|msg]; [|now apply Hstop|now apply Hstop].
  destruct (ddv.probe_drsp p) as [rsp|] eqn:Hrsp;
    [|unfold eff_ret; now apply Hstop].
  destruct (ddv.probe_err p) as [err|];
    [unfold eff_ret; now apply Hstop|].
  destruct (Ho p eq_refl) as [[-> _]|(region & pre & Hin & Hsvc & Hprobes)];
    [discriminate|].
  rewrite Hsvc. clear Hstop.
  unfold eff_bind at 1.
  destruct (detachLoop_trace h region vid 9 probes) as (o1 & waits & Hd & Hw).
  rewrite Hd.
  assert (Hshape : forall fin,
            (probes ++ [ec2_DetachVolume region vid true]) ++ waits ++ fin
            = probes ++ ec2_DetachVolume region vid true :: waits ++ fin).
  { intros fin. now rewrite <- app_assoc. }
  destruct o1 as [[e|]|msg|msg].
  - unfold eff_ret. eexists _, probes, _.
    split; [rewrite <- (app_nil_r waits) at 1; rewrite <- app_assoc;
            f_equal; apply (Hshape [])|].
    split; [exact HP|]. split; [|discriminate].
    right. exists region, pre, waits, []. repeat split; auto; discriminate.
  - unfold eff_bind. rewrite call_run.
    destruct (h _ (ec2_DeleteVolume region vid)) as [err|] eqn:Hdel;
      unfold eff_ret; eexists _, probes, _;
      (split; [rewrite <- app_assoc; f_equal; apply Hshape|]);
      (split; [exact HP|]).
    + split; [|discriminate].
      right. exists region, pre, waits, [ec2_DeleteVolume region vid].
      repeat split; auto; discriminate.
    + split; [|intros _; discriminate].
      right. exists region, pre, waits, [ec2_DeleteVolume region vid].
      repeat split; auto.
      rewrite <- Hdel. f_equal. now rewrite <- app_assoc.
  - eexists _, probes, _.
    split; [rewrite <- (app_nil_r waits) at 1; rewrite <- app_assoc;
            f_equal; apply (Hshape [])|].
    split; [exact HP|]. split; [|discriminate].
    right. exists region, pre, waits, []. repeat split; auto; discriminate.
  - eexists _, probes, _.
    split; [rewrite <- (app_nil_r waits) at 1; rewrite <- app_assoc;
            f_equal; apply (Hshape [])|].
    split; [exact HP|]. split; [|discriminate].
    right. exists region, pre, waits, []. repeat split; auto; discriminate.
Qed.

(** ** The whole of [Main] *)

Lemma yields_weaken_calls (P P' : Call -> Prop) {A} (Q : A -> Prop)
    (m : Eff A) :
  (forall c, P c -> P' c) -> yields P Q m -> yields P' Q m.
Proof.
  intros HP Hm h tr. destruct (Hm h tr) as (ext & Hext & Hcalls & HQ).
  exists ext. split; [exact Hext|]. split; [|exact HQ].
  eapply List.Forall_impl; [exact HP | exact Hcalls].
Qed.

Lemma setReadAhead_blockdev (P : Call -> Prop) (devices : list string) :
  (forall d, P (cmd_Run "blockdev" ["--setra"; "2048"; d])) ->
  emits P (exsmount.setReadAhead devices).
Proof.
  intros HP. induction devices as [|d devices IH]; cbn [exsmount.setReadAhead].
  - apply emits_ret.
  - apply emits_bind; [apply emits_call, HP | intros _; exact IH].
Qed.

Lemma Main_emits (cli : exsmount.Args) :
  emits (main_call cli) (exsmount.Main cli).
Proof.
  unfold exsmount.Main.
  destruct (_ && _)%bool; [apply emits_exit|].
  destruct (_ || _)%bool; [apply emits_exit|].
  apply (yields_emits _ (fun _ => True)).
  eapply yields_bind.
  { apply (yields_weaken_calls (attach_call cli)); [now left|].
    apply CreateAttach_yields. }
  intros [devices err] Hdevices. cbn [fst] in Hdevices.
  destruct err as [e|]; [apply yields_panic|].
  apply emits_yields. apply emits_bind.
  { apply (emits_weaken (local_call (fun dev => In dev devices))).
    - intros c Hc. right. left. revert Hc. apply local_call_weaken.
      intros dev Hdev. rewrite List.Forall_forall in Hdevices. auto.
    - apply MountLocal_local. }
  intros [devices' err']. destruct err' as [e|]; [apply emits_panic|].
  destruct (String.eqb_spec (exsmount.VolumeType cli) "st1") as [Hst1|_].
  { apply setReadAhead_blockdev. intros d. right. right. split; [now left|].
    now exists d. }
  destruct (String.eqb_spec (exsmount.VolumeType cli) "sc1") as [Hsc1|_];
    cbn [orb]; [|apply emits_ret].
  apply setReadAhead_blockdev. intros d. right. right. split; [now right|].
  now exists d.
Qed.

(** X14. [Main] ends at once, without any call, when the volume type is
    none of st1, gp2, sc1, io1 and standard, or when the number of volumes
    is not between 1 and 16. Whatever the host answers, its calls are those
    of [CreateAttach] and those of [MountLocal]; it formats and mounts only
    devices of the form [/dev/sd] or [/dev/xvd] with a letter from b to z,
    or an array, always as ext4; and it sets a read-ahead, of 2048, only
    for the volume types st1 and sc1. *)
Theorem Main_calls (cli : exsmount.Args) (h : Host) :
  Forall (main_call cli) (snd (run (exsmount.Main cli) h)) /\
  (~ In (exsmount.VolumeType cli) ["st1"; "gp2"; "sc1"; "io1"; "standard"] ->
   run (exsmount.Main cli) h
   = (Exits "volume type must be one of st1/gp2/sc1/io1", [])) /\
  (exsmount.N cli < 1 \/ 16 < exsmount.N cli ->
   exists msg, run (exsmount.Main cli) h = (Exits msg, [])).
Proof.
  split; [|split].
  - destruct (Main_emits cli h []) as (ext & Hext & HP).
    unfold run. rewrite Hext. exact HP.
  - intros Htyp. unfold run, exsmount.Main.
    repeat match goal with
           | |- context [String.eqb ?a ?b] =>
               destruct (String.eqb_spec a b) as [He|He];
               [exfalso; apply Htyp; rewrite He; cbn; tauto | clear He]
           end.
    reflexivity.
  - intros HN. unfold run, exsmount.Main.
    destruct (_ && _)%bool; [eexists; reflexivity|].
    assert (Hb : ((16 <? exsmount.N cli) || (exsmount.N cli <? 1))%bool = true).
    { apply orb_true_iff. rewrite !Z.ltb_lt. tauto. }
    rewrite Hb. eexists; reflexivity.
Qed.

(** ** Where the scan of the candidates ends *)

Lemma selectDevices_stops (h : Host) (deviceCandidates : list string)
    (inUse : gmap string bool) (d : string) (post : list string) :
  d <> EmptyString ->
  ~ In (Strings.init d) deviceCandidates ->
  absent h d ->
  forall pre devices tr, exists o paths,
    exsmount.selectDevices deviceCandidates inUse (pre ++ d :: post) devices
      h tr
    = (o, tr ++ map os_Stat paths) /\
    (forall p, In p paths -> In p (pre ++ [d])) /\
    (forall out, o = Returns (inr out) ->
       exists more, out = devices ++ more /\ forall x, In x more -> In x pre).
Proof.
  intros Hne Hnot Habsent.
  induction pre as [|x pre IH]; intros devices tr.
  - cbn [app exsmount.selectDevices].
    rewrite (slice_to_last_nonempty _ Hne).
    apply contains_not_In in Hnot. rewrite Hnot.
    unfold eff_bind. rewrite call_run.
    destruct (Habsent tr) as (err & -> & ->). unfold eff_ret.
    exists (Returns (inr devices)), [d]. split; [reflexivity|].
    split; [auto|]. intros out [= <-]. exists []. rewrite app_nil_r.
    split; [reflexivity | intros x0 []].
  - cbn [app exsmount.selectDevices].
    assert (Hskip : forall tr1 path,
      tr1 = tr ++ map os_Stat path -> (forall p, In p path -> p = x) ->
      exists o paths,
        exsmount.selectDevices deviceCandidates inUse (pre ++ d :: post)
          devices h tr1
        = (o, tr ++ map os_Stat paths) /\
        (forall p, In p paths -> In p ((x :: pre) ++ [d])) /\
        (forall out, o = Returns (inr out) ->
           exists more, out = devices ++ more /\
                        forall x0, In x0 more -> In x0 (x :: pre))).
    { intros tr1 path -> Hpath.
      destruct (IH devices (tr ++ map os_Stat path))
        as (o & paths & Hrun & Hin & Hout).
      exists o, (path ++ paths). rewrite Hrun.
      split; [now rewrite map_app, app_assoc|]. split.
      - intros p Hp. apply in_app_iff in Hp as [Hp|Hp].
        + left. symmetry. now apply Hpath.
        + right. now apply Hin.
      - intros out Ho. destruct (Hout out Ho) as (more & -> & Hmore).
        exists more. split; [reflexivity|]. intros x0 Hx0. right. auto. }
    destruct (Strings.slice_to_last x) as [sub|].
    2:{ exists (Panics "slice bounds out of range [:-1]"), [].
        unfold panic. cbn [map]. rewrite app_nil_r.
        split; [reflexivity|]. split; [intros p [] | intros out [=]]. }
    destruct (exsmount.contains deviceCandidates sub).
    { apply (Hskip tr []); [cbn; now rewrite app_nil_r | intros p []]. }
    unfold eff_bind at 1. rewrite call_run.
    destruct (h tr (os_Stat x)) as [err|].
    { destruct (os_IsNotExist err); unfold eff_ret;
        eexists _, [x]; (split; [reflexivity|]);
        (split; [intros p [<-|[]]; now left|]).
      - intros out [= <-]. exists []. rewrite app_nil_r.
        split; [reflexivity | intros x0 []].
      - intros out [=]. }
    destruct (inUse !! x).
    { apply (Hskip _ [x]); [reflexivity | intros p [<-|[]]; reflexivity]. }
    destruct (IH (devices ++ [x]) (tr ++ [os_Stat x]))
      as (o & paths & Hrun & Hin & Hout).
    exists o, (x :: paths). rewrite Hrun.
    split; [cbn [map]; now rewrite <- app_assoc|]. split.
    + intros p [<-|Hp]; [now left | right; now apply Hin].
    + intros out Ho. destruct (Hout out Ho) as (more & -> & Hmore).
      exists (x :: more). split; [now rewrite <- app_assoc|].
      intros x0 [<-|Hx0]; [now left | right; auto].
Qed.

(** X15. The scan of the candidates stops at the first candidate that is
    reported not to exist (and is not passed over as the partition of
    another candidate): no candidate after it is looked at, and none is
    among the usable devices, whether it exists or not. *)
Theorem selection_stops_at_missing (h : Host) (pre post : list string)
    (d : string) (devices : list string) (tr : list Call) :
  d <> EmptyString ->
  ~ In (Strings.init d) (pre ++ d :: post) ->
  absent h d ->
  selects h (pre ++ d :: post) devices tr ->
  (forall x, In x devices -> In x pre) /\
  (forall path, In (os_Stat path) tr -> In path (pre ++ [d])).
Proof.
  intros Hne Hnot Habsent (inUse & tr0 & Hm & Hsel).
  apply mountedDevices_trace in Hm. subst tr0.
  destruct (selectDevices_stops h (pre ++ d :: post) inUse d post Hne Hnot
              Habsent pre [] ([] ++ [read_proc_mounts]))
    as (o & paths & Hrun & Hin & Hout).
  rewrite Hrun in Hsel. injection Hsel as -> <-.
  split.
  - destruct (Hout devices eq_refl) as (more & -> & Hmore). exact Hmore.
  - intros path [Hp|Hp]; [discriminate|].
    apply in_map_iff in Hp as (p & [= ->] & Hp). now apply Hin.
Qed.

Lemma selection_stops_at_missing_witness :
  (forall x, In x ["/dev/xvdb"] -> In x ["/dev/xvdb"]) /\
  (forall path,
     In (os_Stat path)
        [read_proc_mounts; os_Stat "/dev/xvdb"; os_Stat "/dev/xvdc"] ->
     In path (["/dev/xvdb"] ++ ["/dev/xvdc"])).
Proof.
  apply (selection_stops_at_missing Examples_further.gap
           ["/dev/xvdb"] ["/dev/xvdd"] "/dev/xvdc" ["/dev/xvdb"]
           [read_proc_mounts; os_Stat "/dev/xvdb"; os_Stat "/dev/xvdc"]).
  - discriminate.
  - cbn. intros [H|[H|[H|[]]]]; discriminate.
  - intros t. eexists. split; reflexivity.
  - exists ∅, [read_proc_mounts]. split; reflexivity.
Defined.

(** ** The mount table: errors *)

Lemma mountedDevices_lines_blank (lines : list string) :
  (exists line, In line lines /\ Strings.first_field line = None) ->
  forall m0,
    exsmount.mountedDevices_lines lines m0
    = Panics "index out of range [0] with length 0".
Proof.
  intros (line & Hin & Hblank).
  induction lines as [|l lines IH]; intros m0; [destruct Hin|].
  cbn [exsmount.mountedDevices_lines].
  destruct Hin as [->|Hin]; [now rewrite Hblank|].
  destruct (Strings.first_field l); [now apply IH | reflexivity].
Qed.

(** X16. [mountedDevices] makes one call, the reading of [/proc/mounts].
    When the file cannot be opened, the in-use set is empty, so that no
    device counts as mounted; when a line of the file has no field, it
    panics; and when reading the file ends on an error, it panics. *)
Theorem mountedDevices_edges (h : Host) (tr : list Call) :
  snd (exsmount.mountedDevices h tr) = tr ++ [read_proc_mounts] /\
  (h tr read_proc_mounts = OpenFails ->
   fst (exsmount.mountedDevices h tr) = Returns ∅) /\
  (forall lines read_error,
     h tr read_proc_mounts = Lines lines read_error ->
     (exists line, In line lines /\ Strings.first_field line = None) ->
     fst (exsmount.mountedDevices h tr)
     = Panics "index out of range [0] with length 0") /\
  (forall lines,
     h tr read_proc_mounts = Lines lines true ->
     exists msg, fst (exsmount.mountedDevices h tr) = Panics msg).
Proof.
  split; [|split; [|split]].
  - destruct (exsmount.mountedDevices h tr) as [o tr'] eqn:Hm.
    now apply mountedDevices_trace in Hm.
  - intros Hopen. unfold exsmount.mountedDevices, eff_bind.
    rewrite call_run, Hopen. reflexivity.
  - intros lines read_error Hread Hblank.
    unfold exsmount.mountedDevices, eff_bind.
    rewrite call_run, Hread, (mountedDevices_lines_blank lines Hblank).
    reflexivity.
  - intros lines Hread. unfold exsmount.mountedDevices, eff_bind.
    rewrite call_run, Hread.
    destruct (exsmount.mountedDevices_lines lines ∅); eexists; reflexivity.
Qed.

(** ** Creating a volume *)

(** X17. Whatever the host answers, [Create] asks once for a volume, in the
    availability zone of the instance, with the name tag
    [batchit-<instance id>] and the optional index, and then only waits
    for that volume. When the request fails it does not wait. It returns
    the id of the volume only with no error, after a description that
    showed the volume available; with any error, also one of the wait, it
    returns no id. *)
Theorem Create_result (h : Host) (tr : list Call) (region : string)
    (iid : IID) (size : Z) (typ : string) (iops : Z) (is_ : list Z) :
  let name := "batchit-" +:+ InstanceId iid
              +:+ match is_ with i :: _ => "-" +:+ Strings.itoa i | [] => "" end in
  let c := ec2_CreateVolume region (AvailabilityZone iid) size typ
             (if String.eqb typ "io1" then Some iops else None) name in
  exists o waits,
    exsmount.Create region iid size typ iops is_ h tr
    = (o, (tr ++ [c]) ++ waits) /\
    Forall (wait_call region (fst (h tr c))) waits /\
    (snd (h tr c) <> None -> waits = []) /\
    forall vid e, o = Returns (vid, e) ->
      match e with
      | Some _ => vid = ""
      | None =>
          vid = fst (h tr c) /\ snd (h tr c) = None /\
          exists pre more,
            waits = pre ++ [ec2_DescribeVolumes region vid] /\
            h ((tr ++ [c]) ++ pre) (ec2_DescribeVolumes region vid)
            = {| drsp := Some ("available" :: more); derr := None |}
      end.
Proof.
  intros name c. unfold exsmount.Create. fold name. fold c.
  unfold eff_bind at 1. rewrite call_run.
  destruct (h tr c) as [volumeId e] eqn:Hc. cbn [fst snd].
  destruct e as [err|].
  { exists (Returns ("", Some (Foreign err))), []. unfold eff_ret.
    rewrite app_nil_r. split; [reflexivity|]. split; [constructor|].
    split; [intros _; reflexivity|]. now intros vid e [= <- <-]. }
  unfold exsmount.WaitForVolumeStatus.
  unfold eff_bind at 1. unfold eff_bind at 1. rewrite call_run.
  destruct (waitLoop_bounded region volumeId "available" 30 0 "" h
              ((tr ++ [c]) ++ [time_Sleep 5]))
    as (o & ext & Hrun & HP & _ & _ & Hret).
  rewrite Hrun.
  assert (Hshape : ((tr ++ [c]) ++ [time_Sleep 5]) ++ ext
                   = (tr ++ [c]) ++ time_Sleep 5 :: ext)
    by now rewrite <- app_assoc.
  assert (HP' : Forall (wait_call region volumeId) (time_Sleep 5 :: ext))
    by (constructor; [exact I | exact HP]).
  destruct o as [[werr|]|msg|msg]; unfold eff_ret;
    eexists _, (time_Sleep 5 :: ext);
    (split; [rewrite Hshape; reflexivity|]);
    (split; [exact HP'|]); (split; [congruence|]);
    intros vid e [= <- <-]; [reflexivity|].
  split; [reflexivity|]. split; [reflexivity|].
  destruct (Hret eq_refl) as (pre & more & -> & Hans).
  exists (time_Sleep 5 :: pre), more. split; [reflexivity|].
  replace ((tr ++ [c]) ++ time_Sleep 5 :: pre)
    with (((tr ++ [c]) ++ [time_Sleep 5]) ++ pre)
    by now rewrite <- app_assoc.
  exact Hans.
Qed.
